(** * coconut: a shallow embedding of the LimeSurvey client and of the
      question hierarchy, with the properties of its specification.

    The development follows the Python sources module by module:
    - [Py]       the few Python values, exceptions and [dict] operations the
                 program relies on;
    - [Re]       the fragment of [re] used by [clean_question_text];
    - [Question] question.py ([Question], [QuestionGroup],
                 [clean_question_text]) and response.py ([Response]);
    - [Survey]   survey.py (loading questions, building the hierarchy);
    - [Lime]     lime.py (session handling, [export_responses],
                 [parse_reply_patched]).

    Python objects that are mutated and shared (the [Question] instances) live
    in a store indexed by their question id; a reference to a question is its
    key in that store. *)

From Stdlib Require Import String Ascii List ZArith Bool Lia Permutation Sorted.
From Stdlib Require DecimalString.
Import ListNotations.
Local Open Scope string_scope.
Local Open Scope Z_scope.

Set Implicit Arguments.
Local Set Warnings "-register-all".

(* ===================================================================== *)
(** ** Python values, exceptions, dictionaries *)
(* ===================================================================== *)

Module Py.

(** Values that reach the program from decoded JSON: [None], booleans,
    integers, strings, lists and dictionaries with string keys. *)
Inductive pyval : Type :=
| PyNone
| PyBool (b : bool)
| PyInt (z : Z)
| PyStr (s : string)
| PyList (l : list pyval)
| PyDict (d : list (string * pyval)).

(** Why a reply was refused by the protocol adapter. *)
Inductive invalid_reply : Type :=
| NotJSON                        (* [json.loads] raised *)
| KeyNotAllowed (k : string)     (* "Key not allowed: %s" *)
| MissingId.                     (* "Missing id in response" *)

(** The exceptions the program raises or lets through. *)
Inductive exn : Type :=
| KeyError (key : string)
| AttributeError (attr : string)
| TypeError
| ValueError
| EnvironmentError
| InvalidReplyError (why : invalid_reply)
| RPCError (msg : string)
| Exception (msg : string).

(** Outcome of a Python call: a returned value or a raised exception. *)
Inductive result (A : Type) : Type :=
| Ok (a : A)
| Raise (e : exn).
Arguments Ok {A} a.
Arguments Raise {A} e.

Definition bind {A B} (r : result A) (f : A -> result B) : result B :=
  match r with
  | Ok a => f a
  | Raise e => Raise e
  end.

(** [for x in l: acc = f(acc, x)] where the body may raise. *)
Fixpoint foldM {A B} (f : B -> A -> result B) (l : list A) (acc : B)
  : result B :=
  match l with
  | [] => Ok acc
  | x :: l' => bind (f acc x) (foldM f l')
  end.

(** [v == s] for a string literal [s]. *)
Definition eq_str (v : pyval) (s : string) : bool :=
  match v with
  | PyStr s' => String.eqb s' s
  | _ => false
  end.

(** [v is None] *)
Definition is_none (v : pyval) : bool :=
  match v with
  | PyNone => true
  | _ => false
  end.

(** [isinstance(v, str)] *)
Definition is_str (v : pyval) : bool :=
  match v with
  | PyStr _ => true
  | _ => false
  end.

(** *** Insertion-ordered dictionaries

    A Python [dict] keeps its keys in insertion order; assigning to a key
    that is present replaces the value in place. *)
Section Dict.
Variables (K V : Type) (eqb : K -> K -> bool).

Definition dict := list (K * V).

Fixpoint dict_get (k : K) (d : dict) : option V :=
  match d with
  | [] => None
  | (k', v) :: d' => if eqb k k' then Some v else dict_get k d'
  end.

(** [k in d] *)
Definition dict_mem (k : K) (d : dict) : bool :=
  match dict_get k d with
  | Some _ => true
  | None => false
  end.

(** [d[k] = v] *)
Fixpoint dict_set (k : K) (v : V) (d : dict) : dict :=
  match d with
  | [] => [(k, v)]
  | (k', v') :: d' =>
      if eqb k k' then (k', v) :: d' else (k', v') :: dict_set k v d'
  end.

(** [d.keys()], [d.values()] *)
Definition keys (d : dict) : list K := map fst d.
Definition values (d : dict) : list V := map snd d.

(** [len(d)] *)
Definition dict_len (d : dict) : nat := length d.
End Dict.

End Py.
Import Py.

Notation "x <- c1 ;; c2" := (Py.bind c1 (fun x => c2))
  (at level 61, c1 at next level, right associativity).

(* ===================================================================== *)
(** ** The fragment of [re] used by the program *)
(* ===================================================================== *)

Module Re.

(** A pattern is a sequence of items; an item is one character class,
    possibly under a greedy [*] or [+]. This covers the three patterns of
    question.py: [[\n\t\r]], [<.*>] and [ +]. *)
Inductive cls : Type :=
| Lit (c : ascii)
| OneOf (cs : list ascii)
| AnyChar.                       (* [.]: any character except a newline *)

Inductive item : Type :=
| One (c : cls)
| Star (c : cls)
| Plus (c : cls).

Definition regex := list item.

Definition newline : ascii := "010"%char.
Definition tab : ascii := "009"%char.
Definition carriage_return : ascii := "013"%char.

Definition cls_match (c : cls) (a : ascii) : bool :=
  match c with
  | Lit x => Ascii.eqb a x
  | OneOf xs => existsb (Ascii.eqb a) xs
  | AnyChar => negb (Ascii.eqb a newline)
  end.

(** Greedy repetition with backtracking: take as many characters of the
    class as possible, and give characters back one at a time until the
    rest of the pattern ([k]) matches. *)
Fixpoint star (c : cls) (k : string -> option string) (s : string)
  : option string :=
  match s with
  | String a s' =>
      if cls_match c a then
        match star c k s' with
        | Some r => Some r
        | None => k s
        end
      else k s
  | EmptyString => k s
  end.

(** [match_here r s]: match [r] at the start of [s]; the text left after
    the match, or [None]. *)
Fixpoint match_here (r : regex) (s : string) : option string :=
  match r with
  | [] => Some s
  | One c :: r' =>
      match s with
      | String a s' => if cls_match c a then match_here r' s' else None
      | EmptyString => None
      end
  | Star c :: r' => star c (match_here r') s
  | Plus c :: r' =>
      match s with
      | String a s' =>
          if cls_match c a then star c (match_here r') s' else None
      | EmptyString => None
      end
  end.

(** [re.sub]: scan left to right, replace every non-overlapping match. An
    empty match is replaced and the scan moves one character on. The
    recursion is on a counter that starts above the length of the text. *)
Fixpoint sub_from (fuel : nat) (r : regex) (repl s : string) : string :=
  match fuel with
  | O => s
  | S n =>
      match match_here r s with
      | Some rest =>
          if Nat.eqb (String.length rest) (String.length s) then
            match s with
            | String a s' => repl ++ String a (sub_from n r repl s')
            | EmptyString => repl
            end
          else repl ++ sub_from n r repl rest
      | None =>
          match s with
          | String a s' => String a (sub_from n r repl s')
          | EmptyString => EmptyString
          end
      end
  end.

Definition sub (r : regex) (repl s : string) : string :=
  sub_from (S (String.length s)) r repl s.

End Re.

(* ===================================================================== *)
(** ** question.py and response.py *)
(* ===================================================================== *)

Module Question.

(** [clean_question_text] *)
Definition clean_question_text (text : string) : string :=
  let t := text in
  let t := Re.sub [Re.One (Re.OneOf [Re.newline; Re.tab; Re.carriage_return])]
                  " " t in
  let t := Re.sub [Re.One (Re.Lit "<"); Re.Star Re.AnyChar; Re.One (Re.Lit ">")]
                  " " t in
  let t := Re.sub [Re.Plus (Re.Lit " ")] " " t in
  t.

(** *** Questions

    [RawQuestion] is the record the server sends for a question; the numeric
    fields are read through [int(...)] by the accessors of [Question]. *)
Record RawQuestion : Type := {
  raw_qid : Z;            (* data["id"]["qid"] *)
  raw_sid : Z;            (* data["sid"] *)
  raw_gid : Z;            (* data["gid"] *)
  raw_type : string;      (* data["type"] *)
  raw_title : string;     (* data["title"] *)
  raw_question : string;  (* data["question"] *)
  raw_parent_qid : Z      (* data["parent_qid"] *)
}.

(** A reference to a [Question] object. The survey creates one object per
    key of [questions_by_id] and every other reference ([parent], the values
    of [children], the parent of a group) is taken from that dictionary, so
    the key identifies the object. *)
Abbreviation ref := Z (only parsing).

Record Question : Type := {
  data : RawQuestion;
  parent : option ref;
  children : dict ref ref
}.

(** [Question.__init__] *)
Definition Question_init (d : RawQuestion) : Question :=
  {| data := d; parent := None; children := [] |}.

Definition set_parent (p : option ref) (q : Question) : Question :=
  {| data := data q; parent := p; children := children q |}.

Definition set_children (c : dict ref ref) (q : Question) : Question :=
  {| data := data q; parent := parent q; children := c |}.

(** The store of question objects, in the order of [questions_by_id]. *)
Definition store := dict ref Question.

Definition no_question : Question :=
  Question_init {| raw_qid := 0; raw_sid := 0; raw_gid := 0; raw_type := EmptyString;
                   raw_title := EmptyString; raw_question := EmptyString; raw_parent_qid := 0 |}.

(** Following a reference. References are keys of the store (see
    [Survey.refs_in_store] below), so the default is never reached. *)
Definition deref (st : store) (r : ref) : Question :=
  match dict_get Z.eqb r st with
  | Some q => q
  | None => no_question
  end.

(** Mutating the object behind a reference: the dictionary itself is not
    touched. *)
Definition mutate (st : store) (r : ref) (f : Question -> Question) : store :=
  map (fun kq => if Z.eqb (fst kq) r then (fst kq, f (snd kq)) else kq) st.

Definition question_id (q : Question) : Z := raw_qid (data q).
Definition survey_id (q : Question) : Z := raw_sid (data q).
Definition group_id (q : Question) : Z := raw_gid (data q).
Definition parent_qid (q : Question) : Z := raw_parent_qid (data q).
Definition type (q : Question) : string := raw_type (data q).
Definition _title (q : Question) : string := raw_title (data q).
Definition text (q : Question) : string :=
  clean_question_text (raw_question (data q)).

(** [link_child], [link_parent] *)
Definition link_child (st : store) (self child : ref) : store :=
  let cid := question_id (deref st child) in
  let st := mutate st self
              (fun q => set_children (dict_set Z.eqb cid child (children q)) q) in
  mutate st child (set_parent (Some self)).

Definition link_parent (st : store) (self parent_ : ref) : store :=
  let st := mutate st self (set_parent (Some parent_)) in
  link_child st parent_ self.

Definition has_children (q : Question) : bool :=
  Nat.ltb 0 (dict_len (children q)).

Definition is_child (q : Question) : bool :=
  match parent q with
  | Some _ => true
  | None => false
  end.

(** The display title: ["{parent._title}[{self._title}]"] for a child. *)
Definition title (st : store) (r : ref) : string :=
  let q := deref st r in
  match parent q with
  | Some p => _title (deref st p) ++ "[" ++ _title q ++ "]"
  | None => _title q
  end.

(** *** Question groups *)
Record QuestionGroup : Type := { group_parent : ref }.

Definition question_text (st : store) (g : QuestionGroup) : string :=
  text (deref st (group_parent g)).

Definition child_items (st : store) (g : QuestionGroup) : dict ref ref :=
  children (deref st (group_parent g)).

Definition key (st : store) (g : QuestionGroup) : string :=
  title st (group_parent g).

(** *** Responses (response.py)

    [Response] has [id] and [dict] only. [QuestionGroup.get_value] calls
    [response.get_answer], once with a [Question] and once with a title: a
    method that a subclass of [Response] has to bring. An instance is
    modelled by its data and by that method when its class defines it. *)
Inductive answer_key : Type :=
| ForQuestion (sq : ref)
| ForTitle (t : string).

Record Response : Type := {
  response_data : dict string pyval;
  get_answer_method : option (answer_key -> result pyval)
}.

(** An instance of the base class. *)
Definition Response_init (d : dict string pyval) : Response :=
  {| response_data := d; get_answer_method := None |}.

(** [Response.id] *)
Definition response_id (r : Response) : result pyval :=
  match dict_get String.eqb "id" (response_data r) with
  | Some v => Ok v
  | None => Raise (KeyError "id")
  end.

(** [Response.dict] *)
Definition response_dict (r : Response) : dict string pyval := response_data r.

(** [response.get_answer(k)]: attribute lookup, then the call. *)
Definition get_answer (r : Response) (k : answer_key) : result pyval :=
  match get_answer_method r with
  | Some f => f k
  | None => Raise (AttributeError "get_answer")
  end.

(** [sorted] on a list of strings. *)
Fixpoint insert_sorted (x : string) (l : list string) : list string :=
  match l with
  | [] => [x]
  | y :: l' => if String.leb x y then x :: l else y :: insert_sorted x l'
  end.

Definition sorted (l : list string) : list string :=
  fold_right insert_sorted [] l.

(** [QuestionGroup.get_other_value] *)
Definition get_other_value (st : store) (g : QuestionGroup) (response : Response)
  : result pyval :=
  match
    (value <- get_answer response
                (ForTitle (title st (group_parent g) ++ "[other]")) ;;
     if eq_str value "None" then Ok PyNone else Ok value)
  with
  | Raise (KeyError _) => Ok PyNone
  | r => r
  end.

(** [QuestionGroup.get_value] *)
Definition get_value (st : store) (g : QuestionGroup) (response : Response)
  : result (list pyval) :=
  response_values <-
    foldM (fun acc sq =>
             answer <- get_answer response (ForQuestion sq) ;;
             if eq_str answer "N/A" then Ok acc
             else Ok (acc ++ [text (deref st sq)])%list)
          (values (child_items st g)) [] ;;
  other_value <- get_other_value st g response ;;
  let response_values := map PyStr (sorted response_values) in
  if negb (is_none other_value) then Ok (response_values ++ [other_value])%list
  else Ok response_values.

End Question.

(* ===================================================================== *)
(** ** survey.py: loading the questions and building the hierarchy *)
(* ===================================================================== *)

Module Survey.
Import Question.

Record Survey : Type := {
  questions_by_id : store;
  questions_by_title : dict string ref;
  question_groups_by_key : dict string QuestionGroup
}.

Definition set_questions (st : store) (s : Survey) : Survey :=
  {| questions_by_id := st;
     questions_by_title := questions_by_title s;
     question_groups_by_key := question_groups_by_key s |}.

Definition set_groups (g : dict string QuestionGroup) (s : Survey) : Survey :=
  {| questions_by_id := questions_by_id s;
     questions_by_title := questions_by_title s;
     question_groups_by_key := g |}.

Definition set_titles (t : dict string ref) (s : Survey) : Survey :=
  {| questions_by_id := questions_by_id s;
     questions_by_title := t;
     question_groups_by_key := question_groups_by_key s |}.

(** [_create_question_link] *)
Definition _create_question_link (s : Survey) (parent_ child : ref) : Survey :=
  set_questions (link_parent (questions_by_id s) child parent_) s.

(** [_create_question_group] *)
Definition _create_question_group (s : Survey) (q : ref) : Survey :=
  let st := questions_by_id s in
  if negb (dict_mem String.eqb (title st q) (question_groups_by_key s)) then
    let group := {| group_parent := q |} in
    set_groups (dict_set String.eqb (key st group) group
                  (question_groups_by_key s)) s
  else s.

(** One turn of the loop of [_process_question_relationships], for the
    question behind [q]. *)
Definition process_question (s : Survey) (q : ref) : Survey :=
  let pq := parent_qid (deref (questions_by_id s) q) in
  if dict_mem Z.eqb pq (questions_by_id s) then
    let parent_ := pq in          (* self.questions_by_id[q.parent_qid] *)
    let s := _create_question_link s parent_ q in
    _create_question_group s parent_
  else s.

(** [_process_question_relationships] *)
Definition _process_question_relationships (s : Survey) : Survey :=
  let s := set_groups [] s in
  fold_left process_question (keys (questions_by_id s)) s.

(** [_create_question_title_mapping] *)
Definition _create_question_title_mapping (s : Survey) : Survey :=
  let st := questions_by_id s in
  set_titles
    (fold_left (fun m q => dict_set String.eqb (title st q) q m) (keys st) [])
    s.

(** The first loop of [_load_questions]: one [Question] per record, stored
    under its question id. *)
Definition index_questions (raws : list RawQuestion) : store :=
  fold_left (fun st q =>
               let question := Question_init q in
               dict_set Z.eqb (question_id question) question st)
            raws [].

(** [_load_questions], on the list returned by [list_questions]. *)
Definition _load_questions (raws : list RawQuestion) : Survey :=
  let s := {| questions_by_id := index_questions raws;
              questions_by_title := [];
              question_groups_by_key := [] |} in
  let s := _process_question_relationships s in
  _create_question_title_mapping s.

End Survey.

(* ===================================================================== *)
(** ** lime.py: the session and the API client *)
(* ===================================================================== *)

Module Lime.

(** *** What the client talks to

    A request as it leaves through the proxy: where it goes, the method and
    the named parameters. *)
Record Request : Type := {
  endpoint : string;
  method : string;
  params : list (string * pyval)
}.

(** The [tinyrpc] objects held by the client. *)
Record RPCClient : Type := {
  client_endpoint : string;
  client_headers : list (string * string)
}.

Record RPCProxy : Type := { proxy_client : RPCClient }.

Record LimeAPI : Type := {
  url : string;
  username : string;
  password : string;
  headers : list (string * string);
  session_key : pyval;
  rpc_client : option RPCClient;
  rpc_proxy : option RPCProxy;
  _authenticated : bool
}.

(** What lives outside the instance: the class attribute
    [_rpc_protocol_patched] and the requests sent so far. *)
Record World : Type := {
  _rpc_protocol_patched : bool;
  sent : list Request
}.

Definition _default_headers : list (string * string) :=
  [("content-type", "application/json"); ("connection", "Keep-Alive")].

(** *** State and exceptions

    A method runs on the instance and the world, and returns or raises;
    what it changed before raising stays changed. *)
Definition M (A : Type) : Type := LimeAPI -> World -> result A * LimeAPI * World.

Definition ret {A} (a : A) : M A := fun api w => (Ok a, api, w).
Definition raise {A} (e : exn) : M A := fun api w => (Raise e, api, w).
Definition lift {A} (r : result A) : M A := fun api w => (r, api, w).

Definition bindM {A B} (c : M A) (f : A -> M B) : M B :=
  fun api w =>
    match c api w with
    | (Ok a, api', w') => f a api' w'
    | (Raise e, api', w') => (Raise e, api', w')
    end.

(** [try: c  except Exception as e: ...]: the outcome as a value. *)
Definition try_except {A} (c : M A) : M (result A) :=
  fun api w =>
    match c api w with
    | (r, api', w') => (Ok r, api', w')
    end.

Definition get_api : M LimeAPI := fun api w => (Ok api, api, w).
Definition get_world : M World := fun api w => (Ok w, api, w).
Definition modify_api (f : LimeAPI -> LimeAPI) : M unit :=
  fun api w => (Ok tt, f api, w).
Definition modify_world (f : World -> World) : M unit :=
  fun api w => (Ok tt, api, f w).

Notation "x <~ c1 ;; c2" := (bindM c1 (fun x => c2))
  (at level 61, c1 at next level, right associativity).
Notation "c1 ;;; c2" := (bindM c1 (fun _ => c2))
  (at level 61, right associativity).

Definition set_session_key (k : pyval) (a : LimeAPI) : LimeAPI :=
  {| url := url a; username := username a; password := password a;
     headers := headers a; session_key := k; rpc_client := rpc_client a;
     rpc_proxy := rpc_proxy a; _authenticated := _authenticated a |}.

Definition set_rpc_client (c : option RPCClient) (a : LimeAPI) : LimeAPI :=
  {| url := url a; username := username a; password := password a;
     headers := headers a; session_key := session_key a; rpc_client := c;
     rpc_proxy := rpc_proxy a; _authenticated := _authenticated a |}.

Definition set_rpc_proxy (p : option RPCProxy) (a : LimeAPI) : LimeAPI :=
  {| url := url a; username := username a; password := password a;
     headers := headers a; session_key := session_key a;
     rpc_client := rpc_client a; rpc_proxy := p;
     _authenticated := _authenticated a |}.

Definition set_authenticated (b : bool) (a : LimeAPI) : LimeAPI :=
  {| url := url a; username := username a; password := password a;
     headers := headers a; session_key := session_key a;
     rpc_client := rpc_client a; rpc_proxy := rpc_proxy a;
     _authenticated := b |}.

Definition set_patched (b : bool) (w : World) : World :=
  {| _rpc_protocol_patched := b; sent := sent w |}.

Definition record_request (r : Request) (w : World) : World :=
  {| _rpc_protocol_patched := _rpc_protocol_patched w;
     sent := (sent w ++ [r])%list |}.

(** [s.rstrip("/")] *)
Fixpoint rstrip_slash (s : string) : string :=
  match s with
  | EmptyString => EmptyString
  | String c s' =>
      match rstrip_slash s' with
      | EmptyString => if Ascii.eqb c "/" then EmptyString else String c EmptyString
      | r => String c r
      end
  end.

(** [remote_api_url] *)
Definition remote_api_url (a : LimeAPI) : string :=
  rstrip_slash (url a) ++ "/" ++ "/index.php/admin/remotecontrol".

(** [_validate_settings] and [__init__]: a missing setting is [None]. *)
Definition LimeAPI_init (url_ username_ password_ : option string)
    (headers_ : option (list (string * string))) : result LimeAPI :=
  match url_, username_, password_ with
  | Some u, Some n, Some p =>
      Ok {| url := u; username := n; password := p;
            headers := match headers_ with
                       | None => _default_headers
                       | Some h => h
                       end;
            session_key := PyNone; rpc_client := None; rpc_proxy := None;
            _authenticated := false |}
  | _, _, _ => Raise EnvironmentError
  end.

(** [_validate_rpc_resources]: both handles are instances of their class. *)
Definition _validate_rpc_resources (a : LimeAPI) : bool :=
  match rpc_client a with
  | None => false
  | Some _ =>
      match rpc_proxy a with
      | None => false
      | Some _ => true
      end
  end.

(** [_validate_session_key] *)
Definition _validate_session_key (a : LimeAPI) : bool :=
  if is_none (session_key a) then false
  else if negb (is_str (session_key a)) then false
  else match session_key a with
       | PyStr s => if Nat.eqb (String.length s) 0 then false else true
       | _ => true
       end.

(** *** JSON values as Python sees them *)

(** [v[k]] for a string [k] *)
Definition getitem (v : pyval) (k : string) : result pyval :=
  match v with
  | PyDict d =>
      match dict_get String.eqb k d with
      | Some x => Ok x
      | None => Raise (KeyError k)
      end
  | _ => Raise TypeError
  end.

(** [k in v] for a dictionary [v] *)
Definition contains (v : pyval) (k : string) : bool :=
  match v with
  | PyDict d => dict_mem String.eqb k d
  | _ => false
  end.

Fixpoint chars (s : string) : list pyval :=
  match s with
  | EmptyString => []
  | String c s' => PyStr (String c EmptyString) :: chars s'
  end.

(** [for x in v] *)
Definition py_iter (v : pyval) : result (list pyval) :=
  match v with
  | PyList l => Ok l
  | PyDict d => Ok (map (fun kv => PyStr (fst kv)) d)
  | PyStr s => Ok (chars s)
  | _ => Raise TypeError
  end.

(** [v.values()] *)
Definition py_values (v : pyval) : result (list pyval) :=
  match v with
  | PyDict d => Ok (values d)
  | _ => Raise (AttributeError "values")
  end.

(** [v.keys()] *)
Definition py_keys (v : pyval) : result (list string) :=
  match v with
  | PyDict d => Ok (keys d)
  | _ => Raise (AttributeError "keys")
  end.

(** *** The protocol adapter *)

(** Modelled from the spec: the allow-list [_ALLOWED_REPLY_KEYS] of
    tinyrpc's [JSONRPCProtocol], which the patched method reads from the
    protocol instance; the spec gives it as {id, result, error, jsonrpc}. *)
Definition _ALLOWED_REPLY_KEYS : list string :=
  ["error"; "id"; "jsonrpc"; "result"].

Record JSONRPCErrorResponse : Type := {
  error : pyval;
  code : option Z;
  _jsonrpc_error_code : pyval;
  error_data : option pyval;
  error_unique_id : pyval
}.

Record JSONRPCSuccessResponse : Type := {
  result_ : pyval;
  unique_id : pyval
}.

Inductive JSONRPCResponse : Type :=
| Success (r : JSONRPCSuccessResponse)
| Error (r : JSONRPCErrorResponse).

Section Adapter.
(** Library functions, not part of the repository. *)
Variable json_loads : string -> result pyval.

(** [for k in rep.keys(): if not k in self._ALLOWED_REPLY_KEYS: raise] *)
Fixpoint check_keys (ks : list string) : result unit :=
  match ks with
  | [] => Ok tt
  | k :: ks' =>
      if negb (existsb (String.eqb k) _ALLOWED_REPLY_KEYS)
      then Raise (InvalidReplyError (KeyNotAllowed k))
      else check_keys ks'
  end.

(** [parse_reply_patched]. [data] is the text of the reply: for a reply
    received as [bytes], what [data.decode()] returned. That step is before
    the [try], and a reply that is not UTF-8 leaves the function with the
    [UnicodeDecodeError] of [decode]; it is not modelled here. *)
Definition parse_reply_patched (data : string) : result JSONRPCResponse :=
  rep <- match json_loads data with
         | Ok v => Ok v
         | Raise _ => Raise (InvalidReplyError NotJSON)
         end ;;
  ks <- py_keys rep ;;
  _ <- check_keys ks ;;
  if negb (contains rep "id") then Raise (InvalidReplyError MissingId)
  else
    has_error <-
      (if contains rep "error" then
         e <- getitem rep "error" ;; Ok (negb (is_none e))
       else Ok false) ;;
    if has_error : bool then
      error_ <- getitem rep "error" ;;
      response <-
        (if is_str error_ then
           Ok (fun i => {| error := error_; code := Some (-1);
                           _jsonrpc_error_code := PyInt (-1);
                           error_data := None; error_unique_id := i |})
         else
           message <- getitem error_ "message" ;;
           c <- getitem error_ "code" ;;
           d <- (if contains error_ "data" then
                   x <- getitem error_ "data" ;; Ok (Some x)
                 else Ok None) ;;
           Ok (fun i => {| error := message; code := None;
                           _jsonrpc_error_code := c;
                           error_data := d; error_unique_id := i |})) ;;
      i <- getitem rep "id" ;;
      Ok (Error (response i))
    else
      let r := match getitem rep "result" with
               | Ok v => v
               | Raise _ => PyNone
               end in
      i <- getitem rep "id" ;;
      Ok (Success {| result_ := r; unique_id := i |}).
End Adapter.

(** *** The client *)
Section Client.
(** The remote side: what a call through the proxy returns or raises,
    given the requests sent before it. *)
Variable server : list Request -> Request -> result pyval.
(** Library functions, not part of the repository: [base64.b64decode],
    [bytes.decode("utf-8")], [json.loads] and [str] in an f-string. *)
Variable b64decode : pyval -> result string.
Variable decode_utf8 : string -> result string.
Variable json_loads : string -> result pyval.
Variable py_str : pyval -> string.

(** [self.rpc_proxy.method(...)] with named parameters *)
Definition proxy_call (method_ : string) (params_ : list (string * pyval))
  : M pyval :=
  a <~ get_api ;;
  match rpc_proxy a with
  | None => raise (AttributeError method_)
  | Some p =>
      w <~ get_world ;;
      let req := {| endpoint := client_endpoint (proxy_client p);
                    method := method_; params := params_ |} in
      modify_world (record_request req) ;;;
      lift (server (sent w) req)
  end.

(** [authenticate] *)
Definition authenticate : M unit :=
  w <~ get_world ;;
  (if negb (_rpc_protocol_patched w)
   then modify_world (set_patched true)
   else ret tt) ;;;
  a <~ get_api ;;
  let client := {| client_endpoint := remote_api_url a;
                   client_headers := headers a |} in
  modify_api (set_rpc_client (Some client)) ;;;
  modify_api (set_rpc_proxy (Some {| proxy_client := client |})) ;;;
  k <~ proxy_call "get_session_key"
         [("username", PyStr (username a)); ("password", PyStr (password a))] ;;
  modify_api (set_session_key k) ;;;
  a <~ get_api ;;
  if negb (_validate_session_key a) then
    raise (Exception ("Failed to validate session key: url=" ++ url a
                      ++ " session_key=" ++ py_str (session_key a)))
  else modify_api (set_authenticated true).

(** [_validate_auth] *)
Definition _validate_auth : M unit :=
  a <~ get_api ;;
  if negb (_authenticated a) then authenticate
  else if negb (_validate_session_key a) then authenticate
  else if negb (_validate_rpc_resources a) then authenticate
  else ret tt.

(** [request_ctx]: the block [body] runs where the generator yields.
    [if error: raise error] tests the truth value of what was caught; the
    values of [exn] stand for instances of the built-in exception classes
    and of jsonrpc's, none of which defines [__bool__] or [__len__], so
    each of them is true there and is raised again. An exception class of
    a caller's own that is false in a condition is outside this model. *)
Definition request_ctx {A} (endpoint_ : string) (body : M A) : M A :=
  r <~ try_except (_validate_auth ;;; body) ;;
  match r with
  | Raise error_ => raise error_
  | Ok v => ret v
  end.

(** [x or y] on an optional string *)
Definition or_else (x : option string) (y : string) : string :=
  match x with
  | Some (String c s) => String c s
  | _ => y
  end.

Definition opt_str (x : option string) : pyval :=
  match x with
  | Some s => PyStr s
  | None => PyNone
  end.

Definition opt_int (x : option Z) : pyval :=
  match x with
  | Some z => PyInt z
  | None => PyNone
  end.

(** [list_surveys] *)
Definition list_surveys (username_ : option string) : M pyval :=
  request_ctx "list_surveys"
    (a <~ get_api ;;
     proxy_call "list_surveys"
       [("sSessionKey", session_key a);
        ("sUser", PyStr (or_else username_ (username a)))]).

(** [list_questions] *)
Definition list_questions (survey_id : Z) (group_id : option Z)
    (language : option string) : M pyval :=
  request_ctx "list_questions"
    (a <~ get_api ;;
     proxy_call "list_questions"
       [("sSessionKey", session_key a); ("iSurveyID", PyInt survey_id);
        ("iGroupId", opt_int group_id); ("sLanguage", opt_str language)]).

(** [get_language_properties] *)
Definition get_language_properties (survey_id : Z) : M pyval :=
  request_ctx "get_language_properties"
    (a <~ get_api ;;
     proxy_call "get_language_properties"
       [("sSessionKey", session_key a); ("iSurveyID", PyInt survey_id);
        ("aSurveyLocaleSettings", PyNone); ("sLang", PyNone)]).

(** [get_survey_properties] *)
Definition get_survey_properties (survey_id : Z) : M pyval :=
  request_ctx "get_survey_properties"
    (a <~ get_api ;;
     proxy_call "get_survey_properties"
       [("sSessionKey", session_key a); ("iSurveyID", PyInt survey_id);
        ("aSurveyLocaleSettings", PyNone); ("sLang", PyNone)]).

(** The rows of the decoded document:
    [for id_survey_map in result_json:
       for survey in id_survey_map.values(): rows.append(survey)] *)
Definition collect_rows (result_json : pyval) : result (list pyval) :=
  items <- py_iter result_json ;;
  foldM (fun rows id_survey_map =>
           vs <- py_values id_survey_map ;; Ok (rows ++ vs)%list)
        items [].

(** The named parameters of the [export_responses] call. *)
Definition export_params (a : LimeAPI) (survey_id : Z)
    (language_code : option string)
    (completion_status heading_type response_type : string)
    (from_response_id to_response_id : option Z) (fields : pyval)
  : list (string * pyval) :=
  [("sSessionKey", session_key a);
   ("iSurveyID", PyInt survey_id);
   ("sDocumentType", PyStr "json");
   ("sLanguageCode", opt_str language_code);
   ("sCompletionStatus", PyStr completion_status);
   ("sHeadingType", PyStr heading_type);
   ("sResponseType", PyStr response_type);
   ("iFromResponseID", opt_int from_response_id);
   ("iToResponseID", opt_int to_response_id);
   ("aFields", fields)].

(** [export_responses] *)
Definition export_responses (survey_id : Z) (language_code : option string)
    (completion_status heading_type response_type : string)
    (from_response_id to_response_id : option Z) (fields : pyval)
  : M (list pyval) :=
  request_ctx "get_survey_properties"
    (let _completion_statuses := ["complete"; "incomplete"; "all"] in
     let _heading_types := ["code"; "full"; "abbreviated"] in
     let _response_types := ["short"; "long"] in
     a <~ get_api ;;
     result_b64 <~ proxy_call "export_responses"
       (export_params a survey_id language_code completion_status
          heading_type response_type from_response_id to_response_id
          fields) ;;
     bytes <~ lift (b64decode result_b64) ;;
     result_utf8 <~ lift (decode_utf8 bytes) ;;
     result_json <~ lift (json_loads result_utf8) ;;
     result_json <~ lift (getitem result_json "responses") ;;
     lift (collect_rows result_json)).
End Client.

End Lime.

(* ===================================================================== *)
(** ** The specification's wording, for comparison with the code *)
(* ===================================================================== *)

Module Spec.

(** Text cleaning, as the specification words it: every newline, tab and
    carriage return becomes a space; the span from the first ["<"] to the
    last [">"] becomes one space; every run of spaces becomes one space. *)
Definition is_blank (c : ascii) : bool :=
  Ascii.eqb c Re.newline || Ascii.eqb c Re.tab || Ascii.eqb c Re.carriage_return.

Fixpoint blanks_to_spaces (s : string) : string :=
  match s with
  | EmptyString => EmptyString
  | String c s' => String (if is_blank c then " "%char else c) (blanks_to_spaces s')
  end.

(** The text before the first [c] and the text after it. *)
Fixpoint split_first (c : ascii) (s : string) : option (string * string) :=
  match s with
  | EmptyString => None
  | String a s' =>
      if Ascii.eqb a c then Some (EmptyString, s')
      else match split_first c s' with
           | Some (before, after) => Some (String a before, after)
           | None => None
           end
  end.

(** The text after the last [c]. *)
Fixpoint after_last (c : ascii) (s : string) : option string :=
  match s with
  | EmptyString => None
  | String a s' =>
      match after_last c s' with
      | Some r => Some r
      | None => if Ascii.eqb a c then Some s' else None
      end
  end.

Definition collapse_tag_span (s : string) : string :=
  match split_first "<" s with
  | Some (before, inside) =>
      match after_last ">" inside with
      | Some after => before ++ " " ++ after
      | None => s
      end
  | None => s
  end.

Fixpoint squeeze_spaces (s : string) : string :=
  match s with
  | EmptyString => EmptyString
  | String c s' =>
      if Ascii.eqb c " " then
        match s' with
        | String " " _ => squeeze_spaces s'
        | _ => String " " (squeeze_spaces s')
        end
      else String c (squeeze_spaces s')
  end.

Definition clean (text : string) : string :=
  squeeze_spaces (collapse_tag_span (blanks_to_spaces text)).

(** The aggregated value of a group, as the specification words it: the
    cleaned texts of the children whose answer is not ["N/A"], sorted, then
    the "other" answer unless its key is absent or it is the string
    ["None"]. [answers] is the response's [get_answer]. *)
Section GroupValue.
Import Question.
Variables (st : store) (g : QuestionGroup)
          (answers : answer_key -> result pyval).

Definition selected (sq : ref) : bool :=
  match answers (ForQuestion sq) with
  | Ok v => negb (eq_str v "N/A")
  | Raise _ => false
  end.

Definition selected_texts : list string :=
  map (fun sq => text (deref st sq))
      (filter selected (values (child_items st g))).

Definition other_key : answer_key :=
  ForTitle (title st (group_parent g) ++ "[other]").



(** "appended last if present and non-empty/non-null" *)
Definition other_is_text : bool :=
  match answers other_key with
  | Ok (PyStr EmptyString) => false
  | Ok PyNone => false
  | Ok _ => true
  | Raise _ => false
  end.
End GroupValue.

(** The display titles a question can show while the hierarchy is built:
    its own title, and its title in brackets after its parent's when its
    [parent_qid] is the id of a loaded question. *)
Section Titles.
Import Question.
Variable st : store.

Definition possible_titles (q : ref) : list string :=
  let x := deref st q in
  _title x ::
  (if dict_mem Z.eqb (parent_qid x) st
   then [_title (deref st (parent_qid x)) ++ "[" ++ _title x ++ "]"]
   else []).

(** Some loaded question names [p] as its parent. *)
Definition is_parent (p : ref) : bool :=
  existsb (fun c => Z.eqb (parent_qid (deref st c)) p) (keys st).

Definition distinct_titles (p p' : ref) : bool :=
  forallb (fun t => negb (existsb (String.eqb t) (possible_titles p')))
          (possible_titles p).

(** No two parents can show the same display title. *)
Definition unambiguous : bool :=
  forallb (fun p =>
    forallb (fun p' =>
               Z.eqb p p' || negb (is_parent p && is_parent p')
               || distinct_titles p p')
            (keys st))
    (keys st).
End Titles.

Definition unambiguous_titles (raws : list Question.RawQuestion) : bool :=
  unambiguous (Survey.index_questions raws).

(** A session that is already valid: authenticated, with a non-empty
    string as token, and with both handles present. *)
Definition valid_session (a : Lime.LimeAPI) : Prop :=
  Lime._authenticated a = true
  /\ (exists c k, Lime.session_key a = PyStr (String c k))
  /\ Lime.rpc_client a <> None
  /\ Lime.rpc_proxy a <> None.

(** An authentication round trip is a [get_session_key] request. *)
Definition auth_round_trips (w : Lime.World) : nat :=
  length (filter (fun r => String.eqb (Lime.method r) "get_session_key")
                 (Lime.sent w)).

(** The values accepted for the three enumerated parameters of
    [export_responses]. *)
Definition valid_export_parameters
    (completion_status heading_type response_type : string) : bool :=
  existsb (String.eqb completion_status) ["complete"; "incomplete"; "all"]
  && existsb (String.eqb heading_type) ["code"; "full"; "abbreviated"]
  && existsb (String.eqb response_type) ["short"; "long"].

End Spec.

(* ===================================================================== *)
(** ** Concrete data used in the examples *)
(* ===================================================================== *)

Module Examples.
Import Question Survey.

Definition raw (i p : Z) (t q : string) : RawQuestion :=
  {| raw_qid := i; raw_sid := 7; raw_gid := 1; raw_type := "M";
     raw_title := t; raw_question := q; raw_parent_qid := p |}.

(** The three questions of the hierarchy example. *)
Definition three_questions : list RawQuestion :=
  [raw 1 0 "Q1" "Which?"; raw 2 1 "A" "Option A"; raw 3 1 "B" "Option B"].

Definition three : Survey := _load_questions three_questions.

Definition group_Q1 : QuestionGroup := {| group_parent := 1 |}.

(** A response class with [get_answer] reading the response data by title;
    a question is looked up under its display title. *)
Definition lookup_response (st : store) (d : dict string pyval) : Response :=
  {| response_data := d;
     get_answer_method :=
       Some (fun k =>
               let t := match k with
                        | ForQuestion sq => title st sq
                        | ForTitle t => t
                        end in
               match dict_get String.eqb t d with
               | Some v => Ok v
               | None => Raise (KeyError t)
               end) |}.

Definition answers_of (r : Response) : answer_key -> result pyval :=
  match get_answer_method r with
  | Some f => f
  | None => fun _ => Raise (AttributeError "get_answer")
  end.


(** The same with an empty "other" answer. *)
Definition response_empty_other : Response :=
  lookup_response (questions_by_id three)
    [("id", PyInt 2); ("Q1[A]", PyStr "N/A"); ("Q1[B]", PyStr "Yes");
     ("Q1[other]", PyStr EmptyString)].

(** The same with a free-text "other" answer. *)
Definition response_text_other : Response :=
  lookup_response (questions_by_id three)
    [("id", PyInt 3); ("Q1[A]", PyStr "N/A"); ("Q1[B]", PyStr "Yes");
     ("Q1[other]", PyStr "Another")].

(** Two parents with the same title, each with one child. *)
Definition same_title_parents : list RawQuestion :=
  [raw 1 0 "Q" "First"; raw 2 0 "Q" "Second";
   raw 3 1 "a" "Option a"; raw 4 2 "b" "Option b"].

Definition same_title : Survey := _load_questions same_title_parents.

(** *** Decoders for the examples

    The client takes [base64.b64decode], [bytes.decode] and [json.loads] as
    given. For the examples, a decoder of padded base64 over the standard
    alphabet, a decoder of ASCII text and a reader of JSON documents made of
    objects, arrays, strings without escapes, integers, [true], [false] and
    [null]; anything else is refused with [ValueError]. *)
Definition b64_value (c : ascii) : option N :=
  let n := N_of_ascii c in
  if (N.leb 65 n && N.leb n 90)%bool then Some (n - 65)%N
  else if (N.leb 97 n && N.leb n 122)%bool then Some (n - 71)%N
  else if (N.leb 48 n && N.leb n 57)%bool then Some (n + 4)%N
  else if N.eqb n 43 then Some 62%N
  else if N.eqb n 47 then Some 63%N
  else None.

Definition byte_str (n : N) (s : string) : string := String (ascii_of_N n) s.

Fixpoint b64_groups (s : string) : result string :=
  match s with
  | EmptyString => Ok EmptyString
  | String a (String b (String c (String d rest))) =>
      match b64_value a, b64_value b with
      | Some x, Some y =>
          let b1 := (x * 4 + y / 16)%N in
          if Ascii.eqb c "=" then
            if (Ascii.eqb d "=" && String.eqb rest EmptyString)%bool
            then Ok (byte_str b1 EmptyString) else Raise ValueError
          else
            match b64_value c with
            | Some z =>
                let b2 := ((y mod 16) * 16 + z / 4)%N in
                if Ascii.eqb d "=" then
                  if String.eqb rest EmptyString then Ok (byte_str b1 (byte_str b2 EmptyString))
                  else Raise ValueError
                else
                  match b64_value d with
                  | Some u =>
                      let b3 := ((z mod 4) * 64 + u)%N in
                      r <- b64_groups rest ;;
                      Ok (byte_str b1 (byte_str b2 (byte_str b3 r)))
                  | None => Raise ValueError
                  end
            | None => Raise ValueError
            end
      | _, _ => Raise ValueError
      end
  | _ => Raise ValueError
  end.

Definition b64decode (v : pyval) : result string :=
  match v with
  | PyStr s => b64_groups s
  | _ => Raise TypeError
  end.

Fixpoint all_ascii (s : string) : bool :=
  match s with
  | EmptyString => true
  | String c s' => (N.ltb (N_of_ascii c) 128 && all_ascii s')%bool
  end.

Definition decode_utf8 (s : string) : result string :=
  if all_ascii s then Ok s else Raise ValueError.

Definition quote : ascii := "034"%char.

Definition is_space (c : ascii) : bool :=
  (Ascii.eqb c " " || Ascii.eqb c Re.newline || Ascii.eqb c Re.tab
   || Ascii.eqb c Re.carriage_return)%bool.

Fixpoint skip_ws (s : string) : string :=
  match s with
  | String c s' => if is_space c then skip_ws s' else s
  | EmptyString => EmptyString
  end.

(** After an opening quote: the characters up to the closing quote. *)
Fixpoint read_string (s : string) : option (string * string) :=
  match s with
  | EmptyString => None
  | String c s' =>
      if Ascii.eqb c quote then Some (EmptyString, s')
      else if Ascii.eqb c "\" then None
      else match read_string s' with
           | Some (t, rest) => Some (String c t, rest)
           | None => None
           end
  end.

Definition digit (c : ascii) : option Z :=
  let n := N_of_ascii c in
  if (N.leb 48 n && N.leb n 57)%bool then Some (Z.of_N n - 48) else None.

Fixpoint read_digits (s : string) (acc : Z) : Z * string :=
  match s with
  | String c s' =>
      match digit c with
      | Some d => read_digits s' (10 * acc + d)
      | None => (acc, s)
      end
  | EmptyString => (acc, s)
  end.

Definition read_literal (lit : string) (v : pyval) (s : string)
  : option (pyval * string) :=
  if String.prefix lit s
  then Some (v, String.substring (String.length lit)
                                 (String.length s - String.length lit) s)
  else None.

Fixpoint read_value (fuel : nat) (s : string) : option (pyval * string) :=
  match fuel with
  | O => None
  | S n =>
      match skip_ws s with
      | String c rest =>
          if Ascii.eqb c "{" then
            match skip_ws rest with
            | String "}" rest' => Some (PyDict [], rest')
            | _ => read_members n rest []
            end
          else if Ascii.eqb c "[" then
            match skip_ws rest with
            | String "]" rest' => Some (PyList [], rest')
            | _ => read_elements n rest []
            end
          else if Ascii.eqb c quote then
            match read_string rest with
            | Some (t, rest') => Some (PyStr t, rest')
            | None => None
            end
          else if Ascii.eqb c "-" then
            match rest with
            | String d _ =>
                match digit d with
                | Some _ => let (z, rest') := read_digits rest 0 in
                            Some (PyInt (- z), rest')
                | None => None
                end
            | EmptyString => None
            end
          else
            match digit c with
            | Some _ => let (z, rest') := read_digits (String c rest) 0 in
                        Some (PyInt z, rest')
            | None =>
                match read_literal "true" (PyBool true) (String c rest) with
                | Some r => Some r
                | None =>
                    match read_literal "false" (PyBool false) (String c rest) with
                    | Some r => Some r
                    | None => read_literal "null" PyNone (String c rest)
                    end
                end
            end
      | EmptyString => None
      end
  end
with read_members (fuel : nat) (s : string) (acc : dict string pyval)
  : option (pyval * string) :=
  match fuel with
  | O => None
  | S n =>
      match skip_ws s with
      | String c rest =>
          if Ascii.eqb c quote then
            match read_string rest with
            | Some (k, rest1) =>
                match skip_ws rest1 with
                | String ":" rest2 =>
                    match read_value n rest2 with
                    | Some (v, rest3) =>
                        let acc := dict_set String.eqb k v acc in
                        match skip_ws rest3 with
                        | String "," rest4 => read_members n rest4 acc
                        | String "}" rest4 => Some (PyDict acc, rest4)
                        | _ => None
                        end
                    | None => None
                    end
                | _ => None
                end
            | None => None
            end
          else None
      | EmptyString => None
      end
  end
with read_elements (fuel : nat) (s : string) (acc : list pyval)
  : option (pyval * string) :=
  match fuel with
  | O => None
  | S n =>
      match read_value n s with
      | Some (v, rest) =>
          match skip_ws rest with
          | String "," rest' => read_elements n rest' (acc ++ [v])%list
          | String "]" rest' => Some (PyList (acc ++ [v])%list, rest')
          | _ => None
          end
      | None => None
      end
  end.

Definition json_loads (s : string) : result pyval :=
  match read_value (S (String.length s)) s with
  | Some (v, rest) =>
      match skip_ws rest with
      | EmptyString => Ok v
      | _ => Raise ValueError
      end
  | None => Raise ValueError
  end.

Definition py_str (v : pyval) : string :=
  match v with
  | PyNone => "None"
  | PyStr s => s
  | PyBool true => "True"
  | PyBool false => "False"
  | _ => "..."
  end.

(** The document of the specification's example, base64-encoded:
    two responses, each wrapped under its id. *)
Definition responses_b64 : string :=
  "eyJyZXNwb25zZXMiOlt7IjEiOnsiaWQiOjEsInExIjoieCJ9fSx7IjIiOnsiaWQiOjIsInExIjoieSJ9fV19".

(** A server that hands out the session key "k3y" and answers
    [export_responses] with that document. *)
Definition server (_ : list Lime.Request) (r : Lime.Request) : result pyval :=
  if String.eqb (Lime.method r) "get_session_key" then Ok (PyStr "k3y")
  else if String.eqb (Lime.method r) "export_responses" then Ok (PyStr responses_b64)
  else Ok PyNone.

Definition fresh_world : Lime.World :=
  {| Lime._rpc_protocol_patched := false; Lime.sent := [] |}.

Definition client : Lime.LimeAPI :=
  {| Lime.url := "https://lime.example/"; Lime.username := "admin";
     Lime.password := "secret"; Lime.headers := Lime._default_headers;
     Lime.session_key := PyNone; Lime.rpc_client := None;
     Lime.rpc_proxy := None; Lime._authenticated := false |}.

Definition export (completion_status heading_type response_type : string)
  : Lime.M (list pyval) :=
  Lime.export_responses server b64decode decode_utf8 json_loads py_str
    42 None completion_status heading_type response_type None None PyNone.

Definition qd (s : string) : string :=
  String quote s ++ String quote EmptyString.

(** [{"id":1,"error":"bad creds"}] *)
Definition bad_creds_reply : string :=
  "{" ++ qd "id" ++ ":1," ++ qd "error" ++ ":" ++ qd "bad creds" ++ "}".

(** [{"id":1,"error":"bad creds","debug":0}] *)
Definition bad_creds_reply_extra : string :=
  "{" ++ qd "id" ++ ":1," ++ qd "error" ++ ":" ++ qd "bad creds" ++ ","
  ++ qd "debug" ++ ":0}".

(** The session the example client holds after its first call. *)
Definition session_after_export : Lime.LimeAPI * Lime.World :=
  let r := export "all" "code" "long" client fresh_world in
  (snd (fst r), snd r).

End Examples.

(* ===================================================================== *)
(** ** Notions used to state and prove the properties *)
(* ===================================================================== *)

Module Notions.
Import Re Question Survey.

(** [c] occurs in [s]. *)
Fixpoint occurs (c : ascii) (s : string) : bool :=
  match s with
  | EmptyString => false
  | String a s' => Ascii.eqb a c || occurs c s'
  end.

(** What follows [.*] in the tag pattern. *)
Definition close_tag : string -> option string := match_here [One (Lit ">")].

(** The tag pattern [<.*>]. *)
Definition tag : regex := [One (Lit "<"); Star AnyChar; One (Lit ">")].

(** [s] without its leading spaces. *)
Fixpoint drop_spaces (s : string) : string :=
  match s with
  | String a s' => if Ascii.eqb a " " then drop_spaces s' else s
  | EmptyString => EmptyString
  end.

(** Lexicographic order, as [sorted] compares strings. *)
Definition le_str (a b : string) : Prop := String.leb a b = true.


(** Every parent link points at the loaded question named by [parent_qid]. *)
Definition parents_ok (st : store) : Prop :=
  forall k, parent (deref st k) = None
            \/ (parent (deref st k) = Some (parent_qid (deref st k))
                /\ dict_mem Z.eqb (parent_qid (deref st k)) st = true).

(** Every value of a [children] dictionary is a loaded question. *)
Definition children_ok (st : store) : Prop :=
  forall k c c', In (c, c') (children (deref st k)) -> dict_mem Z.eqb c' st = true.

(** Every group is stored under a title its parent can show, and its parent
    is a loaded question that has children. *)
Definition groups_ok (s : Survey) : Prop :=
  forall t g, In (t, g) (question_groups_by_key s) ->
    dict_mem Z.eqb (group_parent g) (questions_by_id s) = true
    /\ has_children (deref (questions_by_id s) (group_parent g)) = true
    /\ In t (Spec.possible_titles (questions_by_id s) (group_parent g))
    /\ Spec.is_parent (questions_by_id s) (group_parent g) = true.

(** Every question with children is the parent of a group. *)
Definition parents_grouped (s : Survey) : Prop :=
  forall q, has_children (deref (questions_by_id s) q) = true ->
    exists t g, In (t, g) (question_groups_by_key s) /\ group_parent g = q.

Definition Unambiguous (st : store) : Prop :=
  forall p p' t,
    dict_mem Z.eqb p st = true -> dict_mem Z.eqb p' st = true ->
    Spec.is_parent st p = true -> Spec.is_parent st p' = true ->
    In t (Spec.possible_titles st p) -> In t (Spec.possible_titles st p') ->
    p = p'.

Record hierarchy_ok (s : Survey) : Prop := {
  ok_parents : parents_ok (questions_by_id s);
  ok_children : children_ok (questions_by_id s);
  ok_groups : groups_ok s
}.

(** Freshly loaded questions have no parent and no children. *)
Definition unlinked (st : store) : Prop :=
  forall k, parent (deref st k) = None /\ children (deref st k) = [].

End Notions.

(* ===================================================================== *)
(** ** Requests and session states named in the properties of the client *)
(* ===================================================================== *)

Module Requests.
Import Lime.

(** The handles [authenticate] installs. *)
Definition new_client (a : LimeAPI) : RPCClient :=
  {| client_endpoint := remote_api_url a; client_headers := headers a |}.

Definition with_handles (a : LimeAPI) : LimeAPI :=
  set_rpc_proxy (Some {| proxy_client := new_client a |})
    (set_rpc_client (Some (new_client a)) a).

(** The [get_session_key] request of [authenticate]. *)
Definition auth_request (a : LimeAPI) : Request :=
  {| endpoint := remote_api_url a;
     method := "get_session_key";
     params := [("username", PyStr (username a));
                ("password", PyStr (password a))] |}.

(** The world once [authenticate] has patched the protocol and sent its
    request. *)
Definition after_auth_request (a : LimeAPI) (w : World) : World :=
  record_request (auth_request a) (set_patched true w).

(** The request a method of the client sends through the proxy [p]. *)
Definition request_via (p : RPCProxy) (m : string) (ps : list (string * pyval))
  : Request :=
  {| endpoint := client_endpoint (proxy_client p); method := m; params := ps |}.

(** A token that [_validate_session_key] accepts is a non-empty string. *)
Definition good_key (v : pyval) : bool :=
  match v with
  | PyStr (String _ _) => true
  | _ => false
  end.

(** The message of the exception [authenticate] raises on a bad token. *)
Definition bad_key_message (py_str : pyval -> string) (a : LimeAPI) (v : pyval)
  : string :=
  "Failed to validate session key: url=" ++ url a ++ " session_key=" ++ py_str v.

(** What [export_responses] does with the answer of the server: base64,
    UTF-8, JSON, the "responses" entry, and the rows. *)
Definition decode_document
    (b64decode : pyval -> result string)
    (decode_utf8 : string -> result string)
    (json_loads : string -> result pyval) (doc : pyval) : result pyval :=
  bytes <- b64decode doc ;;
  result_utf8 <- decode_utf8 bytes ;;
  json_loads result_utf8.

Definition is_dict (v : pyval) : bool :=
  match v with
  | PyDict _ => true
  | _ => false
  end.

(** [rep.get(k, None)] *)
Definition get_or_none (rep : dict string pyval) (k : string) : pyval :=
  match dict_get String.eqb k rep with
  | Some v => v
  | None => PyNone
  end.

Definition allowed_key (k : string) : bool :=
  existsb (String.eqb k) _ALLOWED_REPLY_KEYS.

End Requests.

(* ===================================================================== *)
(** ** More concrete data for the examples *)
(* ===================================================================== *)

Module MoreExamples.
Import Lime.

(** A server that refuses the credentials the way LimeSurvey does: the
    answer to [get_session_key] is a mapping with a status, not a token. *)
Definition refusing_server (_ : list Request) (r : Request) : result pyval :=
  Ok (PyDict [("status", PyStr "Invalid user name or password")]).

(** A server that cannot be reached. *)
Definition dead_server (_ : list Request) (r : Request) : result pyval :=
  Raise (RPCError "connection refused").

(** The example client once it holds a session. *)
Definition session : LimeAPI := fst Examples.session_after_export.
Definition session_world : World := snd Examples.session_after_export.



End MoreExamples.

(* ===================================================================== *)
(** ** Notions used to state the properties of the hierarchy *)
(* ===================================================================== *)

Module Linking.
Import Question Survey.

(** The parent id a loaded record names. *)
Definition named_parent (st : store) (q : ref) : Z := parent_qid (deref st q).

(** The loaded questions of [l] that name [p] as their parent. *)
Definition naming (st : store) (p : ref) (l : list ref) : list ref :=
  filter (fun q => Z.eqb (named_parent st q) p) l.

(** A [children] dictionary holding the questions of [l], each under its
    own id. *)
Definition by_own_id (l : list ref) : dict ref ref := map (fun q => (q, q)) l.

(** The store [st] is the freshly indexed store [st0] with the questions of
    [done] linked to their parents. *)
Record linked (st0 : store) (done : list ref) (st : store) : Prop := {
  lk_mem : forall k, dict_mem Z.eqb k st = dict_mem Z.eqb k st0;
  lk_data : forall k, data (deref st k) = data (deref st0 k);
  lk_parent : forall q,
    parent (deref st q)
    = if existsb (Z.eqb q) done && dict_mem Z.eqb (named_parent st0 q) st0
      then Some (named_parent st0 q) else None;
  lk_children : forall p,
    dict_mem Z.eqb p st0 = true ->
    children (deref st p) = by_own_id (naming st0 p done)
}.

(** The last record of [raws] with question id [k]. *)
Definition last_record (k : Z) (raws : list RawQuestion) : option RawQuestion :=
  find (fun r => Z.eqb (raw_qid r) k) (rev raws).

(** The display titles of the loaded questions are pairwise distinct. *)
Definition distinct_display_titles (st : store) : Prop :=
  forall q q', dict_mem Z.eqb q st = true -> dict_mem Z.eqb q' st = true ->
               title st q = title st q' -> q = q'.

End Linking.

(* ===================================================================== *)
(** ** Notions used to state the properties of cleaned text *)
(* ===================================================================== *)

Module Cleaning.

(** [s] holds a newline, a tab or a carriage return. *)
Definition has_blank (s : string) : bool :=
  Notions.occurs Re.newline s || Notions.occurs Re.tab s
  || Notions.occurs Re.carriage_return s.

(** [s] holds two spaces in a row. *)
Fixpoint double_space (s : string) : bool :=
  match s with
  | String a (String b _ as s') =>
      (Ascii.eqb a " " && Ascii.eqb b " ") || double_space s'
  | _ => false
  end.

(** No [">"] comes after the first ["<"] of [s]: the tag pattern matches
    nowhere. *)
Fixpoint tagfree (s : string) : bool :=
  match s with
  | EmptyString => true
  | String a s' =>
      if Ascii.eqb a "<" then negb (Notions.occurs ">" s') else tagfree s'
  end.

End Cleaning.

(* ===================================================================== *)
(** ** survey.py: title, file name and responses of a survey *)
(* ===================================================================== *)

Module SurveyInfo.
Import Question.

(** [str(n)] for an integer. *)
Definition int_str (n : Z) : string :=
  DecimalString.NilZero.string_of_int (Z.to_int n).

(** The attributes of a [Survey] read by [title] and [basename]: the title
    given to the constructor if any, the survey id, and the properties
    loaded from the server ([None] before they are loaded). *)
Record Info : Type := {
  _title : option string;
  survey_id : Z;
  survey_props : pyval
}.

(** [Survey.title]. The lookup in [survey_props] is an expression
    statement: when it succeeds, control leaves the [if] and reaches the
    last [return]; when it raises anything, the bare [except] returns the
    name made of the id. *)
Definition title (s : Info) : string :=
  match _title s with
  | None =>
      match Lime.getitem (survey_props s) "surveyls_title" with
      | Ok _ => "Survey"
      | Raise _ => "Survey " ++ int_str (survey_id s)
      end
  | Some t => t
  end.

(** [s.replace(' ', '-')] *)
Fixpoint replace_spaces (s : string) : string :=
  match s with
  | EmptyString => EmptyString
  | String c s' =>
      String (if Ascii.eqb c " " then "-"%char else c) (replace_spaces s')
  end.

(** [Survey.basename] *)
Definition basename (s : Info) : string :=
  int_str (survey_id s) ++ "-" ++ replace_spaces (title s).

(** *** Responses

    The keys of [responses_by_id] are the ids of the rows: [None], booleans,
    integers and strings can be keys, lists and mappings cannot; a boolean
    is the same key as the integer 0 or 1. *)
Definition hashable (v : pyval) : bool :=
  match v with
  | PyList _ | PyDict _ => false
  | _ => true
  end.

Definition as_key (v : pyval) : pyval :=
  match v with
  | PyBool b => PyInt (if b then 1 else 0)
  | _ => v
  end.

Definition scalar_eqb (a b : pyval) : bool :=
  match a, b with
  | PyNone, PyNone => true
  | PyBool x, PyBool y => Bool.eqb x y
  | PyInt x, PyInt y => Z.eqb x y
  | PyStr x, PyStr y => String.eqb x y
  | _, _ => false
  end.

Definition key_eqb (a b : pyval) : bool := scalar_eqb (as_key a) (as_key b).

(** [self.response_cls(r).id]: the row is subscripted with ["id"]. *)
Definition row_id (r : pyval) : result pyval :=
  match r with
  | PyDict d => response_id (Response_init d)
  | _ => Raise TypeError
  end.

(** The loop of [_load_responses] over the rows of [export_responses];
    what was stored before a row raises stays stored. *)
Fixpoint load_rows (rows : list pyval) (responses_by_id : dict pyval Response)
  : result unit * dict pyval Response :=
  match rows with
  | [] => (Ok tt, responses_by_id)
  | r :: rows' =>
      match r with
      | PyDict d =>
          let response := Response_init d in
          match response_id response with
          | Ok i =>
              if hashable i
              then load_rows rows' (dict_set key_eqb i response responses_by_id)
              else (Raise TypeError, responses_by_id)
          | Raise e => (Raise e, responses_by_id)
          end
      | _ => (Raise TypeError, responses_by_id)
      end
  end.

(** [_load_responses], on the rows returned by [export_responses]. *)
Definition _load_responses (rows : list pyval)
  : result unit * dict pyval Response :=
  load_rows rows [].

(** A row that can be stored: a mapping with an id that can be a key. *)
Definition storable (r : pyval) : bool :=
  match row_id r with
  | Ok i => hashable i
  | Raise _ => false
  end.

(** The last row of [rows] whose id is the key [i]. *)
Definition last_row (i : pyval) (rows : list pyval) : option pyval :=
  find (fun r => match row_id r with
                 | Ok j => key_eqb j i
                 | Raise _ => false
                 end) (rev rows).

Definition response_of (r : pyval) : Response :=
  match r with
  | PyDict d => Response_init d
  | _ => Response_init []
  end.

End SurveyInfo.

(* ===================================================================== *)
(** ** question.py: the rows of the "Questions" and "Question Groups" tables *)
(* ===================================================================== *)

Module Rows.
Import Question.

(** [Question.dict] *)
Record QuestionRow : Type := {
  row_title : string;
  row_qid : Z;
  row_sid : Z;
  row_gid : Z;
  row_type : string;
  row_text : string
}.

Definition question_dict (st : store) (q : ref) : QuestionRow :=
  let x := deref st q in
  {| row_title := title st q;
     row_qid := question_id x;
     row_sid := survey_id x;
     row_gid := group_id x;
     row_type := type x;
     row_text := text x |}.

(** [sorted(l, key=f)] for string keys: stable. *)
Fixpoint insert_by {A : Type} (f : A -> string) (x : A) (l : list A) : list A :=
  match l with
  | [] => [x]
  | y :: l' => if String.leb (f x) (f y) then x :: l else y :: insert_by f x l'
  end.

Definition sorted_by {A : Type} (f : A -> string) (l : list A) : list A :=
  fold_right (insert_by f) [] l.

(** [sep.join(l)] *)
Fixpoint join (sep : string) (l : list string) : string :=
  match l with
  | [] => EmptyString
  | [x] => x
  | x :: l' => x ++ sep ++ join sep l'
  end.

(** The "options" entry: a mapping from the ids of the children to their
    texts, or one string when flattened. *)
Inductive options : Type :=
| ByChild (d : dict ref string)
| Flat (s : string).

Record GroupRow : Type := {
  group_key : string;
  group_question : string;
  group_options : options
}.

(** One line of the flattened options: ["{q.title}) {q.text}"]. *)
Definition option_line (st : store) (q : ref) : string :=
  title st q ++ ") " ++ text (deref st q).

(** [QuestionGroup.dict] *)
Definition group_dict (st : store) (g : QuestionGroup) (flattened : bool)
  : GroupRow :=
  let by_child :=
    map (fun kv => (fst kv, text (deref st (snd kv)))) (child_items st g) in
  {| group_key := key st g;
     group_question := question_text st g;
     group_options :=
       if flattened
       then Flat (join (String Re.newline EmptyString)
                    (map (option_line st)
                       (sorted_by (title st) (values (child_items st g)))))
       else ByChild by_child |}.

(** The rows handed to the "Questions" table by [_question_dataframe]:
    the questions of [questions_by_title], sorted by title. *)
Definition question_rows (s : Survey.Survey) : list QuestionRow :=
  let st := Survey.questions_by_id s in
  let questions := values (Survey.questions_by_title s) in
  let questions := sorted_by (title st) questions in
  map (question_dict st) questions.

(** The rows handed to the "Question Groups" table by
    [_question_group_dataframe]: the groups sorted by key, flattened. *)
Definition question_group_rows (s : Survey.Survey) : list GroupRow :=
  let st := Survey.questions_by_id s in
  let question_groups := values (Survey.question_groups_by_key s) in
  let question_groups := sorted_by (key st) question_groups in
  map (fun qg => group_dict st qg true) question_groups.

(** How many times [c] occurs in [s]. *)
Fixpoint count (c : ascii) (s : string) : nat :=
  match s with
  | EmptyString => O
  | String a s' => ((if Ascii.eqb a c then 1 else 0) + count c s')%nat
  end.

(** The flattened options of a group row. *)
Definition flat_options (r : GroupRow) : string :=
  match group_options r with
  | Flat s => s
  | ByChild _ => EmptyString
  end.

End Rows.

(* ===================================================================== *)
(** * Properties *)
(* ===================================================================== *)

(** ** Text cleaning *)

Import Notions.

Section CleanText.
Import Re Spec.

Lemma neq_succ n : Nat.eqb n (S n) = false.
Proof. apply Nat.eqb_neq. lia. Qed.

(** First pass: the class of one character is a character-wise map. *)
Lemma sub_blanks n s :
  (String.length s < n)%nat ->
  sub_from n [One (OneOf [newline; tab; carriage_return])] " " s
  = blanks_to_spaces s.
Proof.
  revert s; induction n as [|n IH]; intros s Hn; [lia|].
  destruct s as [|a s]; [reflexivity|].
  simpl in Hn. cbn [sub_from match_here].
  assert (Hc : cls_match (OneOf [newline; tab; carriage_return]) a = is_blank a).
  { unfold cls_match, is_blank; simpl. now rewrite orb_false_r, orb_assoc. }
  rewrite Hc. cbn [blanks_to_spaces].
  destruct (is_blank a).
  - cbn [String.length]. rewrite neq_succ. simpl. f_equal. apply IH; lia.
  - f_equal. apply IH; lia.
Qed.

Lemma blanks_no_newline s : occurs newline (blanks_to_spaces s) = false.
Proof.
  induction s as [|a s IH]; [reflexivity|].
  cbn [blanks_to_spaces occurs]. rewrite IH, orb_false_r.
  unfold is_blank. destruct (Ascii.eqb a newline) eqn:E; simpl; [reflexivity|].
  destruct (Ascii.eqb a tab || Ascii.eqb a carriage_return); [reflexivity|exact E].
Qed.

(** Second pass: the tag pattern. *)
Lemma close_tag_eq s :
  close_tag s = match s with
                | String a s' => if Ascii.eqb a ">" then Some s' else None
                | EmptyString => None
                end.
Proof. destruct s; reflexivity. Qed.

(** Greedy [.*] followed by [>] stops at the last [>]. *)
Lemma star_any_close s :
  occurs newline s = false ->
  star AnyChar close_tag s = after_last ">" s.
Proof.
  induction s as [|a s IH]; intros Hnl; [reflexivity|].
  cbn [occurs] in Hnl. apply orb_false_iff in Hnl as [Ha Hs].
  cbn [star cls_match after_last]. rewrite Ha. cbn [negb].
  rewrite (IH Hs). destruct (after_last ">" s); [reflexivity|].
  rewrite close_tag_eq; reflexivity.
Qed.

Lemma after_last_none s : after_last ">" s = None <-> occurs ">" s = false.
Proof.
  induction s as [|a s IH]; [simpl; tauto|].
  cbn [after_last occurs]. destruct (after_last ">" s) eqn:E.
  - split; [discriminate|]. intros H. apply orb_false_iff in H as [_ H].
    apply IH in H. discriminate.
  - destruct IH as [IH _]. rewrite (IH eq_refl), orb_false_r.
    destruct (Ascii.eqb a ">"); split; congruence.
Qed.

Lemma after_last_some s r :
  after_last ">" s = Some r ->
  occurs ">" r = false /\ (String.length r < String.length s)%nat
  /\ (occurs newline s = false -> occurs newline r = false).
Proof.
  revert r; induction s as [|a s IH]; intros r; [discriminate|].
  cbn [after_last]. destruct (after_last ">" s) eqn:E.
  - intros [= <-]. destruct (IH _ eq_refl) as (H1 & H2 & H3).
    repeat split; [exact H1 | simpl; lia |].
    cbn [occurs]. intros H. apply orb_false_iff in H as [_ H]. auto.
  - destruct (Ascii.eqb a ">"); [|discriminate]. intros [= <-].
    repeat split; [now apply after_last_none | simpl; lia |].
    cbn [occurs]. intros H. apply orb_false_iff in H as [_ H]. auto.
Qed.

Lemma match_tag a s :
  match_here tag (String a s)
  = if Ascii.eqb a "<" then star AnyChar close_tag s else None.
Proof. reflexivity. Qed.

(** Without a [>] the pattern matches nowhere and the text is kept. *)
Lemma star_any_no_close s : occurs ">" s = false -> star AnyChar close_tag s = None.
Proof.
  induction s as [|a s IH]; intros H; [reflexivity|].
  cbn [occurs] in H. apply orb_false_iff in H as [Ha Hs].
  cbn [star]. rewrite (IH Hs), close_tag_eq, Ha.
  destruct (cls_match AnyChar a); reflexivity.
Qed.

Lemma sub_tag_none n s : occurs ">" s = false -> sub_from n tag " " s = s.
Proof.
  revert s; induction n as [|n IH]; intros s H; [reflexivity|].
  destruct s as [|a s]; [reflexivity|].
  cbn [sub_from]. rewrite match_tag.
  cbn [occurs] in H. apply orb_false_iff in H as [Ha Hs].
  rewrite (star_any_no_close _ Hs).
  destruct (Ascii.eqb a "<"); f_equal; auto.
Qed.

Lemma sub_tag n s :
  (String.length s < n)%nat -> occurs newline s = false ->
  sub_from n tag " " s = collapse_tag_span s.
Proof.
  revert s; induction n as [|n IH]; intros s Hn Hnl; [lia|].
  destruct s as [|a s]; [reflexivity|].
  simpl in Hn. cbn [occurs] in Hnl. apply orb_false_iff in Hnl as [Ha Hs].
  cbn [sub_from]. rewrite match_tag.
  unfold collapse_tag_span. cbn [split_first].
  destruct (Ascii.eqb a "<") eqn:Elt.
  - rewrite (star_any_close _ Hs).
    destruct (after_last ">" s) as [r|] eqn:E.
    + destruct (after_last_some _ E) as (Hgt & Hlen & _).
      replace (Nat.eqb (String.length r) (String.length (String a s))) with false
        by (symmetry; apply Nat.eqb_neq; simpl; lia).
      rewrite (sub_tag_none n _ Hgt). reflexivity.
    + apply after_last_none in E. now rewrite (sub_tag_none n _ E).
  - rewrite (IH s) by (assumption || lia).
    unfold collapse_tag_span.
    destruct (split_first "<" s) as [[before inside]|]; [|reflexivity].
    destruct (after_last ">" inside); reflexivity.
Qed.

(** Third pass: [ +] takes a whole run of spaces. *)
Lemma star_space s : star (Lit " ") (match_here []) s = Some (drop_spaces s).
Proof.
  induction s as [|a s IH]; [reflexivity|].
  cbn [star cls_match drop_spaces]. rewrite IH.
  destruct (Ascii.eqb a " "); reflexivity.
Qed.

Lemma drop_spaces_length s : (String.length (drop_spaces s) <= String.length s)%nat.
Proof.
  induction s as [|a s IH]; simpl; [lia|].
  destruct (Ascii.eqb a " "); simpl; lia.
Qed.

Lemma squeeze_run s :
  squeeze_spaces (String " " s) = String " " (squeeze_spaces (drop_spaces s)).
Proof.
  induction s as [|a s IH]; [reflexivity|].
  cbn [drop_spaces]. destruct (Ascii.eqb a " ") eqn:E.
  - apply Ascii.eqb_eq in E. subst a. rewrite <- IH. reflexivity.
  - cbn [squeeze_spaces]. cbn [Ascii.eqb Bool.eqb]. rewrite E.
    destruct a as [[] [] [] [] [] [] [] []]; try reflexivity; discriminate.
Qed.

Lemma sub_spaces n s :
  (String.length s < n)%nat ->
  sub_from n [Plus (Lit " ")] " " s = squeeze_spaces s.
Proof.
  revert s; induction n as [|n IH]; intros s Hn; [lia|].
  destruct s as [|a s]; [reflexivity|].
  simpl in Hn. cbn [sub_from match_here cls_match].
  destruct (Ascii.eqb a " ") eqn:E.
  - rewrite star_space. apply Ascii.eqb_eq in E. subst a.
    pose proof (drop_spaces_length s) as Hl.
    replace (Nat.eqb (String.length (drop_spaces s)) (String.length (String " " s)))
      with false by (symmetry; apply Nat.eqb_neq; simpl; lia).
    rewrite squeeze_run, IH by lia. reflexivity.
  - cbn [squeeze_spaces]. rewrite E, IH by lia. reflexivity.
Qed.

(** The wording of the specification, spelled out: with no ["<"] before
    and no [">"] after, everything from the ["<"] to the [">"] goes, however
    many tags lie in between. *)
Lemma split_first_app before rest :
  occurs "<" before = false ->
  split_first "<" (before ++ String "<" rest) = Some (before, rest).
Proof.
  induction before as [|a before IH]; intros H; [reflexivity|].
  cbn [occurs] in H. apply orb_false_iff in H as [Ha Hb].
  cbn [append split_first]. now rewrite Ha, IH.
Qed.

Lemma after_last_app inside after :
  occurs ">" after = false ->
  after_last ">" (inside ++ String ">" after) = Some after.
Proof.
  intros H. induction inside as [|a inside IH].
  - cbn [append after_last]. apply after_last_none in H. now rewrite H.
  - cbn [append after_last]. now rewrite IH.
Qed.

Lemma collapse_tag_span_between before inside after :
  occurs "<" before = false -> occurs ">" after = false ->
  collapse_tag_span (before ++ String "<" (inside ++ String ">" after))
  = before ++ " " ++ after.
Proof.
  intros Hb Ha. unfold collapse_tag_span.
  now rewrite split_first_app, after_last_app.
Qed.

Lemma split_first_inside s before inside :
  split_first "<" s = Some (before, inside) ->
  occurs ">" s = false -> occurs ">" inside = false.
Proof.
  revert before; induction s as [|a s IH]; intros before E H; [discriminate|].
  cbn [split_first] in E. cbn [occurs] in H. apply orb_false_iff in H as [_ H].
  destruct (Ascii.eqb a "<"); [now injection E as _ <-|].
  destruct (split_first "<" s) as [[b i]|]; [|discriminate].
  injection E as _ <-. now apply (IH b).
Qed.

Lemma collapse_tag_span_unclosed s :
  occurs ">" s = false -> collapse_tag_span s = s.
Proof.
  intros H. unfold collapse_tag_span.
  destruct (split_first "<" s) as [[before inside]|] eqn:E; [|reflexivity].
  pose proof (split_first_inside _ E H) as Hi.
  apply after_last_none in Hi. now rewrite Hi.
Qed.

End CleanText.

(** C9. [clean_question_text] turns each newline, tab and carriage return
    into a space, then replaces the span from the first ["<"] to the last
    [">"] (one greedy match) by one space, then squeezes every run of
    spaces into one space; all other characters are kept. *)
Theorem clean_question_text_spec (text : string) :
  Question.clean_question_text text = Spec.clean text.
Proof.
  unfold Question.clean_question_text, Spec.clean, Re.sub.
  rewrite sub_blanks by lia.
  fold Notions.tag. rewrite sub_tag by (lia || apply blanks_no_newline).
  apply sub_spaces. lia.
Qed.

(** Two tags on a line: the single greedy match takes both and what lies
    between them. *)
Example clean_two_tags :
  Question.clean_question_text "Pick <b>one</b> or <i>more</i>  options"
  = "Pick options".
Proof. vm_compute. reflexivity. Qed.

(** A [">"] before the first ["<"] closes nothing. *)
Example clean_no_span :
  Question.clean_question_text
    ("x > y" ++ String Re.tab (String Re.newline "< z"))
  = "x > y < z".
Proof. vm_compute. reflexivity. Qed.

(** ** The aggregated value of a question group *)

Section Sorting.
Import Question.

Lemma insert_sorted_perm x l : Permutation (insert_sorted x l) (x :: l).
Proof.
  induction l as [|y l IH]; simpl; [reflexivity|].
  destruct (String.leb x y); [reflexivity|].
  rewrite IH. apply perm_swap.
Qed.

Lemma sorted_perm l : Permutation (sorted l) l.
Proof.
  induction l as [|x l IH]; simpl; [constructor|].
  rewrite insert_sorted_perm. now constructor.
Qed.




End Sorting.

Section GroupValue.
Import Question.
Variables (st : store) (g : QuestionGroup).

Let kids := values (child_items st g).

Section WithAnswers.
Variables (response : Response) (answers : answer_key -> result pyval).
Hypothesis Hmethod : get_answer_method response = Some answers.

Lemma get_answer_eq k : get_answer response k = answers k.
Proof. unfold get_answer. now rewrite Hmethod. Qed.

(** The loop over the children, when every child has an answer. *)
Lemma collect_children (l : list ref) (acc : list string) :
  (forall sq, In sq l -> exists v, answers (ForQuestion sq) = Ok v) ->
  foldM (fun acc sq =>
           answer <- get_answer response (ForQuestion sq) ;;
           if eq_str answer "N/A" then Ok acc
           else Ok (acc ++ [text (deref st sq)])%list) l acc
  = Ok (acc ++ map (fun sq => text (deref st sq))
                   (filter (Spec.selected answers) l))%list.
Proof.
  revert acc; induction l as [|sq l IH]; intros acc Hall.
  - simpl. now rewrite app_nil_r.
  - cbn [foldM filter]. rewrite get_answer_eq. unfold Spec.selected at 1.
    destruct (Hall sq (or_introl eq_refl)) as [v Hv]. rewrite Hv.
    cbn [bind]. destruct (eq_str v "N/A"); cbn [negb bind].
    + apply IH. intros; apply Hall; now right.
    + rewrite IH by (intros; apply Hall; now right).
      cbn [map]. now rewrite <- app_assoc.
Qed.

(** When the loop returns, every child had an answer. *)
Lemma collect_children_inv (l : list ref) (acc vals : list string) :
  foldM (fun acc sq =>
           answer <- get_answer response (ForQuestion sq) ;;
           if eq_str answer "N/A" then Ok acc
           else Ok (acc ++ [text (deref st sq)])%list) l acc
  = Ok vals ->
  vals = (acc ++ map (fun sq => text (deref st sq))
                     (filter (Spec.selected answers) l))%list.
Proof.
  revert acc; induction l as [|sq l IH]; intros acc.
  - simpl. rewrite app_nil_r. now intros [= <-].
  - cbn [foldM filter]. rewrite get_answer_eq. unfold Spec.selected at 1.
    destruct (answers (ForQuestion sq)) as [v|e]; cbn [bind]; [|discriminate].
    destruct (eq_str v "N/A"); cbn [negb]; intros H; apply IH in H; subst vals.
    + reflexivity.
    + cbn [map]. now rewrite <- app_assoc.
Qed.

(** What [get_other_value] returns. *)
Lemma get_other_value_eq :
  get_other_value st g response
  = match answers (Spec.other_key st g) with
    | Ok v => if eq_str v "None" then Ok PyNone else Ok v
    | Raise (KeyError _) => Ok PyNone
    | Raise e => Raise e
    end.
Proof.
  unfold get_other_value. rewrite get_answer_eq. fold (Spec.other_key st g).
  destruct (answers (Spec.other_key st g)) as [v|e]; cbn [bind].
  - destruct (eq_str v "None"); reflexivity.
  - destruct e; reflexivity.
Qed.

End WithAnswers.
End GroupValue.

Section AnyResponse.
Import Question.
Variables (st : store) (g : QuestionGroup) (response : Response).






End AnyResponse.




(** C4, as amended. Whenever [get_value] returns, its result is the sorted
    texts followed by at most one "other" entry, and that entry is there
    only if the lookup returned a value that is neither null nor the string
    ["None"]; an empty string is such a value and is appended. *)
Theorem get_value_other_entry
    (st : Question.store) (g : Question.QuestionGroup)
    (response : Question.Response)
    (answers : Question.answer_key -> result pyval) (l : list pyval) :
  Question.get_answer_method response = Some answers ->
  Question.get_value st g response = Ok l ->
  (l = map PyStr (Question.sorted (Spec.selected_texts st g answers))
   \/ exists v,
        l = (map PyStr (Question.sorted (Spec.selected_texts st g answers))
             ++ [v])%list
        /\ answers (Spec.other_key st g) = Ok v
        /\ v <> PyNone /\ v <> PyStr "None")
  /\ (answers (Spec.other_key st g) = Ok (PyStr EmptyString) ->
      l = (map PyStr (Question.sorted (Spec.selected_texts st g answers))
           ++ [PyStr EmptyString])%list).
Proof.
  intros Hm. unfold Question.get_value.
  destruct (foldM _ _ _) as [vals|e] eqn:Hvals; cbn [bind]; [|discriminate].
  apply (collect_children_inv st response Hm) in Hvals. cbn [app] in Hvals.
  fold (Spec.selected_texts st g answers) in Hvals. subst vals.
  rewrite (get_other_value_eq st g response Hm).
  destruct (answers (Spec.other_key st g)) as [v|e] eqn:E.
  - destruct (eq_str v "None") eqn:En; cbn [bind].
    + cbn. intros [= <-]. split; [now left|].
      intros [= ->]. discriminate.
    + destruct (is_none v) eqn:Ev; cbn [negb]; intros [= <-].
      * split; [now left|]. intros [= ->]. discriminate.
      * split; [|now intros [= ->]].
        right. exists v. repeat split; intros ->; discriminate.
  - destruct e; cbn [bind]; try discriminate.
    cbn. intros [= <-]. split; [now left | discriminate].
Qed.

(** The example group with the empty "other" answer: it is appended. *)
Lemma get_value_other_entry_witness :
  ([PyStr "Option B"; PyStr EmptyString]
   = map PyStr (Question.sorted
                  (Spec.selected_texts (Survey.questions_by_id Examples.three)
                     Examples.group_Q1
                     (Examples.answers_of Examples.response_empty_other)))
   \/ exists v,
        [PyStr "Option B"; PyStr EmptyString]
        = (map PyStr (Question.sorted
                        (Spec.selected_texts (Survey.questions_by_id Examples.three)
                           Examples.group_Q1
                           (Examples.answers_of Examples.response_empty_other)))
           ++ [v])%list
        /\ Examples.answers_of Examples.response_empty_other
             (Spec.other_key (Survey.questions_by_id Examples.three)
                Examples.group_Q1) = Ok v
        /\ v <> PyNone /\ v <> PyStr "None")
  /\ (Examples.answers_of Examples.response_empty_other
        (Spec.other_key (Survey.questions_by_id Examples.three)
           Examples.group_Q1) = Ok (PyStr EmptyString) ->
      [PyStr "Option B"; PyStr EmptyString]
      = (map PyStr (Question.sorted
                      (Spec.selected_texts (Survey.questions_by_id Examples.three)
                         Examples.group_Q1
                         (Examples.answers_of Examples.response_empty_other)))
         ++ [PyStr EmptyString])%list).
Proof.
  apply (@get_value_other_entry (Survey.questions_by_id Examples.three)
           Examples.group_Q1 Examples.response_empty_other
           (Examples.answers_of Examples.response_empty_other)
           [PyStr "Option B"; PyStr EmptyString]).
  - reflexivity.
  - vm_compute. reflexivity.
Defined.

(** C4, the claim as worded fails on an empty "other" answer: it is not
    "present and non-empty", and the code appends it. *)
Lemma get_value_empty_other :
  Spec.other_is_text (Survey.questions_by_id Examples.three) Examples.group_Q1
    (Examples.answers_of Examples.response_empty_other) = false
  /\ Question.get_value (Survey.questions_by_id Examples.three) Examples.group_Q1
       Examples.response_empty_other
     = Ok [PyStr "Option B"; PyStr EmptyString].
Proof. split; vm_compute; reflexivity. Qed.

(** C10. On an instance of the base [Response] class, which has no
    [get_answer], [get_value] of a group with at least one child returns no
    value: the first lookup raises [AttributeError]. *)
Theorem get_value_base_response
    (st : Question.store) (g : Question.QuestionGroup)
    (d : dict string pyval) :
  Question.child_items st g <> [] ->
  Question.get_value st g (Question.Response_init d)
  = Raise (AttributeError "get_answer").
Proof.
  intros Hkids. unfold Question.get_value.
  destruct (Question.child_items st g) as [|[k sq] rest]; [congruence|].
  reflexivity.
Qed.

(** The example group and a response of the base class. *)
Lemma get_value_base_response_witness :
  Question.get_value (Survey.questions_by_id Examples.three) Examples.group_Q1
    (Question.Response_init [("id", PyInt 1); ("Q1[B]", PyStr "Yes")])
  = Raise (AttributeError "get_answer").
Proof.
  apply get_value_base_response. vm_compute. discriminate.
Defined.

(** The two examples of the specification: A = "N/A", B = "Yes" and the
    "other" answer "None" give the text of B alone; a free-text "other"
    answer comes last. *)
Example get_value_none_string :
  Question.get_value (Survey.questions_by_id Examples.three) Examples.group_Q1
    (Examples.lookup_response (Survey.questions_by_id Examples.three)
       [("Q1[A]", PyStr "N/A"); ("Q1[B]", PyStr "Yes");
        ("Q1[other]", PyStr "None")])
  = Ok [PyStr "Option B"].
Proof. vm_compute. reflexivity. Qed.

Example get_value_only_other :
  Question.get_value (Survey.questions_by_id Examples.three) Examples.group_Q1
    (Examples.lookup_response (Survey.questions_by_id Examples.three)
       [("Q1[A]", PyStr "N/A"); ("Q1[B]", PyStr "N/A");
        ("Q1[other]", PyStr "Some text")])
  = Ok [PyStr "Some text"].
Proof. vm_compute. reflexivity. Qed.

(** A child without an answer: the [KeyError] of the lookup leaves
    [get_value]. *)
Example get_value_missing_child :
  Question.get_value (Survey.questions_by_id Examples.three) Examples.group_Q1
    (Examples.lookup_response (Survey.questions_by_id Examples.three)
       [("Q1[A]", PyStr "Yes")])
  = Raise (KeyError "Q1[B]").
Proof. vm_compute. reflexivity. Qed.

(** ** The question hierarchy *)

Section DictFacts.
Variables (K V : Type) (eqb : K -> K -> bool).
Hypothesis eqb_eq : forall a b, eqb a b = true <-> a = b.

Lemma dict_mem_keys k (d : dict K V) :
  dict_mem eqb k d = existsb (eqb k) (keys d).
Proof.
  unfold dict_mem. induction d as [|[k' v] d IH]; simpl; [reflexivity|].
  destruct (eqb k k'); [reflexivity | exact IH].
Qed.

Lemma dict_mem_In k (d : dict K V) :
  dict_mem eqb k d = true <-> In k (keys d).
Proof.
  rewrite dict_mem_keys, existsb_exists. split.
  - intros (x & Hx & E). apply eqb_eq in E. now subst.
  - intros H. exists k. split; [assumption | now apply eqb_eq].
Qed.

Lemma dict_mem_entry k (d : dict K V) :
  dict_mem eqb k d = true -> exists v, In (k, v) d.
Proof.
  intros H. apply dict_mem_In in H. unfold keys in H.
  apply in_map_iff in H as ([k' v] & E & H). simpl in E. subst. eauto.
Qed.

Lemma dict_set_fresh k v (d : dict K V) :
  dict_mem eqb k d = false -> dict_set eqb k v d = (d ++ [(k, v)])%list.
Proof.
  unfold dict_mem. induction d as [|[k' v'] d IH]; simpl; [reflexivity|].
  destruct (eqb k k'); [discriminate|]. intros H. now rewrite IH.
Qed.

Lemma dict_set_entries k v (d : dict K V) a b :
  In (a, b) (dict_set eqb k v d) -> b = v \/ In (a, b) d.
Proof.
  induction d as [|[k' v'] d IH]; simpl.
  - intros [[= <- <-]|[]]. now left.
  - destruct (eqb k k'); simpl.
    + intros [[= <- <-]|H]; auto.
    + intros [H|H]; auto. destruct (IH H); auto.
Qed.

Lemma dict_set_not_nil k v (d : dict K V) : dict_set eqb k v d <> [].
Proof. destruct d as [|[k' v'] d]; simpl; [|destruct (eqb k k')]; discriminate. Qed.

End DictFacts.

Section Store.
Import Question.

Lemma Zeqb_eq a b : Z.eqb a b = true <-> a = b.
Proof. apply Z.eqb_eq. Qed.

Lemma keys_mutate (st : store) r f : keys (mutate st r f) = keys st.
Proof.
  unfold keys, mutate. rewrite map_map. apply map_ext.
  intros [k q]; simpl. destruct (Z.eqb k r); reflexivity.
Qed.

Lemma dict_mem_mutate (st : store) r f k :
  dict_mem Z.eqb k (mutate st r f) = dict_mem Z.eqb k st.
Proof. now rewrite !dict_mem_keys, keys_mutate. Qed.

Lemma deref_mutate (st : store) r f k :
  deref (mutate st r f) k
  = if Z.eqb k r && dict_mem Z.eqb k st then f (deref st k) else deref st k.
Proof.
  unfold deref, dict_mem.
  induction st as [|[k' q] st IH]; simpl.
  - now rewrite andb_false_r.
  - destruct (Z.eqb k' r) eqn:Er; simpl; destruct (Z.eqb k k') eqn:Ek; auto.
    + apply Z.eqb_eq in Ek. subst k'. now rewrite Er.
    + apply Z.eqb_eq in Ek. subst k'. now rewrite Er.
Qed.

(** What [link_parent] changes: the parent of the child and the children of
    the parent; the data and the keys stay. *)
Section Link.
Variables (st : store) (child par : ref).
Hypothesis Hchild : dict_mem Z.eqb child st = true.
Hypothesis Hpar : dict_mem Z.eqb par st = true.

Let st' := link_parent st child par.

Lemma link_keys : keys st' = keys st.
Proof. unfold st', link_parent, link_child. now rewrite !keys_mutate. Qed.

Lemma link_mem k : dict_mem Z.eqb k st' = dict_mem Z.eqb k st.
Proof. now rewrite !dict_mem_keys, link_keys. Qed.

Lemma link_data k : data (deref st' k) = data (deref st k).
Proof.
  unfold st', link_parent, link_child.
  rewrite !deref_mutate.
  repeat match goal with
         | |- context [if ?c then _ else _] => destruct c
         end; reflexivity.
Qed.

Lemma link_parent_of k :
  parent (deref st' k) = if Z.eqb k child then Some par else parent (deref st k).
Proof.
  unfold st', link_parent, link_child.
  rewrite !deref_mutate, !dict_mem_mutate.
  destruct (Z.eqb k child) eqn:Ec.
  - apply Z.eqb_eq in Ec. subst k. rewrite Hchild. reflexivity.
  - cbn [andb]. destruct (Z.eqb k par && dict_mem Z.eqb k st); reflexivity.
Qed.

Lemma link_children_of k :
  children (deref st' k)
  = if Z.eqb k par
    then dict_set Z.eqb (question_id (deref st child)) child (children (deref st k))
    else children (deref st k).
Proof.
  unfold st', link_parent, link_child.
  rewrite !deref_mutate, !dict_mem_mutate.
  assert (Hid : question_id (if Z.eqb child child && dict_mem Z.eqb child st
                             then set_parent (Some par) (deref st child)
                             else deref st child)
                = question_id (deref st child)).
  { destruct (Z.eqb child child && dict_mem Z.eqb child st); reflexivity. }
  rewrite Hid.
  destruct (Z.eqb k par) eqn:Ep.
  - apply Z.eqb_eq in Ep. subst k. rewrite Hpar. cbn [andb].
    destruct (Z.eqb par child && true); reflexivity.
  - cbn [andb]. destruct (Z.eqb k child && dict_mem Z.eqb k st); reflexivity.
Qed.

Lemma link_possible_titles k : Spec.possible_titles st' k = Spec.possible_titles st k.
Proof.
  unfold Spec.possible_titles, _title, parent_qid.
  now rewrite !link_data, link_mem.
Qed.

Lemma link_is_parent k : Spec.is_parent st' k = Spec.is_parent st k.
Proof.
  unfold Spec.is_parent, parent_qid. rewrite link_keys.
  apply eq_true_iff_eq. rewrite !existsb_exists.
  split; intros (c & Hc & E); exists c; (split; [assumption|]);
    [rewrite <- link_data | rewrite link_data]; exact E.
Qed.

End Link.
End Store.

Section Hierarchy.
Import Question Survey.

Lemma title_possible st k : parents_ok st -> In (title st k) (Spec.possible_titles st k).
Proof.
  intros H. unfold title, Spec.possible_titles.
  destruct (H k) as [E|[E M]]; rewrite E; [now left|].
  rewrite M. right. now left.
Qed.

Lemma has_children_set k v (d : dict ref ref) :
  Nat.ltb 0 (dict_len (dict_set Z.eqb k v d)) = true.
Proof.
  apply Nat.ltb_lt. unfold dict_len.
  pose proof (@dict_set_not_nil _ _ Z.eqb k v d).
  destruct (dict_set Z.eqb k v d); [congruence | simpl; lia].
Qed.

Lemma is_parent_intro st c :
  dict_mem Z.eqb c st = true ->
  Spec.is_parent st (parent_qid (deref st c)) = true.
Proof.
  intros H. apply (dict_mem_In _ Zeqb_eq) in H.
  unfold Spec.is_parent. apply existsb_exists. exists c.
  split; [assumption | apply Z.eqb_refl].
Qed.

Section Step.
Variables (s : Survey) (q : ref).
Hypothesis Hq : dict_mem Z.eqb q (questions_by_id s) = true.

Let st := questions_by_id s.
Let pq := parent_qid (deref st q).

Lemma process_keys :
  keys (questions_by_id (process_question s q)) = keys (questions_by_id s).
Proof.
  unfold process_question, _create_question_group, _create_question_link.
  destruct (dict_mem Z.eqb (parent_qid _) (questions_by_id s)); [|reflexivity].
  cbn [questions_by_id set_questions].
  destruct (negb _); cbn [questions_by_id set_groups set_questions];
    unfold link_parent, link_child; now rewrite !keys_mutate.
Qed.

Lemma process_unambiguous :
  Unambiguous (questions_by_id s) ->
  Unambiguous (questions_by_id (process_question s q)).
Proof.
  unfold process_question, _create_question_group, _create_question_link.
  destruct (dict_mem Z.eqb (parent_qid _) (questions_by_id s)) eqn:Hp; [|auto].
  intros U.
  assert (U' : Unambiguous (link_parent (questions_by_id s) q
                              (parent_qid (deref (questions_by_id s) q)))).
  { intros p p' t. rewrite !link_mem, !link_is_parent, !link_possible_titles.
    apply U. }
  cbn [questions_by_id set_questions].
  destruct (negb _); exact U'.
Qed.

Lemma process_ok : hierarchy_ok s -> hierarchy_ok (process_question s q).
Proof.
  intros [Hpar Hch Hgr].
  unfold process_question, _create_question_group, _create_question_link.
  fold st. fold pq.
  destruct (dict_mem Z.eqb pq st) eqn:Hp; [|now constructor].
  cbn [questions_by_id set_questions question_groups_by_key].
  set (st' := link_parent st q pq).
  assert (Hpar' : parents_ok st').
  { intros k. unfold st', parent_qid.
    rewrite link_parent_of by exact Hq. rewrite link_data, link_mem.
    destruct (Z.eqb k q) eqn:E; [|apply Hpar].
    apply Z.eqb_eq in E. subst k. right. split; [reflexivity | exact Hp]. }
  assert (Hch' : children_ok st').
  { intros k c c'. unfold st'.
    rewrite link_children_of by exact Hp. rewrite link_mem.
    destruct (Z.eqb k pq); [|apply Hch].
    intros H. apply dict_set_entries in H as [->|H]; [exact Hq | eapply Hch; eauto]. }
  assert (Hgr' : forall t g, In (t, g) (question_groups_by_key s) ->
            dict_mem Z.eqb (group_parent g) st' = true
            /\ has_children (deref st' (group_parent g)) = true
            /\ In t (Spec.possible_titles st' (group_parent g))
            /\ Spec.is_parent st' (group_parent g) = true).
  { intros t g H. destruct (Hgr t g H) as (H1 & H2 & H3 & H4).
    unfold st'. rewrite link_mem, link_possible_titles, link_is_parent.
    repeat split; try assumption.
    unfold has_children. rewrite link_children_of by exact Hp.
    destruct (Z.eqb (group_parent g) pq); [apply has_children_set | exact H2]. }
  destruct (negb (dict_mem String.eqb (title st' pq) (question_groups_by_key s)))
    eqn:Hfresh; cbn [questions_by_id set_groups set_questions question_groups_by_key];
    constructor; try assumption.
  intros t g. cbn [question_groups_by_key set_groups questions_by_id set_questions].
  apply negb_true_iff in Hfresh.
  rewrite (dict_set_fresh String.eqb _ _ _ Hfresh). rewrite in_app_iff.
  intros [H|[[= <- <-]|[]]]; [now apply Hgr'|].
  cbn [group_parent key]. repeat split.
  - unfold st'. rewrite link_mem. exact Hp.
  - unfold st', has_children. rewrite link_children_of by exact Hp.
    rewrite Z.eqb_refl. apply has_children_set.
  - now apply title_possible.
  - unfold st'. rewrite link_is_parent. now apply is_parent_intro.
Qed.

Lemma process_grouped :
  hierarchy_ok s -> Unambiguous (questions_by_id s) ->
  parents_grouped s -> parents_grouped (process_question s q).
Proof.
  intros Hok U G.
  pose proof (process_ok Hok) as Hok'. revert Hok'.
  unfold process_question, _create_question_group, _create_question_link.
  fold st. fold pq.
  destruct (dict_mem Z.eqb pq st) eqn:Hp; [|auto].
  cbn [questions_by_id set_questions question_groups_by_key].
  set (st' := link_parent st q pq).
  assert (Hold : forall k, has_children (deref st' k) = true ->
                           k = pq \/ has_children (deref st k) = true).
  { intros k. unfold st', has_children. rewrite link_children_of by exact Hp.
    destruct (Z.eqb k pq) eqn:E; [|auto]. apply Z.eqb_eq in E. auto. }
  destruct (negb (dict_mem String.eqb (title st' pq) (question_groups_by_key s)))
    eqn:Hfresh; intros Hok' k;
    cbn [questions_by_id set_groups set_questions question_groups_by_key];
    intros Hk; apply Hold in Hk as [->|Hk].
  - apply negb_true_iff in Hfresh.
    rewrite (dict_set_fresh String.eqb _ _ _ Hfresh).
    exists (title st' pq), {| group_parent := pq |}.
    split; [|reflexivity]. apply in_app_iff. right. now left.
  - apply negb_true_iff in Hfresh.
    rewrite (dict_set_fresh String.eqb _ _ _ Hfresh).
    destruct (G k Hk) as (t & g & H & E). exists t, g.
    split; [|assumption]. apply in_app_iff. now left.
  - apply negb_false_iff in Hfresh.
    apply (dict_mem_entry _ String.eqb_eq) in Hfresh as [g Hg].
    exists (title st' pq), g. split; [assumption|].
    destruct (ok_groups Hok' _ _ Hg) as (H1 & _ & H3 & H4).
    cbn [questions_by_id set_questions] in H1, H3, H4. fold st' in H1, H3, H4.
    assert (U' : Unambiguous st').
    { intros p p' t. unfold st'.
      rewrite !link_mem, !link_is_parent, !link_possible_titles. apply U. }
    apply (U' _ _ (title st' pq)); try assumption.
    + unfold st'. now rewrite link_mem.
    + unfold st'. rewrite link_is_parent. now apply is_parent_intro.
    + apply title_possible. apply (ok_parents Hok').
  - now apply G.
Qed.

End Step.

(** The loop of [_process_question_relationships]. *)
Lemma process_all_ok (l : list ref) (s : Survey) :
  (forall q, In q l -> dict_mem Z.eqb q (questions_by_id s) = true) ->
  hierarchy_ok s ->
  hierarchy_ok (fold_left process_question l s)
  /\ keys (questions_by_id (fold_left process_question l s))
     = keys (questions_by_id s)
  /\ (Unambiguous (questions_by_id s) -> parents_grouped s ->
      parents_grouped (fold_left process_question l s)).
Proof.
  revert s; induction l as [|q l IH]; intros s Hl Hok;
    [split; [assumption | split; [reflexivity | auto]] |].
  cbn [fold_left].
  assert (Hq : dict_mem Z.eqb q (questions_by_id s) = true) by (apply Hl; now left).
  destruct (IH (process_question s q)) as (H1 & H2 & H3).
  - intros k Hk. rewrite dict_mem_keys, process_keys, <- dict_mem_keys.
    apply Hl. now right.
  - now apply process_ok.
  - split; [assumption|]. split; [now rewrite H2, process_keys|].
    intros U G. apply H3; [now apply process_unambiguous|].
    now apply process_grouped.
Qed.

Lemma deref_dict_set (st : store) k v k0 :
  deref (dict_set Z.eqb k v st) k0 = if Z.eqb k0 k then v else deref st k0.
Proof.
  unfold deref. induction st as [|[k' v'] st IH]; simpl.
  - destruct (Z.eqb k0 k); reflexivity.
  - destruct (Z.eqb k k') eqn:E; simpl.
    + apply Z.eqb_eq in E. subst k'. destruct (Z.eqb k0 k); reflexivity.
    + destruct (Z.eqb k0 k') eqn:E0; [|exact IH].
      apply Z.eqb_eq in E0. subst k'. rewrite Z.eqb_sym in E. now rewrite E.
Qed.

Lemma index_questions_unlinked raws : unlinked (index_questions raws).
Proof.
  unfold index_questions.
  assert (H : forall (l : list RawQuestion) (st : store), unlinked st ->
            unlinked (fold_left (fun st q =>
                        dict_set Z.eqb (question_id (Question_init q))
                                 (Question_init q) st) l st)).
  { induction l as [|r l IH]; intros st Hst; [exact Hst|].
    cbn [fold_left]. apply IH. intros k. rewrite deref_dict_set.
    destruct (Z.eqb k _); [split; reflexivity | apply Hst]. }
  apply H. intros k. split; reflexivity.
Qed.

Lemma initial_ok raws :
  hierarchy_ok {| questions_by_id := index_questions raws;
                  questions_by_title := [];
                  question_groups_by_key := [] |}.
Proof.
  pose proof (index_questions_unlinked raws) as U.
  constructor; cbn [questions_by_id question_groups_by_key].
  - intros k. left. apply U.
  - intros k c c'. destruct (U k) as [_ ->]. intros [].
  - intros t g [].
Qed.

Lemma unambiguous_sound st : Spec.unambiguous st = true -> Unambiguous st.
Proof.
  unfold Spec.unambiguous. intros H p p' t Hp Hp' Pp Pp' Ht Ht'.
  apply (dict_mem_In _ Zeqb_eq) in Hp, Hp'.
  rewrite forallb_forall in H. specialize (H p Hp).
  rewrite forallb_forall in H. specialize (H p' Hp').
  rewrite Pp, Pp' in H. cbn [andb negb] in H. rewrite orb_false_r in H.
  apply orb_true_iff in H as [H|H]; [now apply Z.eqb_eq|].
  unfold Spec.distinct_titles in H. rewrite forallb_forall in H.
  specialize (H t Ht). apply negb_true_iff in H.
  assert (E : existsb (String.eqb t) (Spec.possible_titles st p') = true).
  { apply existsb_exists. exists t. split; [assumption | apply String.eqb_refl]. }
  congruence.
Qed.

(** What [_load_questions] leaves behind. *)
Lemma load_questions_ok raws :
  let s := _load_questions raws in
  hierarchy_ok s
  /\ (Spec.unambiguous_titles raws = true -> parents_grouped s).
Proof.
  pose (s0 := {| questions_by_id := index_questions raws;
                 questions_by_title := [];
                 question_groups_by_key := [] |}).
  change (_load_questions raws)
    with (_create_question_title_mapping
            (fold_left process_question (keys (questions_by_id s0)) s0)).
  destruct (@process_all_ok (keys (questions_by_id s0)) s0) as (H1 & H2 & H3).
  - intros q Hq. now apply (dict_mem_In _ Zeqb_eq).
  - apply initial_ok.
  - cbv zeta. split.
    + destruct H1 as [A B C]. constructor; assumption.
    + intros U q Hq.
      apply H3; [now apply unambiguous_sound | | exact Hq].
      intros k Hk. cbn [questions_by_id s0] in Hk.
      destruct (index_questions_unlinked raws k) as [_ E].
      unfold has_children in Hk. rewrite E in Hk. discriminate.
Qed.

(** Every reference kept in the loaded survey is a key of the store. *)
Lemma refs_in_store raws :
  let s := _load_questions raws in
  let st := questions_by_id s in
  (forall k p, parent (deref st k) = Some p -> dict_mem Z.eqb p st = true)
  /\ (forall k c c', In (c, c') (children (deref st k)) ->
                     dict_mem Z.eqb c' st = true)
  /\ (forall t g, In (t, g) (question_groups_by_key s) ->
                  dict_mem Z.eqb (group_parent g) st = true).
Proof.
  destruct (load_questions_ok raws) as [[A B C] _]. cbv zeta. repeat split.
  - intros k p H. destruct (A k) as [E|[E M]]; congruence.
  - exact B.
  - intros t g H. now destruct (C t g H).
Qed.

End Hierarchy.

(** C2, as amended. After the hierarchy is built, every group belongs to a
    loaded question that has children; and when no two parents can show the
    same display title, a loaded question has children exactly when some
    group of the mapping has it as its parent. *)
Theorem group_exists_iff_has_children (raws : list Question.RawQuestion) :
  (forall t g,
      In (t, g) (Survey.question_groups_by_key (Survey._load_questions raws)) ->
      In (Question.group_parent g)
         (keys (Survey.questions_by_id (Survey._load_questions raws)))
      /\ Question.has_children
           (Question.deref (Survey.questions_by_id (Survey._load_questions raws))
                           (Question.group_parent g)) = true)
  /\ (Spec.unambiguous_titles raws = true ->
      forall q,
        In q (keys (Survey.questions_by_id (Survey._load_questions raws))) ->
        (Question.has_children
           (Question.deref (Survey.questions_by_id (Survey._load_questions raws)) q)
         = true
         <-> exists t g,
               In (t, g) (Survey.question_groups_by_key (Survey._load_questions raws))
               /\ Question.group_parent g = q)).
Proof.
  destruct (load_questions_ok raws) as [Hok Hgrouped]. cbv zeta in *.
  assert (A : forall t g,
             In (t, g) (Survey.question_groups_by_key (Survey._load_questions raws)) ->
             In (Question.group_parent g)
                (keys (Survey.questions_by_id (Survey._load_questions raws)))
             /\ Question.has_children
                  (Question.deref
                     (Survey.questions_by_id (Survey._load_questions raws))
                     (Question.group_parent g)) = true).
  { intros t g H. destruct (ok_groups Hok _ _ H) as (H1 & H2 & _).
    split; [now apply (dict_mem_In _ Zeqb_eq) | exact H2]. }
  split; [exact A|].
  intros U q Hq. split.
  - now apply Hgrouped.
  - intros (t & g & H & <-). now apply (A t g).
Qed.

(** The three example questions: question 1 has children and the group
    "Q1". *)
Lemma group_exists_iff_has_children_witness :
  Spec.unambiguous_titles Examples.three_questions = true
  /\ (Question.has_children
        (Question.deref (Survey.questions_by_id Examples.three) 1) = true
      <-> exists t g,
            In (t, g) (Survey.question_groups_by_key Examples.three)
            /\ Question.group_parent g = 1).
Proof.
  split; [reflexivity|].
  apply (proj2 (group_exists_iff_has_children Examples.three_questions)).
  - reflexivity.
  - vm_compute. now left.
Defined.

(** C2, the claim as worded fails when two parents carry the same title:
    the second one has a child and no group. *)
Lemma same_title_parent_without_group :
  In 2 (keys (Survey.questions_by_id Examples.same_title))
  /\ Question.has_children
       (Question.deref (Survey.questions_by_id Examples.same_title) 2) = true
  /\ ~ (exists t g,
          In (t, g) (Survey.question_groups_by_key Examples.same_title)
          /\ Question.group_parent g = 2).
Proof.
  split; [vm_compute; tauto|]. split; [reflexivity|].
  intros (t & g & H & E). vm_compute in H.
  destruct H as [H|[]]. injection H as _ <-. discriminate E.
Qed.

(** C5. The three questions 1 ("Q1", no parent), 2 ("A", parent 1) and
    3 ("B", parent 1), whatever their other fields, give exactly one group,
    keyed "Q1", whose members are the questions 2 and 3, titled "Q1[A]" and
    "Q1[B]"; question 1 has children, questions 2 and 3 have none. *)
Theorem three_questions_hierarchy
    (s1 g1 s2 g2 s3 g3 : Z) (ty1 q1 ty2 q2 ty3 q3 : string) :
  let raws :=
    [ {| Question.raw_qid := 1; Question.raw_sid := s1; Question.raw_gid := g1;
         Question.raw_type := ty1; Question.raw_title := "Q1";
         Question.raw_question := q1; Question.raw_parent_qid := 0 |};
      {| Question.raw_qid := 2; Question.raw_sid := s2; Question.raw_gid := g2;
         Question.raw_type := ty2; Question.raw_title := "A";
         Question.raw_question := q2; Question.raw_parent_qid := 1 |};
      {| Question.raw_qid := 3; Question.raw_sid := s3; Question.raw_gid := g3;
         Question.raw_type := ty3; Question.raw_title := "B";
         Question.raw_question := q3; Question.raw_parent_qid := 1 |} ] in
  let s := Survey._load_questions raws in
  let st := Survey.questions_by_id s in
  let group := {| Question.group_parent := 1 |} in
  Survey.question_groups_by_key s = [("Q1", group)]
  /\ Question.key st group = "Q1"
  /\ values (Question.child_items st group) = [2; 3]
  /\ Question.title st 2 = "Q1[A]"
  /\ Question.title st 3 = "Q1[B]"
  /\ Question.has_children (Question.deref st 1) = true
  /\ Question.has_children (Question.deref st 2) = false
  /\ Question.has_children (Question.deref st 3) = false.
Proof. cbv zeta. repeat split; reflexivity. Qed.

(** The two parents of the same title are what the side condition rules
    out. *)
Example same_title_ambiguous :
  Spec.unambiguous_titles Examples.same_title_parents = false.
Proof. vm_compute. reflexivity. Qed.

(** ** The session *)

Section Session.
Import Lime.
Variable server : list Request -> Request -> result pyval.
Variable py_str : pyval -> string.

(** [authenticate] always goes to the server: it sends one
    [get_session_key] request, whatever comes back. *)
Lemma authenticate_round_trip api w :
  exists req,
    method req = "get_session_key"
    /\ sent (snd (authenticate server py_str api w)) = (sent w ++ [req])%list.
Proof.
  exists {| endpoint := remote_api_url api; method := "get_session_key";
            params := [("username", PyStr (username api));
                       ("password", PyStr (password api))] |}.
  split; [reflexivity|].
  unfold authenticate, bindM, proxy_call, get_world, get_api,
    modify_api, modify_world, lift, ret, raise.
  destruct (negb (_rpc_protocol_patched w)); cbn;
    destruct (server _ _) as [k|e]; cbn; try reflexivity;
    destruct (_validate_session_key _); reflexivity.
Qed.

Lemma valid_session_checks api :
  Spec.valid_session api ->
  _authenticated api = true
  /\ _validate_session_key api = true
  /\ _validate_rpc_resources api = true.
Proof.
  intros (Ha & (c & k & Hk) & Hc & Hp). repeat split; [assumption| |].
  - unfold _validate_session_key. now rewrite Hk.
  - unfold _validate_rpc_resources.
    destruct (rpc_client api); [|congruence]. destruct (rpc_proxy api); congruence.
Qed.

Lemma validate_auth_valid api w :
  Spec.valid_session api -> _validate_auth server py_str api w = (Ok tt, api, w).
Proof.
  intros H. destruct (valid_session_checks H) as (Ha & Hk & Hr).
  unfold _validate_auth, bindM, get_api. now rewrite Ha, Hk, Hr.
Qed.

(** After a successful check the proxy is there. *)
Lemma validate_auth_proxy api w api' w' :
  _validate_auth server py_str api w = (Ok tt, api', w') ->
  rpc_proxy api' <> None.
Proof.
  assert (A : forall a0 w0, authenticate server py_str a0 w0 = (Ok tt, api', w') ->
                            rpc_proxy api' <> None).
  { intros a0 w0. unfold authenticate, bindM, proxy_call, get_world, get_api,
      modify_api, modify_world, lift, ret, raise.
    destruct (negb (_rpc_protocol_patched w0)); cbn;
      (destruct (server _ _); cbn; [|discriminate]);
      (destruct (negb _); [discriminate|]);
      intros [= <- _]; discriminate. }
  unfold _validate_auth, bindM, get_api.
  destruct (negb (_authenticated api)); [apply A|].
  destruct (negb (_validate_session_key api)); [apply A|].
  destruct (negb (_validate_rpc_resources api)) eqn:E; [apply A|].
  intros [= <- _]. apply negb_false_iff in E. unfold _validate_rpc_resources in E.
  destruct (rpc_client api); [|discriminate]. destruct (rpc_proxy api); congruence.
Qed.

End Session.

(** C8. On a session that is already valid, authenticated, with a
    non-empty string as token and both handles present, the check before
    a call, made twice in a row, leaves the instance and the world as they
    were: no request is sent, so [authenticate] is not run and there is no
    authentication round trip. *)
Theorem validate_auth_twice
    (server : list Lime.Request -> Lime.Request -> result pyval)
    (py_str : pyval -> string) (api : Lime.LimeAPI) (w : Lime.World) :
  Spec.valid_session api ->
  Lime._validate_auth server py_str api w = (Ok tt, api, w)
  /\ Lime.bindM (Lime._validate_auth server py_str)
       (fun _ => Lime._validate_auth server py_str) api w = (Ok tt, api, w)
  /\ Spec.auth_round_trips
       (snd (Lime.bindM (Lime._validate_auth server py_str)
               (fun _ => Lime._validate_auth server py_str) api w))
     = Spec.auth_round_trips w.
Proof.
  intros H. pose proof (validate_auth_valid server py_str w H) as E.
  assert (E2 : Lime.bindM (Lime._validate_auth server py_str)
                 (fun _ => Lime._validate_auth server py_str) api w
               = (Ok tt, api, w)).
  { unfold Lime.bindM at 1. now rewrite E. }
  repeat split; [exact E | exact E2 | now rewrite E2].
Qed.

(** The session the example client holds after its first call. *)
Lemma validate_auth_twice_witness :
  Lime._validate_auth Examples.server Examples.py_str
    (fst Examples.session_after_export) (snd Examples.session_after_export)
  = (Ok tt, fst Examples.session_after_export, snd Examples.session_after_export)
  /\ Lime.bindM (Lime._validate_auth Examples.server Examples.py_str)
       (fun _ => Lime._validate_auth Examples.server Examples.py_str)
       (fst Examples.session_after_export) (snd Examples.session_after_export)
     = (Ok tt, fst Examples.session_after_export, snd Examples.session_after_export)
  /\ Spec.auth_round_trips
       (snd (Lime.bindM (Lime._validate_auth Examples.server Examples.py_str)
               (fun _ => Lime._validate_auth Examples.server Examples.py_str)
               (fst Examples.session_after_export) (snd Examples.session_after_export)))
     = Spec.auth_round_trips (snd Examples.session_after_export).
Proof.
  apply validate_auth_twice.
  repeat split; try (vm_compute; discriminate).
  - vm_compute. eauto.
Defined.

(** ** Exporting responses *)

Lemma collect_rows_wrapped (krs : list (string * pyval)) :
  Lime.collect_rows (PyList (map (fun kr => PyDict [kr]) krs)) = Ok (map snd krs).
Proof.
  unfold Lime.collect_rows, Lime.py_iter. cbn [bind].
  assert (H : forall acc,
             foldM (fun rows id_survey_map =>
                      vs <- Lime.py_values id_survey_map ;; Ok (rows ++ vs)%list)
                   (map (fun kr => PyDict [kr]) krs) acc
             = Ok (acc ++ map snd krs)%list).
  { induction krs as [|kr krs IH]; intros acc; cbn [map foldM].
    - now rewrite app_nil_r.
    - cbn [Lime.py_values bind values map]. rewrite IH.
      now rewrite <- app_assoc. }
  apply H.
Qed.

(** C6. When the server answers the export request with a base64 document
    whose decoded JSON body is {"responses": [m1, ..., mn]}, each mi mapping
    one response id to a record, [export_responses] returns those records in
    order, without the ids. *)
Theorem export_responses_flat
    (server : list Lime.Request -> Lime.Request -> result pyval)
    (b64decode : pyval -> result string)
    (decode_utf8 : string -> result string)
    (json_loads : string -> result pyval)
    (py_str : pyval -> string)
    (survey_id : Z) (language_code : option string)
    (completion_status heading_type response_type : string)
    (from_response_id to_response_id : option Z) (fields : pyval)
    (api api' : Lime.LimeAPI) (w w' : Lime.World) (p : Lime.RPCProxy)
    (doc : pyval) (bytes text : string) (krs : list (string * pyval)) :
  let req :=
    {| Lime.endpoint := Lime.client_endpoint (Lime.proxy_client p);
       Lime.method := "export_responses";
       Lime.params :=
         Lime.export_params api' survey_id language_code completion_status
           heading_type response_type from_response_id to_response_id fields |} in
  Lime._validate_auth server py_str api w = (Ok tt, api', w') ->
  Lime.rpc_proxy api' = Some p ->
  server (Lime.sent w') req = Ok doc ->
  b64decode doc = Ok bytes ->
  decode_utf8 bytes = Ok text ->
  json_loads text
  = Ok (PyDict [("responses", PyList (map (fun kr => PyDict [kr]) krs))]) ->
  Lime.export_responses server b64decode decode_utf8 json_loads py_str
    survey_id language_code completion_status heading_type response_type
    from_response_id to_response_id fields api w
  = (Ok (map snd krs), api', Lime.record_request req w').
Proof.
  intros req Hv Hp Hs Hb Hu Hj. subst req.
  unfold Lime.export_responses, Lime.request_ctx, Lime.try_except.
  unfold Lime.bindM at 1 2. rewrite Hv. cbv beta iota zeta.
  cbv beta iota zeta delta [Lime.bindM Lime.get_api Lime.proxy_call Lime.get_world
    Lime.modify_world Lime.lift Lime.ret]. rewrite Hp.
  cbv beta iota zeta. rewrite Hs. cbv beta iota zeta. rewrite Hb.
  cbv beta iota zeta. rewrite Hu. cbv beta iota zeta. rewrite Hj.
  cbn [Lime.getitem dict_get]. rewrite String.eqb_refl.
  cbv beta iota zeta. rewrite collect_rows_wrapped. reflexivity.
Qed.

(** The example of the specification: the document
    {"responses":[{"1":{"id":1,"q1":"x"}},{"2":{"id":2,"q1":"y"}}]} gives
    the two records {"id":1,"q1":"x"} and {"id":2,"q1":"y"}. *)
Lemma export_responses_flat_witness :
  fst (fst (Examples.export "all" "code" "long"
              Examples.client Examples.fresh_world))
  = Ok [PyDict [("id", PyInt 1); ("q1", PyStr "x")];
        PyDict [("id", PyInt 2); ("q1", PyStr "y")]].
Proof.
  unfold Examples.export.
  erewrite (@export_responses_flat Examples.server Examples.b64decode
              Examples.decode_utf8 Examples.json_loads Examples.py_str
              42 None "all" "code" "long" None None PyNone
              Examples.client _ Examples.fresh_world _ _ _ _ _
              [("1", PyDict [("id", PyInt 1); ("q1", PyStr "x")]);
               ("2", PyDict [("id", PyInt 2); ("q1", PyStr "y")])]).
  - reflexivity.
  - vm_compute. reflexivity.
  - vm_compute. reflexivity.
  - vm_compute. reflexivity.
  - vm_compute. reflexivity.
  - vm_compute. reflexivity.
  - vm_compute. reflexivity.
Defined.

(** C1, the code at a value outside the enumeration: with
    [completion_status = "bogus"] the request is sent as it is and the rows
    come back; nothing is refused. *)
Lemma export_responses_bogus_status :
  Spec.valid_export_parameters "bogus" "code" "long" = false
  /\ fst (fst (Examples.export "bogus" "code" "long"
                 Examples.client Examples.fresh_world))
     = Ok [PyDict [("id", PyInt 1); ("q1", PyStr "x")];
           PyDict [("id", PyInt 2); ("q1", PyStr "y")]]
  /\ map (fun r => (Lime.method r,
                    dict_get String.eqb "sCompletionStatus" (Lime.params r)))
         (Lime.sent (snd (Examples.export "bogus" "code" "long"
                            Examples.client Examples.fresh_world)))
     = [("get_session_key", None);
        ("export_responses", Some (PyStr "bogus"))].
Proof. repeat split; vm_compute; reflexivity. Qed.

(** ** The protocol adapter *)

Lemma check_keys_allowed (ks : list string) :
  (forall k, In k ks -> In k Lime._ALLOWED_REPLY_KEYS) ->
  Lime.check_keys ks = Ok tt.
Proof.
  induction ks as [|k ks IH]; intros H; [reflexivity|].
  cbn [Lime.check_keys].
  assert (E : existsb (String.eqb k) Lime._ALLOWED_REPLY_KEYS = true).
  { apply existsb_exists. exists k. split; [apply H; now left | apply String.eqb_refl]. }
  rewrite E. cbn [negb]. apply IH. intros; apply H; now right.
Qed.

(** C7, as amended. When the body decodes to a mapping whose keys are all
    among id, result, error and jsonrpc, which has an "id" and whose "error"
    is a string [s], the adapter gives an error response with message [s]
    and code -1. *)
Theorem parse_reply_string_error
    (json_loads : string -> result pyval) (data : string)
    (rep : dict string pyval) (s : string) :
  json_loads data = Ok (PyDict rep) ->
  (forall k, In k (keys rep) -> In k Lime._ALLOWED_REPLY_KEYS) ->
  dict_mem String.eqb "id" rep = true ->
  dict_get String.eqb "error" rep = Some (PyStr s) ->
  exists i,
    dict_get String.eqb "id" rep = Some i
    /\ Lime.parse_reply_patched json_loads data
       = Ok (Lime.Error {| Lime.error := PyStr s;
                           Lime.code := Some (-1);
                           Lime._jsonrpc_error_code := PyInt (-1);
                           Lime.error_data := None;
                           Lime.error_unique_id := i |}).
Proof.
  intros Hj Hk Hid He.
  unfold dict_mem in Hid.
  destruct (dict_get String.eqb "id" rep) as [i|] eqn:Ei; [|discriminate].
  exists i. split; [reflexivity|].
  unfold Lime.parse_reply_patched. rewrite Hj.
  cbn [bind Lime.py_keys]. rewrite (check_keys_allowed _ Hk).
  cbn [bind Lime.contains Lime.getitem]. unfold dict_mem. rewrite Ei, He.
  cbn. reflexivity.
Qed.

(** The example of the specification: the reply
    {"id":1,"error":"bad creds"} decodes to code -1, message "bad creds". *)
Lemma parse_reply_string_error_witness :
  exists i,
    dict_get String.eqb "id" [("id", PyInt 1); ("error", PyStr "bad creds")]
    = Some i
    /\ Lime.parse_reply_patched Examples.json_loads Examples.bad_creds_reply
       = Ok (Lime.Error {| Lime.error := PyStr "bad creds";
                           Lime.code := Some (-1);
                           Lime._jsonrpc_error_code := PyInt (-1);
                           Lime.error_data := None;
                           Lime.error_unique_id := i |}).
Proof.
  apply (@parse_reply_string_error Examples.json_loads Examples.bad_creds_reply
           [("id", PyInt 1); ("error", PyStr "bad creds")] "bad creds").
  - vm_compute. reflexivity.
  - simpl. intros k [<-|[<-|[]]]; simpl; tauto.
  - reflexivity.
  - reflexivity.
Defined.

(** C7, the claim as worded fails when the mapping has a key outside the
    allow-list: the reply {"id":1,"error":"bad creds","debug":0} has an
    "id" and a string "error", and is refused. *)
Lemma parse_reply_extra_key :
  Examples.json_loads Examples.bad_creds_reply_extra
  = Ok (PyDict [("id", PyInt 1); ("error", PyStr "bad creds"); ("debug", PyInt 0)])
  /\ Lime.parse_reply_patched Examples.json_loads Examples.bad_creds_reply_extra
     = Raise (InvalidReplyError (KeyNotAllowed "debug")).
Proof. split; vm_compute; reflexivity. Qed.

(** X13. A reply without an "id" is refused, whatever else it holds. *)
Lemma parse_reply_missing_id
    (json_loads : string -> result pyval) (data : string)
    (rep : dict string pyval) :
  json_loads data = Ok (PyDict rep) ->
  (forall k, In k (keys rep) -> In k Lime._ALLOWED_REPLY_KEYS) ->
  dict_mem String.eqb "id" rep = false ->
  Lime.parse_reply_patched json_loads data = Raise (InvalidReplyError MissingId).
Proof.
  intros Hj Hk Hid. unfold Lime.parse_reply_patched. rewrite Hj.
  cbn [bind Lime.py_keys]. rewrite (check_keys_allowed _ Hk).
  cbn [bind Lime.contains]. now rewrite Hid.
Qed.

(** ** More on the session and the client *)

Section Authenticate.
Import Lime Requests.
Variable server : list Request -> Request -> result pyval.
Variable py_str : pyval -> string.

Lemma set_patched_true w :
  (if negb (_rpc_protocol_patched w) then set_patched true w else w)
  = set_patched true w.
Proof. destruct w as [[] s]; reflexivity. Qed.

Lemma validate_key_good a k :
  _validate_session_key (set_session_key k a) = good_key k.
Proof. destruct k as [| | |[|c s]| |]; reflexivity. Qed.

(** One run of [authenticate], spelled out. *)
Lemma authenticate_run api w :
  authenticate server py_str api w
  = match server (sent w) (auth_request api) with
    | Raise e => (Raise e, with_handles api, after_auth_request api w)
    | Ok k =>
        if good_key k
        then (Ok tt, set_authenticated true (set_session_key k (with_handles api)),
              after_auth_request api w)
        else (Raise (Exception (bad_key_message py_str api k)),
              set_session_key k (with_handles api), after_auth_request api w)
    end.
Proof.
  unfold authenticate, after_auth_request.
  cbv beta iota zeta delta [bindM get_world get_api modify_api modify_world
                            proxy_call lift ret raise].
  destruct w as [patched reqs].
  unfold auth_request, with_handles, new_client, bad_key_message.
  destruct patched;
    cbn [negb _rpc_protocol_patched rpc_proxy set_rpc_proxy set_rpc_client
         client_endpoint proxy_client sent set_patched];
    (destruct (server reqs _) as [k|e]; [|reflexivity]);
    rewrite validate_key_good; destruct (good_key k); reflexivity.
Qed.

Lemma checks_valid_session a :
  _authenticated a = true -> _validate_session_key a = true ->
  _validate_rpc_resources a = true -> Spec.valid_session a.
Proof.
  intros Ha Hk Hr. repeat split; [assumption| | |].
  - unfold _validate_session_key in Hk.
    destruct (session_key a) as [| | |[|c s]| |]; try discriminate. eauto.
  - unfold _validate_rpc_resources in Hr. destruct (rpc_client a); congruence.
  - unfold _validate_rpc_resources in Hr.
    destruct (rpc_client a); [|discriminate]. destruct (rpc_proxy a); congruence.
Qed.

Lemma good_key_inv v : good_key v = true -> exists c k, v = PyStr (String c k).
Proof. destruct v as [| | |[|c s]| |]; try discriminate. eauto. Qed.

End Authenticate.

(** X1. When the server hands out a non-empty string, [authenticate]
    returns, the session is valid and holds that string as its key, exactly
    one request (the [get_session_key] one) has been sent, and the protocol
    is patched. *)
Theorem authenticate_ok
    (server : list Lime.Request -> Lime.Request -> result pyval)
    (py_str : pyval -> string) (api : Lime.LimeAPI) (w : Lime.World)
    (c : ascii) (k : string) :
  server (Lime.sent w) (Requests.auth_request api) = Ok (PyStr (String c k)) ->
  exists api' w',
    Lime.authenticate server py_str api w = (Ok tt, api', w')
    /\ Spec.valid_session api'
    /\ Lime.session_key api' = PyStr (String c k)
    /\ Lime.sent w' = (Lime.sent w ++ [Requests.auth_request api])%list
    /\ Lime._rpc_protocol_patched w' = true.
Proof.
  intros H. rewrite authenticate_run, H. cbn [Requests.good_key].
  do 2 eexists. split; [reflexivity|].
  repeat split; try reflexivity; try discriminate. cbn. eauto.
Qed.

Lemma authenticate_ok_witness :
  exists api' w',
    Lime.authenticate Examples.server Examples.py_str
      Examples.client Examples.fresh_world = (Ok tt, api', w')
    /\ Spec.valid_session api'
    /\ Lime.session_key api' = PyStr "k3y"
    /\ Lime.sent w' = ([] ++ [Requests.auth_request Examples.client])%list
    /\ Lime._rpc_protocol_patched w' = true.
Proof.
  apply (@authenticate_ok Examples.server Examples.py_str Examples.client
           Examples.fresh_world "k" "3y").
  reflexivity.
Defined.

(** X2. When the answer to [get_session_key] is anything but a non-empty
    string, [authenticate] raises its exception with the url and the value;
    the value has been stored as session key all the same, and
    [_authenticated] is left as it was. *)
Theorem authenticate_bad_key
    (server : list Lime.Request -> Lime.Request -> result pyval)
    (py_str : pyval -> string) (api : Lime.LimeAPI) (w : Lime.World)
    (v : pyval) :
  server (Lime.sent w) (Requests.auth_request api) = Ok v ->
  Requests.good_key v = false ->
  exists api' w',
    Lime.authenticate server py_str api w
    = (Raise (Exception (Requests.bad_key_message py_str api v)), api', w')
    /\ Lime.session_key api' = v
    /\ Lime._authenticated api' = Lime._authenticated api
    /\ Lime.sent w' = (Lime.sent w ++ [Requests.auth_request api])%list.
Proof.
  intros H Hv. rewrite authenticate_run, H, Hv.
  do 2 eexists. split; [reflexivity|]. repeat split.
Qed.

Lemma authenticate_bad_key_witness :
  exists api' w',
    Lime.authenticate MoreExamples.refusing_server Examples.py_str
      MoreExamples.session MoreExamples.session_world
    = (Raise (Exception
                (Requests.bad_key_message Examples.py_str MoreExamples.session
                   (PyDict [("status", PyStr "Invalid user name or password")]))),
       api', w')
    /\ Lime.session_key api'
       = PyDict [("status", PyStr "Invalid user name or password")]
    /\ Lime._authenticated api' = Lime._authenticated MoreExamples.session
    /\ Lime.sent w'
       = (Lime.sent MoreExamples.session_world
          ++ [Requests.auth_request MoreExamples.session])%list.
Proof.
  apply (@authenticate_bad_key MoreExamples.refusing_server Examples.py_str
           MoreExamples.session MoreExamples.session_world
           (PyDict [("status", PyStr "Invalid user name or password")])).
  - reflexivity.
  - reflexivity.
Defined.

(** When the [get_session_key] call itself raises, [authenticate] lets
    the exception through; the new handles are installed, the session key
    and [_authenticated] are as before. *)
Theorem authenticate_call_fails
    (server : list Lime.Request -> Lime.Request -> result pyval)
    (py_str : pyval -> string) (api : Lime.LimeAPI) (w : Lime.World)
    (e : exn) :
  server (Lime.sent w) (Requests.auth_request api) = Raise e ->
  exists api' w',
    Lime.authenticate server py_str api w = (Raise e, api', w')
    /\ Lime.session_key api' = Lime.session_key api
    /\ Lime._authenticated api' = Lime._authenticated api
    /\ Lime.rpc_client api' = Some (Requests.new_client api)
    /\ Lime.rpc_proxy api'
       = Some {| Lime.proxy_client := Requests.new_client api |}.
Proof.
  intros H. rewrite authenticate_run, H.
  do 2 eexists. split; [reflexivity|]. repeat split.
Qed.

Lemma authenticate_call_fails_witness :
  exists api' w',
    Lime.authenticate MoreExamples.dead_server Examples.py_str
      Examples.client Examples.fresh_world
    = (Raise (RPCError "connection refused"), api', w')
    /\ Lime.session_key api' = Lime.session_key Examples.client
    /\ Lime._authenticated api' = Lime._authenticated Examples.client
    /\ Lime.rpc_client api' = Some (Requests.new_client Examples.client)
    /\ Lime.rpc_proxy api'
       = Some {| Lime.proxy_client := Requests.new_client Examples.client |}.
Proof.
  apply (@authenticate_call_fails MoreExamples.dead_server Examples.py_str
           Examples.client Examples.fresh_world (RPCError "connection refused")).
  reflexivity.
Defined.

(** X3. Whenever the check before a call returns, the session it leaves is
    valid, and it has sent nothing or the one [get_session_key] request. *)
Theorem validate_auth_post
    (server : list Lime.Request -> Lime.Request -> result pyval)
    (py_str : pyval -> string) (api api' : Lime.LimeAPI) (w w' : Lime.World) :
  Lime._validate_auth server py_str api w = (Ok tt, api', w') ->
  Spec.valid_session api'
  /\ ((api' = api /\ w' = w)
      \/ Lime.sent w' = (Lime.sent w ++ [Requests.auth_request api])%list).
Proof.
  assert (A : Lime.authenticate server py_str api w = (Ok tt, api', w') ->
              Spec.valid_session api'
              /\ ((api' = api /\ w' = w)
                  \/ Lime.sent w' = (Lime.sent w ++ [Requests.auth_request api])%list)).
  { rewrite authenticate_run.
    destruct (server _ _) as [k|e]; [|discriminate].
    destruct (Requests.good_key k) eqn:Hk; [|discriminate].
    intros [= <- <-]. split; [|now right].
    destruct (good_key_inv _ Hk) as (c & s & ->).
    repeat split; try reflexivity; try discriminate. cbn. eauto. }
  unfold Lime._validate_auth, Lime.bindM, Lime.get_api.
  destruct (Lime._authenticated api) eqn:Ha; cbn [negb]; [|exact A].
  destruct (Lime._validate_session_key api) eqn:Hk; cbn [negb]; [|exact A].
  destruct (Lime._validate_rpc_resources api) eqn:Hr; cbn [negb]; [|exact A].
  intros [= <- <-]. split; [now apply checks_valid_session | now left].
Qed.

Lemma validate_auth_post_witness :
  Spec.valid_session
    (snd (fst (Lime._validate_auth Examples.server Examples.py_str
                 Examples.client Examples.fresh_world)))
  /\ ((snd (fst (Lime._validate_auth Examples.server Examples.py_str
                   Examples.client Examples.fresh_world)) = Examples.client
       /\ snd (Lime._validate_auth Examples.server Examples.py_str
                 Examples.client Examples.fresh_world) = Examples.fresh_world)
      \/ Lime.sent (snd (Lime._validate_auth Examples.server Examples.py_str
                           Examples.client Examples.fresh_world))
         = (Lime.sent Examples.fresh_world
            ++ [Requests.auth_request Examples.client])%list).
Proof.
  apply (@validate_auth_post Examples.server Examples.py_str Examples.client
           (snd (fst (Lime._validate_auth Examples.server Examples.py_str
                        Examples.client Examples.fresh_world)))
           Examples.fresh_world
           (snd (Lime._validate_auth Examples.server Examples.py_str
                   Examples.client Examples.fresh_world))).
  reflexivity.
Defined.

(** [request_ctx] unfolded: the check, then the block. *)
Lemma request_ctx_run
    (A : Type)
    (server : list Lime.Request -> Lime.Request -> result pyval)
    (py_str : pyval -> string) (endpoint : string) (body : Lime.M A)
    (api : Lime.LimeAPI) (w : Lime.World) :
  Lime.request_ctx server py_str endpoint body api w
  = match Lime._validate_auth server py_str api w with
    | (Ok _, api', w') => body api' w'
    | (Raise e, api', w') => (Raise e, api', w')
    end.
Proof.
  unfold Lime.request_ctx, Lime.try_except, Lime.bindM.
  destruct (Lime._validate_auth server py_str api w) as [[[[]|e] api'] w'];
    [|reflexivity].
  destruct (body api' w') as [[[v|e] api''] w'']; reflexivity.
Qed.

Section Operations.
Import Lime Requests.
Variable server : list Request -> Request -> result pyval.
Variable py_str : pyval -> string.

(** A call through the proxy, in a block of [request_ctx], on a valid
    session. *)
Lemma request_ctx_call (endpoint m : string)
    (ps : LimeAPI -> list (string * pyval)) api w p :
  Spec.valid_session api -> rpc_proxy api = Some p ->
  request_ctx server py_str endpoint
    (bindM get_api (fun a => proxy_call server m (ps a))) api w
  = (server (sent w) (request_via p m (ps api)), api,
     record_request (request_via p m (ps api)) w).
Proof.
  intros Hv Hp. rewrite request_ctx_run, (validate_auth_valid server py_str w Hv).
  cbv beta iota zeta delta [bindM get_api proxy_call get_world modify_world lift].
  rewrite Hp. unfold request_via.
  destruct (server _ _); reflexivity.
Qed.

End Operations.

(** X5. On a valid session each of the three read operations with a
    survey id sends exactly one request, its own, carrying the session key,
    and returns or raises what that call returns or raises; the instance is
    not changed. *)
Theorem read_operations_one_request
    (server : list Lime.Request -> Lime.Request -> result pyval)
    (py_str : pyval -> string) (api : Lime.LimeAPI) (w : Lime.World)
    (p : Lime.RPCProxy) (survey_id : Z) (group_id : option Z)
    (language : option string) :
  Spec.valid_session api -> Lime.rpc_proxy api = Some p ->
  let run (m : string) (ps : list (string * pyval)) :=
    (server (Lime.sent w) (Requests.request_via p m ps), api,
     Lime.record_request (Requests.request_via p m ps) w) in
  Lime.list_questions server py_str survey_id group_id language api w
  = run "list_questions"
        [("sSessionKey", Lime.session_key api); ("iSurveyID", PyInt survey_id);
         ("iGroupId", Lime.opt_int group_id);
         ("sLanguage", Lime.opt_str language)]
  /\ Lime.get_language_properties server py_str survey_id api w
     = run "get_language_properties"
           [("sSessionKey", Lime.session_key api); ("iSurveyID", PyInt survey_id);
            ("aSurveyLocaleSettings", PyNone); ("sLang", PyNone)]
  /\ Lime.get_survey_properties server py_str survey_id api w
     = run "get_survey_properties"
           [("sSessionKey", Lime.session_key api); ("iSurveyID", PyInt survey_id);
            ("aSurveyLocaleSettings", PyNone); ("sLang", PyNone)].
Proof.
  intros Hv Hp run. subst run. cbv beta.
  unfold Lime.list_questions, Lime.get_language_properties,
    Lime.get_survey_properties.
  repeat split;
    match goal with
    | |- Lime.request_ctx _ _ ?e (Lime.bindM _ (fun a => Lime.proxy_call _ ?m (@?ps a))) _ _ = _ =>
        exact (request_ctx_call server py_str e m ps w Hv Hp)
    end.
Qed.

Lemma read_operations_one_request_witness :
  Lime.list_questions Examples.server Examples.py_str 42 None None
    MoreExamples.session MoreExamples.session_world
  = (Ok PyNone, MoreExamples.session,
     Lime.record_request
       (Requests.request_via
          {| Lime.proxy_client := Requests.new_client Examples.client |}
          "list_questions"
          [("sSessionKey", PyStr "k3y"); ("iSurveyID", PyInt 42);
           ("iGroupId", PyNone); ("sLanguage", PyNone)])
       MoreExamples.session_world).
Proof.
  refine (proj1 (@read_operations_one_request Examples.server Examples.py_str
                   MoreExamples.session MoreExamples.session_world
                   {| Lime.proxy_client := Requests.new_client Examples.client |}
                   42 None None _ _)).
  - repeat split; try (vm_compute; discriminate). vm_compute. eauto.
  - reflexivity.
Defined.

(** X6. [list_surveys] on a valid session asks for the surveys of the given
    user, and for those of the client's own user when no user or an empty
    one is given. *)
Theorem list_surveys_user
    (server : list Lime.Request -> Lime.Request -> result pyval)
    (py_str : pyval -> string) (api : Lime.LimeAPI) (w : Lime.World)
    (p : Lime.RPCProxy) (c : ascii) (u : string) :
  Spec.valid_session api -> Lime.rpc_proxy api = Some p ->
  let run (user : string) :=
    let req := Requests.request_via p "list_surveys"
                 [("sSessionKey", Lime.session_key api); ("sUser", PyStr user)] in
    (server (Lime.sent w) req, api, Lime.record_request req w) in
  Lime.list_surveys server py_str (Some (String c u)) api w = run (String c u)
  /\ Lime.list_surveys server py_str (Some EmptyString) api w
     = run (Lime.username api)
  /\ Lime.list_surveys server py_str None api w = run (Lime.username api).
Proof.
  intros Hv Hp run. subst run. cbv beta zeta. unfold Lime.list_surveys.
  repeat split;
    match goal with
    | |- Lime.request_ctx _ _ ?e (Lime.bindM _ (fun a => Lime.proxy_call _ ?m (@?ps a))) _ _ = _ =>
        exact (request_ctx_call server py_str e m ps w Hv Hp)
    end.
Qed.

Lemma list_surveys_user_witness :
  Lime.list_surveys Examples.server Examples.py_str (Some EmptyString)
    MoreExamples.session MoreExamples.session_world
  = (Ok PyNone, MoreExamples.session,
     Lime.record_request
       (Requests.request_via
          {| Lime.proxy_client := Requests.new_client Examples.client |}
          "list_surveys"
          [("sSessionKey", PyStr "k3y"); ("sUser", PyStr "admin")])
       MoreExamples.session_world).
Proof.
  refine (proj1 (proj2 (@list_surveys_user Examples.server Examples.py_str
                   MoreExamples.session MoreExamples.session_world
                   {| Lime.proxy_client := Requests.new_client Examples.client |}
                   "x" EmptyString _ _))).
  - repeat split; try (vm_compute; discriminate). vm_compute. eauto.
  - reflexivity.
Defined.

(** ** More on exporting responses *)

Section ExportRun.
Import Lime Requests.
Variable server : list Request -> Request -> result pyval.
Variable b64decode : pyval -> result string.
Variable decode_utf8 : string -> result string.
Variable json_loads : string -> result pyval.
Variable py_str : pyval -> string.

(** One run of [export_responses] after a check that returned. *)
Lemma export_responses_run survey_id language_code completion_status
    heading_type response_type from_response_id to_response_id fields
    api w api' w' p :
  _validate_auth server py_str api w = (Ok tt, api', w') ->
  rpc_proxy api' = Some p ->
  let req := request_via p "export_responses"
               (export_params api' survey_id language_code completion_status
                  heading_type response_type from_response_id to_response_id
                  fields) in
  export_responses server b64decode decode_utf8 json_loads py_str
    survey_id language_code completion_status heading_type response_type
    from_response_id to_response_id fields api w
  = (doc <- server (sent w') req ;;
     result_json <- decode_document b64decode decode_utf8 json_loads doc ;;
     result_json <- getitem result_json "responses" ;;
     collect_rows result_json,
     api', record_request req w').
Proof.
  intros Hv Hp req. subst req. unfold export_responses.
  rewrite request_ctx_run, Hv.
  cbv beta iota zeta delta [bindM get_api proxy_call get_world modify_world
                            lift ret]. rewrite Hp.
  unfold request_via, decode_document.
  destruct (server _ _) as [doc|e]; cbn [bind]; [|reflexivity].
  destruct (b64decode doc) as [bytes|e]; cbn [bind]; [|reflexivity].
  destruct (decode_utf8 bytes) as [text|e]; cbn [bind]; [|reflexivity].
  destruct (json_loads text) as [j|e]; cbn [bind]; [|reflexivity].
  destruct (getitem j "responses") as [r|e]; cbn [bind]; reflexivity.
Qed.

End ExportRun.

(** X7. Whatever the export call or the decoding of its answer raises
    leaves [export_responses] unchanged; by then the request has been sent,
    and the session is the one the check left. *)
Theorem export_responses_failure
    (server : list Lime.Request -> Lime.Request -> result pyval)
    (b64decode : pyval -> result string)
    (decode_utf8 : string -> result string)
    (json_loads : string -> result pyval)
    (py_str : pyval -> string)
    (survey_id : Z) (language_code : option string)
    (completion_status heading_type response_type : string)
    (from_response_id to_response_id : option Z) (fields : pyval)
    (api api' : Lime.LimeAPI) (w w' : Lime.World) (p : Lime.RPCProxy)
    (e : exn) :
  let req :=
    Requests.request_via p "export_responses"
      (Lime.export_params api' survey_id language_code completion_status
         heading_type response_type from_response_id to_response_id fields) in
  Lime._validate_auth server py_str api w = (Ok tt, api', w') ->
  Lime.rpc_proxy api' = Some p ->
  (server (Lime.sent w') req = Raise e
   \/ exists doc, server (Lime.sent w') req = Ok doc
                  /\ Requests.decode_document b64decode decode_utf8 json_loads doc
                     = Raise e) ->
  Lime.export_responses server b64decode decode_utf8 json_loads py_str
    survey_id language_code completion_status heading_type response_type
    from_response_id to_response_id fields api w
  = (Raise e, api', Lime.record_request req w').
Proof.
  intros req Hv Hp H. subst req.
  rewrite (@export_responses_run server b64decode decode_utf8 json_loads py_str
             survey_id language_code completion_status heading_type
             response_type from_response_id to_response_id fields
             api w api' w' p Hv Hp).
  cbv zeta. destruct H as [H|(doc & H & Hd)]; rewrite H; cbn [bind];
    [|rewrite Hd]; reflexivity.
Qed.

Lemma export_responses_failure_witness :
  Lime.export_responses MoreExamples.dead_server Examples.b64decode
    Examples.decode_utf8 Examples.json_loads Examples.py_str
    42 None "all" "code" "long" None None PyNone
    MoreExamples.session MoreExamples.session_world
  = (Raise (RPCError "connection refused"), MoreExamples.session,
     Lime.record_request
       (Requests.request_via
          {| Lime.proxy_client := Requests.new_client Examples.client |}
          "export_responses"
          (Lime.export_params MoreExamples.session 42 None "all" "code" "long"
             None None PyNone))
       MoreExamples.session_world).
Proof.
  apply (@export_responses_failure MoreExamples.dead_server Examples.b64decode
           Examples.decode_utf8 Examples.json_loads Examples.py_str
           42 None "all" "code" "long" None None PyNone
           MoreExamples.session MoreExamples.session
           MoreExamples.session_world MoreExamples.session_world
           {| Lime.proxy_client := Requests.new_client Examples.client |}
           (RPCError "connection refused")).
  - reflexivity.
  - reflexivity.
  - left. reflexivity.
Defined.

(** X8. When the decoded document is a mapping without a "responses"
    entry, [export_responses] raises [KeyError]; no empty list stands in for
    the missing rows. *)
Theorem export_responses_no_responses
    (server : list Lime.Request -> Lime.Request -> result pyval)
    (b64decode : pyval -> result string)
    (decode_utf8 : string -> result string)
    (json_loads : string -> result pyval)
    (py_str : pyval -> string)
    (survey_id : Z) (language_code : option string)
    (completion_status heading_type response_type : string)
    (from_response_id to_response_id : option Z) (fields : pyval)
    (api api' : Lime.LimeAPI) (w w' : Lime.World) (p : Lime.RPCProxy)
    (doc : pyval) (body : dict string pyval) :
  let req :=
    Requests.request_via p "export_responses"
      (Lime.export_params api' survey_id language_code completion_status
         heading_type response_type from_response_id to_response_id fields) in
  Lime._validate_auth server py_str api w = (Ok tt, api', w') ->
  Lime.rpc_proxy api' = Some p ->
  server (Lime.sent w') req = Ok doc ->
  Requests.decode_document b64decode decode_utf8 json_loads doc
  = Ok (PyDict body) ->
  dict_mem String.eqb "responses" body = false ->
  Lime.export_responses server b64decode decode_utf8 json_loads py_str
    survey_id language_code completion_status heading_type response_type
    from_response_id to_response_id fields api w
  = (Raise (KeyError "responses"), api', Lime.record_request req w').
Proof.
  intros req Hv Hp Hs Hd Hm. subst req.
  rewrite (@export_responses_run server b64decode decode_utf8 json_loads py_str
             survey_id language_code completion_status heading_type
             response_type from_response_id to_response_id fields
             api w api' w' p Hv Hp).
  cbv zeta. rewrite Hs. cbn [bind]. rewrite Hd. cbn [bind Lime.getitem].
  unfold dict_mem in Hm.
  destruct (dict_get String.eqb "responses" body); [discriminate | reflexivity].
Qed.

(** The answer "e30=" is the base64 of the empty JSON object. *)
Lemma export_responses_no_responses_witness :
  Lime.export_responses (fun _ _ => Ok (PyStr "e30=")) Examples.b64decode
    Examples.decode_utf8 Examples.json_loads Examples.py_str
    42 None "all" "code" "long" None None PyNone
    MoreExamples.session MoreExamples.session_world
  = (Raise (KeyError "responses"), MoreExamples.session,
     Lime.record_request
       (Requests.request_via
          {| Lime.proxy_client := Requests.new_client Examples.client |}
          "export_responses"
          (Lime.export_params MoreExamples.session 42 None "all" "code" "long"
             None None PyNone))
       MoreExamples.session_world).
Proof.
  apply (@export_responses_no_responses (fun _ _ => Ok (PyStr "e30="))
           Examples.b64decode
           Examples.decode_utf8 Examples.json_loads Examples.py_str
           42 None "all" "code" "long" None None PyNone
           MoreExamples.session MoreExamples.session
           MoreExamples.session_world MoreExamples.session_world
           {| Lime.proxy_client := Requests.new_client Examples.client |}
           (PyStr "e30=") []).
  - reflexivity.
  - reflexivity.
  - reflexivity.
  - vm_compute. reflexivity.
  - reflexivity.
Defined.

(** The rows of a list of mappings are the values of the mappings,
    one after the other in the order of the document: a mapping with several
    ids gives several rows, an empty one gives none. *)
Theorem collect_rows_concat (ms : list (dict string pyval)) :
  Lime.collect_rows (PyList (map PyDict ms)) = Ok (concat (map (@values _ _) ms)).
Proof.
  unfold Lime.collect_rows, Lime.py_iter. cbn [bind].
  assert (H : forall acc,
             foldM (fun rows id_survey_map =>
                      vs <- Lime.py_values id_survey_map ;; Ok (rows ++ vs)%list)
                   (map PyDict ms) acc
             = Ok (acc ++ concat (map (@values _ _) ms))%list).
  { induction ms as [|m ms IH]; intros acc; cbn [map foldM concat].
    - now rewrite app_nil_r.
    - cbn [Lime.py_values bind]. rewrite IH. now rewrite <- app_assoc. }
  apply H.
Qed.

(** X9. As soon as one element of the "responses" list is not a mapping,
    no rows are returned: the loop raises [AttributeError]. *)
Theorem collect_rows_not_mapping (l : list pyval) (x : pyval) :
  In x l -> Requests.is_dict x = false ->
  Lime.collect_rows (PyList l) = Raise (AttributeError "values").
Proof.
  intros Hin Hx. unfold Lime.collect_rows, Lime.py_iter. cbn [bind].
  generalize (@nil pyval).
  induction l as [|y l IH]; intros acc; [destruct Hin|].
  cbn [foldM]. destruct Hin as [->|Hin].
  - destruct x; try discriminate; reflexivity.
  - destruct y; cbn [Lime.py_values bind]; try reflexivity. now apply IH.
Qed.

Lemma collect_rows_not_mapping_witness :
  Lime.collect_rows
    (PyList [PyDict [("1", PyDict [("id", PyInt 1)])]; PyStr "oops"])
  = Raise (AttributeError "values").
Proof.
  apply (@collect_rows_not_mapping _ (PyStr "oops")).
  - right. now left.
  - reflexivity.
Defined.

(** ** More on the protocol adapter *)

Section Reply.
Import Lime Requests.
Variable json_loads : string -> result pyval.

(** The adapter on a mapping whose keys are allowed and which has an id. *)
Lemma parse_reply_mapping data rep i :
  json_loads data = Ok (PyDict rep) ->
  (forall k, In k (keys rep) -> In k _ALLOWED_REPLY_KEYS) ->
  dict_get String.eqb "id" rep = Some i ->
  parse_reply_patched json_loads data
  = match dict_get String.eqb "error" rep with
    | None | Some PyNone =>
        Ok (Success {| result_ := get_or_none rep "result"; unique_id := i |})
    | Some (PyStr s) =>
        Ok (Error {| error := PyStr s; code := Some (-1);
                     _jsonrpc_error_code := PyInt (-1);
                     error_data := None; error_unique_id := i |})
    | Some v =>
        message <- getitem v "message" ;;
        c <- getitem v "code" ;;
        Ok (Error {| error := message; code := None; _jsonrpc_error_code := c;
                     error_data := match v with
                                   | PyDict err => dict_get String.eqb "data" err
                                   | _ => None
                                   end;
                     error_unique_id := i |})
    end.
Proof.
  intros Hj Hk Hi. unfold parse_reply_patched. rewrite Hj.
  cbn [bind py_keys]. rewrite (check_keys_allowed _ Hk).
  cbn [bind contains getitem]. unfold dict_mem, get_or_none. rewrite Hi.
  cbn [negb]. destruct (dict_get String.eqb "error" rep) as [v|] eqn:He.
  - destruct v as [|b|z|s|l|err]; cbn; try reflexivity.
    + destruct (dict_get String.eqb "result" rep); reflexivity.
    + unfold dict_mem.
      destruct (dict_get String.eqb "message" err); cbn; [|reflexivity].
      destruct (dict_get String.eqb "code" err); cbn; [|reflexivity].
      destruct (dict_get String.eqb "data" err); reflexivity.
  - cbn. destruct (dict_get String.eqb "result" rep); reflexivity.
Qed.

End Reply.

(** X10. A mapping with allowed keys and an id, whose error is absent or
    null, decodes to a success response that carries the id and the result,
    the result being null when the mapping has none. *)
Theorem parse_reply_success
    (json_loads : string -> result pyval) (data : string)
    (rep : dict string pyval) (i : pyval) :
  json_loads data = Ok (PyDict rep) ->
  (forall k, In k (keys rep) -> In k Lime._ALLOWED_REPLY_KEYS) ->
  dict_get String.eqb "id" rep = Some i ->
  (dict_get String.eqb "error" rep = None
   \/ dict_get String.eqb "error" rep = Some PyNone) ->
  Lime.parse_reply_patched json_loads data
  = Ok (Lime.Success {| Lime.result_ := Requests.get_or_none rep "result";
                        Lime.unique_id := i |}).
Proof.
  intros Hj Hk Hi He. rewrite (parse_reply_mapping json_loads data Hj Hk Hi).
  destruct He as [-> | ->]; reflexivity.
Qed.

Lemma parse_reply_success_witness :
  Lime.parse_reply_patched
    (fun _ => Ok (PyDict [("id", PyInt 7); ("error", PyNone)])) "{}"
  = Ok (Lime.Success {| Lime.result_ := PyNone; Lime.unique_id := PyInt 7 |}).
Proof.
  apply (@parse_reply_success _ "{}" [("id", PyInt 7); ("error", PyNone)]).
  - reflexivity.
  - simpl. intros k [<-|[<-|[]]]; simpl; tauto.
  - reflexivity.
  - right. reflexivity.
Defined.

(** X11. A reply that decodes to a mapping with allowed keys only and with
    an id, and whose error is a mapping with a message and a code, is
    parsed to an error response with that message and that code, and with
    the data when the error has some; the id is carried over. *)
Theorem parse_reply_structured_error
    (json_loads : string -> result pyval) (data : string)
    (rep err : dict string pyval) (i message c : pyval) :
  json_loads data = Ok (PyDict rep) ->
  (forall k, In k (keys rep) -> In k Lime._ALLOWED_REPLY_KEYS) ->
  dict_get String.eqb "id" rep = Some i ->
  dict_get String.eqb "error" rep = Some (PyDict err) ->
  dict_get String.eqb "message" err = Some message ->
  dict_get String.eqb "code" err = Some c ->
  Lime.parse_reply_patched json_loads data
  = Ok (Lime.Error {| Lime.error := message; Lime.code := None;
                      Lime._jsonrpc_error_code := c;
                      Lime.error_data := dict_get String.eqb "data" err;
                      Lime.error_unique_id := i |}).
Proof.
  intros Hj Hk Hi He Hm Hc. rewrite (parse_reply_mapping json_loads data Hj Hk Hi).
  rewrite He. cbn [Lime.getitem]. now rewrite Hm, Hc.
Qed.

Lemma parse_reply_structured_error_witness :
  Lime.parse_reply_patched
    (fun _ => Ok (PyDict [("id", PyInt 7);
                          ("error", PyDict [("code", PyInt (-32601));
                                            ("message", PyStr "no such method")])]))
    "{}"
  = Ok (Lime.Error {| Lime.error := PyStr "no such method"; Lime.code := None;
                      Lime._jsonrpc_error_code := PyInt (-32601);
                      Lime.error_data := None;
                      Lime.error_unique_id := PyInt 7 |}).
Proof.
  apply (@parse_reply_structured_error _ "{}"
           [("id", PyInt 7);
            ("error", PyDict [("code", PyInt (-32601));
                              ("message", PyStr "no such method")])]
           [("code", PyInt (-32601)); ("message", PyStr "no such method")]).
  - reflexivity.
  - simpl. intros k [<-|[<-|[]]]; simpl; tauto.
  - reflexivity.
  - reflexivity.
  - reflexivity.
  - reflexivity.
Defined.

(** An error that is neither null nor a string, and from which the
    message or the code cannot be read (a number, a list, a mapping without
    "message" or "code"), makes the adapter raise the [TypeError] or
    [KeyError] of that lookup, not [InvalidReplyError]. *)
Theorem parse_reply_malformed_error
    (json_loads : string -> result pyval) (data : string)
    (rep : dict string pyval) (i v : pyval) (e : exn) :
  json_loads data = Ok (PyDict rep) ->
  (forall k, In k (keys rep) -> In k Lime._ALLOWED_REPLY_KEYS) ->
  dict_get String.eqb "id" rep = Some i ->
  dict_get String.eqb "error" rep = Some v ->
  is_none v = false -> is_str v = false ->
  (Lime.getitem v "message" = Raise e
   \/ exists m, Lime.getitem v "message" = Ok m
                /\ Lime.getitem v "code" = Raise e) ->
  Lime.parse_reply_patched json_loads data = Raise e.
Proof.
  intros Hj Hk Hi He Hn Hs H. rewrite (parse_reply_mapping json_loads data Hj Hk Hi).
  rewrite He. destruct v; try discriminate;
    (destruct H as [H|(m & Hm & H)]; [rewrite H | rewrite Hm; cbn [bind]; rewrite H]);
    reflexivity.
Qed.

Lemma parse_reply_malformed_error_witness :
  Lime.parse_reply_patched
    (fun _ => Ok (PyDict [("id", PyInt 7);
                          ("error", PyDict [("code", PyInt 1)])])) "{}"
  = Raise (KeyError "message").
Proof.
  apply (@parse_reply_malformed_error _ "{}"
           [("id", PyInt 7); ("error", PyDict [("code", PyInt 1)])]
           (PyInt 7) (PyDict [("code", PyInt 1)])).
  - reflexivity.
  - simpl. intros k [<-|[<-|[]]]; simpl; tauto.
  - reflexivity.
  - reflexivity.
  - reflexivity.
  - reflexivity.
  - left. reflexivity.
Defined.

Lemma check_keys_first_bad (l1 l2 : list string) (k : string) :
  forallb Requests.allowed_key l1 = true -> Requests.allowed_key k = false ->
  Lime.check_keys (l1 ++ k :: l2) = Raise (InvalidReplyError (KeyNotAllowed k)).
Proof.
  intros H1 Hk. induction l1 as [|a l1 IH]; cbn [app Lime.check_keys].
  - unfold Requests.allowed_key in Hk. now rewrite Hk.
  - cbn [forallb] in H1. apply andb_prop in H1 as [Ha H1].
    unfold Requests.allowed_key in Ha. rewrite Ha. cbn [negb]. now apply IH.
Qed.

(** X12. The key check comes first: the first key outside the allow-list
    is reported, whether or not the mapping has an id or an error. *)
Theorem parse_reply_key_not_allowed
    (json_loads : string -> result pyval) (data : string)
    (rep : dict string pyval) (l1 l2 : list string) (k : string) :
  json_loads data = Ok (PyDict rep) ->
  keys rep = (l1 ++ k :: l2)%list ->
  forallb Requests.allowed_key l1 = true ->
  Requests.allowed_key k = false ->
  Lime.parse_reply_patched json_loads data
  = Raise (InvalidReplyError (KeyNotAllowed k)).
Proof.
  intros Hj Hr H1 Hk. unfold Lime.parse_reply_patched. rewrite Hj.
  cbn [bind Lime.py_keys]. rewrite Hr, (@check_keys_first_bad l1 l2 k H1 Hk).
  reflexivity.
Qed.

Lemma parse_reply_key_not_allowed_witness :
  Lime.parse_reply_patched
    (fun _ => Ok (PyDict [("result", PyInt 1); ("debug", PyInt 0);
                          ("trace", PyInt 0)])) "{}"
  = Raise (InvalidReplyError (KeyNotAllowed "debug")).
Proof.
  apply (@parse_reply_key_not_allowed _ "{}"
           [("result", PyInt 1); ("debug", PyInt 0); ("trace", PyInt 0)]
           ["result"] ["trace"] "debug"); reflexivity.
Defined.

Lemma parse_reply_missing_id_witness :
  Lime.parse_reply_patched (fun _ => Ok (PyDict [("result", PyInt 1)])) "{}"
  = Raise (InvalidReplyError MissingId).
Proof.
  apply (@parse_reply_missing_id _ "{}" [("result", PyInt 1)]).
  - reflexivity.
  - simpl. intros k [<-|[]]; simpl; tauto.
  - reflexivity.
Defined.

(** A body that is not JSON is refused with [InvalidReplyError]
    whatever [json.loads] raised; a body that is JSON but not a mapping (a
    list, a number, a string) gets past that and fails on [keys] with
    [AttributeError]. *)
Theorem parse_reply_not_mapping
    (json_loads : string -> result pyval) (data : string) :
  match json_loads data with
  | Ok (PyDict _) => False
  | _ => True
  end ->
  Lime.parse_reply_patched json_loads data
  = Raise (match json_loads data with
           | Raise _ => InvalidReplyError NotJSON
           | Ok _ => AttributeError "keys"
           end).
Proof.
  unfold Lime.parse_reply_patched.
  destruct (json_loads data) as [[]|e]; intros H; (reflexivity || destruct H).
Qed.

Lemma parse_reply_not_mapping_witness :
  Lime.parse_reply_patched Examples.json_loads "[1, 2]"
  = Raise (AttributeError "keys").
Proof.
  apply (@parse_reply_not_mapping Examples.json_loads "[1, 2]").
  vm_compute. exact I.
Defined.

(** ** The endpoint and the constructor *)

Lemma rstrip_slash_app (s : string) :
  Lime.rstrip_slash (s ++ "/") = Lime.rstrip_slash s.
Proof.
  induction s as [|c s IH]; [reflexivity|].
  cbn [append Lime.rstrip_slash]. now rewrite IH.
Qed.

(** X14. A trailing slash on the configured url does not change the
    endpoint. *)
Theorem remote_api_url_trailing_slash (a b : Lime.LimeAPI) :
  Lime.url b = Lime.url a ++ "/" ->
  Lime.remote_api_url b = Lime.remote_api_url a.
Proof.
  intros H. unfold Lime.remote_api_url. now rewrite H, rstrip_slash_app.
Qed.

Lemma remote_api_url_trailing_slash_witness :
  Lime.remote_api_url Examples.client
  = Lime.remote_api_url
      {| Lime.url := "https://lime.example"; Lime.username := "admin";
         Lime.password := "secret"; Lime.headers := Lime._default_headers;
         Lime.session_key := PyNone; Lime.rpc_client := None;
         Lime.rpc_proxy := None; Lime._authenticated := false |}.
Proof.
  apply remote_api_url_trailing_slash. reflexivity.
Defined.

(** X15. The constructor raises [EnvironmentError] exactly when the url,
    the user name or the password is missing. With the three of them given
    it returns a client: one that keeps the three settings, has the headers
    given or else the default ones, and whose first check before a call is
    a full authentication. *)
Theorem LimeAPI_init_spec
    (server : list Lime.Request -> Lime.Request -> result pyval)
    (py_str : pyval -> string)
    (url username password : option string)
    (headers : option (list (string * string))) :
  (Lime.LimeAPI_init url username password headers = Raise EnvironmentError
   <-> url = None \/ username = None \/ password = None)
  /\ (forall u n p,
        url = Some u -> username = Some n -> password = Some p ->
        exists a,
          Lime.LimeAPI_init url username password headers = Ok a
          /\ Lime.url a = u /\ Lime.username a = n /\ Lime.password a = p
          /\ (headers = None -> Lime.headers a = Lime._default_headers)
          /\ (forall h, headers = Some h -> Lime.headers a = h)
          /\ forall w, Lime._validate_auth server py_str a w
                       = Lime.authenticate server py_str a w).
Proof.
  split.
  - unfold Lime.LimeAPI_init.
    destruct url as [u|], username as [n|], password as [p|];
      (split; [intros H; try discriminate H; auto
              | intros [H|[H|H]]; (discriminate H || reflexivity)]).
  - intros u n p -> -> ->. eexists. split; [reflexivity|].
    cbn [Lime.url Lime.username Lime.password Lime.headers].
    repeat split.
    + now intros ->.
    + now intros h ->.
Qed.

(** A constructor call without a user name raises; the call with the three
    settings returns the client. *)
Lemma LimeAPI_init_spec_witness :
  Lime.LimeAPI_init (Some "https://lime.example") None (Some "secret") None
  = Raise EnvironmentError
  /\ exists a,
       Lime.LimeAPI_init (Some "https://lime.example") (Some "admin")
         (Some "secret") None = Ok a
       /\ Lime.url a = "https://lime.example" /\ Lime.username a = "admin"
       /\ Lime.password a = "secret"
       /\ Lime.headers a = Lime._default_headers
       /\ forall w, Lime._validate_auth Examples.server Examples.py_str a w
                    = Lime.authenticate Examples.server Examples.py_str a w.
Proof.
  split.
  - apply (proj1 (@LimeAPI_init_spec Examples.server Examples.py_str
                    (Some "https://lime.example") None (Some "secret") None)).
    right. left. reflexivity.
  - destruct (proj2 (@LimeAPI_init_spec Examples.server Examples.py_str
                       (Some "https://lime.example") (Some "admin")
                       (Some "secret") None)
                _ _ _ eq_refl eq_refl eq_refl)
      as (a & Ha & Hu & Hn & Hp & Hh & _ & Hv).
    exists a. repeat split; try assumption. exact (Hh eq_refl).
Defined.

(** ** More on the question hierarchy *)

Section MoreDictFacts.
Variables (K V : Type) (eqb : K -> K -> bool).
Hypothesis eqb_eq : forall a b, eqb a b = true <-> a = b.

Lemma eqb_refl_of k : eqb k k = true.
Proof. now apply eqb_eq. Qed.

Lemma eqb_false_of a b : a <> b -> eqb a b = false.
Proof.
  intros H. destruct (eqb a b) eqn:E; [|reflexivity].
  apply eqb_eq in E. contradiction.
Qed.

Lemma keys_dict_set k v (d : dict K V) :
  keys (dict_set eqb k v d)
  = if dict_mem eqb k d then keys d else (keys d ++ [k])%list.
Proof.
  unfold dict_mem. induction d as [|[k' v'] d IH]; [reflexivity|].
  cbn [dict_set dict_get]. destruct (eqb k k') eqn:E; [reflexivity|].
  change (keys ((k', v') :: dict_set eqb k v d))
    with (k' :: keys (dict_set eqb k v d)).
  rewrite IH. destruct (dict_get eqb k d); reflexivity.
Qed.

Lemma NoDup_keys_dict_set k v (d : dict K V) :
  NoDup (keys d) -> NoDup (keys (dict_set eqb k v d)).
Proof.
  intros H. rewrite keys_dict_set. destruct (dict_mem eqb k d) eqn:E; [exact H|].
  apply NoDup_app; [exact H | repeat constructor; intros [] |].
  intros x Hx [<-|[]]. apply (dict_mem_In _ eqb_eq) in Hx. congruence.
Qed.

Lemma dict_get_set_same k v (d : dict K V) :
  dict_get eqb k (dict_set eqb k v d) = Some v.
Proof.
  induction d as [|[k' v'] d IH]; cbn [dict_set dict_get].
  - now rewrite eqb_refl_of.
  - destruct (eqb k k') eqn:E; cbn [dict_get]; rewrite E; [reflexivity | exact IH].
Qed.

Lemma dict_get_set_other k k0 v (d : dict K V) :
  k0 <> k -> dict_get eqb k0 (dict_set eqb k v d) = dict_get eqb k0 d.
Proof.
  intros Hne. induction d as [|[k' v'] d IH]; cbn [dict_set dict_get].
  - now rewrite (eqb_false_of Hne).
  - destruct (eqb k k') eqn:E; cbn [dict_get].
    + apply eqb_eq in E. subst k'. now rewrite (eqb_false_of Hne).
    + destruct (eqb k0 k'); [reflexivity | exact IH].
Qed.

Lemma dict_get_In k v (d : dict K V) : dict_get eqb k d = Some v -> In (k, v) d.
Proof.
  induction d as [|[k' v'] d IH]; cbn [dict_get]; [discriminate|].
  destruct (eqb k k') eqn:E.
  - apply eqb_eq in E. subst k'. intros [= ->]. now left.
  - intros H. right. now apply IH.
Qed.

End MoreDictFacts.

Section Indexing.
Import Question Survey Linking.

Lemma find_app_last (A : Type) (f : A -> bool) (l : list A) (x : A) :
  find f (l ++ [x])
  = match find f l with
    | Some y => Some y
    | None => if f x then Some x else None
    end.
Proof.
  induction l as [|a l IH]; cbn [app find]; [reflexivity|].
  destruct (f a); [reflexivity | exact IH].
Qed.

Let step (st : store) (q : RawQuestion) : store :=
  dict_set Z.eqb (question_id (Question_init q)) (Question_init q) st.

Lemma index_fold_get (l : list RawQuestion) (st : store) k :
  dict_get Z.eqb k (fold_left step l st)
  = match last_record k l with
    | Some r => Some (Question_init r)
    | None => dict_get Z.eqb k st
    end.
Proof.
  revert st; induction l as [|r l IH]; intros st; [reflexivity|].
  cbn [fold_left]. rewrite IH. unfold last_record. cbn [rev].
  rewrite find_app_last. destruct (find _ (rev l)); [reflexivity|].
  unfold step, question_id. cbn [data Question_init].
  destruct (Z.eqb (raw_qid r) k) eqn:E.
  - apply Z.eqb_eq in E. subst k. apply (dict_get_set_same _ Zeqb_eq).
  - apply (dict_get_set_other _ Zeqb_eq). intros ->. now rewrite Z.eqb_refl in E.
Qed.

Lemma index_fold_NoDup (l : list RawQuestion) (st : store) :
  NoDup (keys st) -> NoDup (keys (fold_left step l st)).
Proof.
  revert st; induction l as [|r l IH]; intros st H; [exact H|].
  cbn [fold_left]. apply IH. now apply (NoDup_keys_dict_set _ Zeqb_eq).
Qed.

Lemma index_questions_get raws k :
  dict_get Z.eqb k (index_questions raws)
  = option_map Question_init (last_record k raws).
Proof.
  unfold index_questions. fold step. rewrite index_fold_get.
  destruct (last_record k raws); reflexivity.
Qed.

Lemma index_questions_NoDup raws : NoDup (keys (index_questions raws)).
Proof. unfold index_questions. fold step. apply index_fold_NoDup. constructor. Qed.

Lemma last_record_some k raws r :
  last_record k raws = Some r -> In r raws /\ raw_qid r = k.
Proof.
  unfold last_record. intros H. apply find_some in H as [H1 H2].
  split; [now apply in_rev | now apply Z.eqb_eq].
Qed.

Lemma last_record_none k raws :
  last_record k raws = None -> ~ In k (map raw_qid raws).
Proof.
  unfold last_record. intros H Hin. apply in_map_iff in Hin as (r & <- & Hr).
  apply in_rev in Hr. pose proof (find_none _ _ H _ Hr) as E.
  cbv beta in E. now rewrite Z.eqb_refl in E.
Qed.

Lemma index_questions_mem raws k :
  dict_mem Z.eqb k (index_questions raws) = true <-> In k (map raw_qid raws).
Proof.
  unfold dict_mem. rewrite index_questions_get.
  destruct (last_record k raws) as [r|] eqn:E; cbn [option_map].
  - apply last_record_some in E as [Hr <-]. split; [intros _|reflexivity].
    now apply in_map.
  - apply last_record_none in E. split; [discriminate | contradiction].
Qed.

Lemma index_questions_id raws k :
  dict_mem Z.eqb k (index_questions raws) = true ->
  question_id (deref (index_questions raws) k) = k.
Proof.
  unfold dict_mem, deref. rewrite index_questions_get.
  destruct (last_record k raws) as [r|] eqn:E; cbn [option_map]; [|discriminate].
  intros _. now apply last_record_some in E as [_ <-].
Qed.

End Indexing.

Section LinkingSteps.
Import Question Survey Linking.
Variable st0 : store.
Hypothesis Hfresh : unlinked st0.
Hypothesis Hid : forall k, dict_mem Z.eqb k st0 = true ->
                           question_id (deref st0 k) = k.

Lemma linked_start : linked st0 [] st0.
Proof.
  constructor; try reflexivity.
  - intros q. apply Hfresh.
  - intros p _. apply Hfresh.
Qed.

(** The store after one turn of the loop. *)
Lemma process_store (s : Survey) (q : ref) :
  questions_by_id (process_question s q)
  = if dict_mem Z.eqb (parent_qid (deref (questions_by_id s) q)) (questions_by_id s)
    then link_parent (questions_by_id s) q
           (parent_qid (deref (questions_by_id s) q))
    else questions_by_id s.
Proof.
  unfold process_question, _create_question_group, _create_question_link.
  destruct (dict_mem Z.eqb (parent_qid _) (questions_by_id s)); [|reflexivity].
  destruct (negb _); reflexivity.
Qed.

Lemma dict_mem_by_own_id q l : dict_mem Z.eqb q (by_own_id l) = true <-> In q l.
Proof.
  rewrite (dict_mem_In _ Zeqb_eq). unfold keys, by_own_id.
  rewrite map_map. cbn [fst]. now rewrite map_id.
Qed.

Lemma naming_app st p l q :
  naming st p (l ++ [q])
  = (naming st p l ++ if Z.eqb (named_parent st q) p then [q] else [])%list.
Proof. unfold naming. rewrite filter_app. reflexivity. Qed.

Lemma linked_step (s : Survey) (done : list ref) (q : ref) :
  linked st0 done (questions_by_id s) ->
  dict_mem Z.eqb q st0 = true -> ~ In q done ->
  linked st0 (done ++ [q]) (questions_by_id (process_question s q)).
Proof.
  intros [Hm Hd Hp Hc] Hq Hnew. rewrite process_store.
  set (st := questions_by_id s) in *.
  assert (Hpq : parent_qid (deref st q) = named_parent st0 q).
  { unfold named_parent, parent_qid. now rewrite Hd. }
  assert (Hqst : dict_mem Z.eqb q st = true) by now rewrite Hm.
  assert (Hundone : existsb (Z.eqb q) done = false).
  { apply not_true_is_false. intros H. apply existsb_exists in H as (x & Hx & E).
    apply Z.eqb_eq in E. now subst x. }
  rewrite Hpq, Hm.
  destruct (dict_mem Z.eqb (named_parent st0 q) st0) eqn:Hloaded.
  - assert (Hpst : dict_mem Z.eqb (named_parent st0 q) st = true) by now rewrite Hm.
    constructor.
    + intros k. now rewrite link_mem.
    + intros k. now rewrite link_data.
    + intros x. rewrite link_parent_of by exact Hqst. rewrite existsb_app.
      cbn [existsb]. rewrite orb_false_r.
      destruct (Z.eqb x q) eqn:E.
      * apply Z.eqb_eq in E. subst x. now rewrite orb_true_r, Hloaded.
      * rewrite orb_false_r. apply Hp.
    + intros p Hpl. rewrite link_children_of by exact Hpst.
      rewrite naming_app.
      assert (Eid : question_id (deref st q) = q).
      { unfold question_id. rewrite Hd. now apply Hid. }
      rewrite Eid, (Hc p Hpl). rewrite Z.eqb_sym.
      destruct (Z.eqb (named_parent st0 q) p) eqn:E.
      * rewrite (dict_set_fresh Z.eqb).
        -- unfold by_own_id. now rewrite map_app.
        -- apply not_true_is_false. intros H. apply dict_mem_by_own_id in H.
           unfold naming in H. apply filter_In in H as [H _]. contradiction.
      * now rewrite app_nil_r.
  - constructor; try assumption.
    + intros x. rewrite existsb_app. cbn [existsb]. rewrite orb_false_r.
      destruct (Z.eqb x q) eqn:E.
      * apply Z.eqb_eq in E. subst x. rewrite orb_true_r, Hloaded. cbn [andb].
        rewrite Hp, Hundone. reflexivity.
      * rewrite orb_false_r. apply Hp.
    + intros p Hpl. rewrite naming_app, (Hc p Hpl).
      destruct (Z.eqb (named_parent st0 q) p) eqn:E; [|now rewrite app_nil_r].
      apply Z.eqb_eq in E. congruence.
Qed.

Lemma linked_all (l done : list ref) (s : Survey) :
  NoDup (done ++ l) ->
  (forall q, In q l -> dict_mem Z.eqb q st0 = true) ->
  linked st0 done (questions_by_id s) ->
  linked st0 (done ++ l) (questions_by_id (fold_left process_question l s)).
Proof.
  revert done s; induction l as [|q l IH]; intros done s Hnd Hl H.
  - now rewrite app_nil_r.
  - cbn [fold_left].
    replace (done ++ q :: l)%list with ((done ++ [q]) ++ l)%list in *
      by (now rewrite <- app_assoc).
    apply IH; [assumption | intros; apply Hl; now right |].
    apply linked_step; [assumption | apply Hl; now left |].
    intros Hin. rewrite <- app_assoc in Hnd. cbn [app] in Hnd.
    apply NoDup_remove_2 in Hnd. apply Hnd. apply in_or_app. now left.
Qed.

End LinkingSteps.

Section Loaded.
Import Question Survey Linking.
Variable raws : list RawQuestion.

Let st0 := index_questions raws.
Let st := questions_by_id (_load_questions raws).

Lemma loaded_linked : linked st0 (keys st0) st.
Proof.
  pose (s0 := {| questions_by_id := st0; questions_by_title := [];
                 question_groups_by_key := [] |}).
  change st with (questions_by_id (fold_left process_question (keys st0) s0)).
  apply (@linked_all st0 (index_questions_id raws) (keys st0) [] s0).
  - apply index_questions_NoDup.
  - intros q Hq. now apply (dict_mem_In _ Zeqb_eq).
  - apply linked_start. apply index_questions_unlinked.
Qed.

Lemma loaded_keys : keys st = keys st0.
Proof.
  destruct (@process_all_ok (keys st0)
              {| questions_by_id := st0; questions_by_title := [];
                 question_groups_by_key := [] |}) as (_ & H & _).
  - intros q Hq. now apply (dict_mem_In _ Zeqb_eq).
  - apply initial_ok.
  - exact H.
Qed.

Lemma loaded_in_keys q : dict_mem Z.eqb q st0 = true -> existsb (Z.eqb q) (keys st0) = true.
Proof. now rewrite dict_mem_keys. Qed.

End Loaded.

Section LoadedFacts.
Import Question Survey Linking.
Variable raws : list RawQuestion.

Let st := questions_by_id (_load_questions raws).

Lemma loaded_mem k : dict_mem Z.eqb k st = dict_mem Z.eqb k (index_questions raws).
Proof. apply (lk_mem (loaded_linked raws)). Qed.

Lemma loaded_named_parent q :
  named_parent (index_questions raws) q = parent_qid (deref st q).
Proof.
  unfold named_parent, parent_qid. now rewrite (lk_data (loaded_linked raws)).
Qed.

Lemma loaded_parent q :
  In q (keys st) ->
  parent (deref st q)
  = if dict_mem Z.eqb (parent_qid (deref st q)) st
    then Some (parent_qid (deref st q)) else None.
Proof.
  intros Hq. rewrite (lk_parent (loaded_linked raws)).
  rewrite loaded_named_parent, <- loaded_mem.
  rewrite <- (loaded_keys raws). fold st.
  replace (existsb (Z.eqb q) (keys st)) with true; [reflexivity|].
  symmetry. apply existsb_exists. exists q. split; [assumption | apply Z.eqb_refl].
Qed.

Lemma naming_ext (sa sb : store) p l :
  (forall q, named_parent sa q = named_parent sb q) ->
  naming sa p l = naming sb p l.
Proof.
  intros H. unfold naming. apply filter_ext. intros q. now rewrite H.
Qed.

Lemma loaded_children p :
  In p (keys st) ->
  children (deref st p) = by_own_id (naming st p (keys st)).
Proof.
  intros Hp. apply (dict_mem_In _ Zeqb_eq) in Hp. rewrite loaded_mem in Hp.
  unfold st. rewrite (lk_children (loaded_linked raws) _ Hp).
  rewrite <- (loaded_keys raws). f_equal.
  apply naming_ext. intros q. apply loaded_named_parent.
Qed.

Lemma dict_get_by_own_id q l :
  dict_get Z.eqb q (by_own_id l) = if existsb (Z.eqb q) l then Some q else None.
Proof.
  induction l as [|x l IH]; [reflexivity|].
  cbn [by_own_id map dict_get existsb]. destruct (Z.eqb q x) eqn:E; [|exact IH].
  apply Z.eqb_eq in E. now subst x.
Qed.

Lemma positive_length_filter (A : Type) (f : A -> bool) (l : list A) :
  Nat.ltb 0 (length (filter f l)) = existsb f l.
Proof.
  induction l as [|x l IH]; [reflexivity|].
  cbn [filter existsb]. destruct (f x); [reflexivity | exact IH].
Qed.

End LoadedFacts.

(** X16. [questions_by_id] holds one question per distinct question id of
    the list returned by the server; of several records with the same id the
    last one is kept; linking parents and children changes neither the set
    of questions nor their data. *)
Theorem loaded_questions_by_id (raws : list Question.RawQuestion) :
  NoDup (keys (Survey.questions_by_id (Survey._load_questions raws)))
  /\ (forall k, In k (keys (Survey.questions_by_id (Survey._load_questions raws)))
                <-> In k (map Question.raw_qid raws))
  /\ (forall k r, Linking.last_record k raws = Some r ->
        Question.data
          (Question.deref (Survey.questions_by_id (Survey._load_questions raws)) k)
        = r).
Proof.
  repeat split.
  - rewrite loaded_keys. apply index_questions_NoDup.
  - intros H. apply (dict_mem_In _ Zeqb_eq) in H. rewrite loaded_mem in H.
    now apply index_questions_mem.
  - intros H. apply (dict_mem_In _ Zeqb_eq). rewrite loaded_mem.
    now apply index_questions_mem.
  - intros k r H. rewrite (Linking.lk_data (loaded_linked raws)).
    unfold Question.deref. rewrite index_questions_get, H. reflexivity.
Qed.

Lemma loaded_questions_by_id_witness :
  Question.data
    (Question.deref
       (Survey.questions_by_id
          (Survey._load_questions
             [Examples.raw 1 0 "Q1" "old"; Examples.raw 2 1 "A" "Option A";
              Examples.raw 1 0 "Q1" "new"])) 1)
  = Examples.raw 1 0 "Q1" "new".
Proof.
  apply (proj2 (proj2 (loaded_questions_by_id
                         [Examples.raw 1 0 "Q1" "old"; Examples.raw 2 1 "A" "Option A";
                          Examples.raw 1 0 "Q1" "new"]))).
  reflexivity.
Defined.

(** X17. After loading, a question has a parent exactly when its
    [parent_qid] is the id of a loaded question, and the parent is that
    question; a [parent_qid] that names no loaded question leaves a root: no
    parent, and the plain title as display title. *)
Theorem loaded_parent_links (raws : list Question.RawQuestion) (q : Z) :
  let st := Survey.questions_by_id (Survey._load_questions raws) in
  let x := Question.deref st q in
  In q (keys st) ->
  (dict_mem Z.eqb (Question.parent_qid x) st = true ->
   Question.parent x = Some (Question.parent_qid x)
   /\ Question.title st q
      = Question._title (Question.deref st (Question.parent_qid x))
        ++ "[" ++ Question._title x ++ "]")
  /\ (dict_mem Z.eqb (Question.parent_qid x) st = false ->
      Question.parent x = None /\ Question.title st q = Question._title x).
Proof.
  intros st x Hq. subst st x. unfold Question.title.
  rewrite (loaded_parent raws q Hq).
  split; intros ->; split; reflexivity.
Qed.

Lemma loaded_parent_links_witness :
  Question.parent
    (Question.deref
       (Survey.questions_by_id
          (Survey._load_questions [Examples.raw 5 99 "Lost" "No parent loaded"]))
       5) = None
  /\ Question.title
       (Survey.questions_by_id
          (Survey._load_questions [Examples.raw 5 99 "Lost" "No parent loaded"]))
       5 = "Lost".
Proof.
  apply (proj2 (@loaded_parent_links
                  [Examples.raw 5 99 "Lost" "No parent loaded"] 5
                  (or_introl eq_refl))).
  reflexivity.
Defined.

(** X18. After loading, the children of a loaded question are exactly the
    loaded questions whose [parent_qid] is its id, in the order of
    [questions_by_id], each stored under its own id. *)
Theorem loaded_children_spec (raws : list Question.RawQuestion) (p : Z) :
  let st := Survey.questions_by_id (Survey._load_questions raws) in
  In p (keys st) ->
  Question.children (Question.deref st p)
  = Linking.by_own_id (Linking.naming st p (keys st)).
Proof. intros st Hp. now apply loaded_children. Qed.

Lemma loaded_children_spec_witness :
  Question.children
    (Question.deref (Survey.questions_by_id Examples.three) 1)
  = Linking.by_own_id
      (Linking.naming (Survey.questions_by_id Examples.three) 1
         (keys (Survey.questions_by_id Examples.three))).
Proof.
  apply (@loaded_children_spec Examples.three_questions 1).
  vm_compute. now left.
Defined.

(** X19. After loading, parent and children are reciprocal: for loaded
    questions [p] and [q], [q.parent] is [p] exactly when [p.children] holds
    [q] under the id of [q]. *)
Theorem loaded_links_reciprocal (raws : list Question.RawQuestion) (p q : Z) :
  let st := Survey.questions_by_id (Survey._load_questions raws) in
  In p (keys st) -> In q (keys st) ->
  (Question.parent (Question.deref st q) = Some p
   <-> dict_get Z.eqb q (Question.children (Question.deref st p)) = Some q).
Proof.
  intros st Hp Hq. subst st.
  rewrite (loaded_children raws p Hp), dict_get_by_own_id, (loaded_parent raws q Hq).
  set (st := Survey.questions_by_id (Survey._load_questions raws)) in *.
  pose proof Hp as Hpm. apply (dict_mem_In _ Zeqb_eq) in Hpm.
  assert (Hn : existsb (Z.eqb q) (Linking.naming st p (keys st)) = true
               <-> Question.parent_qid (Question.deref st q) = p).
  { rewrite existsb_exists. unfold Linking.naming, Linking.named_parent. split.
    - intros (x & Hx & Ex). apply Z.eqb_eq in Ex. subst x.
      apply filter_In in Hx as [_ Hx]. now apply Z.eqb_eq.
    - intros H. exists q. split; [|apply Z.eqb_refl].
      apply filter_In. split; [assumption | now apply Z.eqb_eq]. }
  remember (Question.parent_qid (Question.deref st q)) as pq.
  remember (existsb (Z.eqb q) (Linking.naming st p (keys st))) as b.
  split.
  - destruct (dict_mem Z.eqb pq st); [|discriminate]. intros [= H].
    apply Hn in H. now rewrite H.
  - destruct b; [|discriminate]. intros _.
    rewrite (proj1 Hn eq_refl), Hpm. reflexivity.
Qed.

Lemma loaded_links_reciprocal_witness :
  Question.parent (Question.deref (Survey.questions_by_id Examples.three) 3)
  = Some 1
  <-> dict_get Z.eqb 3
        (Question.children
           (Question.deref (Survey.questions_by_id Examples.three) 1))
      = Some 3.
Proof.
  apply (@loaded_links_reciprocal Examples.three_questions 1 3).
  - vm_compute. now left.
  - vm_compute. tauto.
Defined.

(** After loading, a loaded question has children exactly when some
    loaded question names it in [parent_qid]. *)
Theorem loaded_has_children (raws : list Question.RawQuestion) (p : Z) :
  let st := Survey.questions_by_id (Survey._load_questions raws) in
  In p (keys st) ->
  Question.has_children (Question.deref st p) = Spec.is_parent st p.
Proof.
  intros st Hp. subst st. unfold Question.has_children, dict_len.
  rewrite (loaded_children raws p Hp). unfold Linking.by_own_id, Linking.naming.
  rewrite length_map. apply positive_length_filter.
Qed.

Lemma loaded_has_children_witness :
  Question.has_children
    (Question.deref (Survey.questions_by_id Examples.same_title) 2)
  = Spec.is_parent (Survey.questions_by_id Examples.same_title) 2.
Proof.
  apply (@loaded_has_children Examples.same_title_parents 2).
  vm_compute. tauto.
Defined.

Section TitleIndex.
Import Question Survey Linking.

Lemma index_by_title_get (f : ref -> string) (l : list ref)
    (m : dict string ref) (t : string) :
  dict_get String.eqb t (fold_left (fun m q => dict_set String.eqb (f q) q m) l m)
  = match find (fun q => String.eqb (f q) t) (rev l) with
    | Some q => Some q
    | None => dict_get String.eqb t m
    end.
Proof.
  revert m; induction l as [|x l IH]; intros m; [reflexivity|].
  cbn [fold_left rev]. rewrite IH, find_app_last.
  destruct (find _ (rev l)); [reflexivity|].
  destruct (String.eqb (f x) t) eqn:E.
  - apply String.eqb_eq in E. subst t. apply (dict_get_set_same _ String.eqb_eq).
  - apply (dict_get_set_other _ String.eqb_eq). intros ->.
    now rewrite String.eqb_refl in E.
Qed.

Lemma titles_of_loaded raws :
  questions_by_title (_load_questions raws)
  = fold_left (fun m q =>
                 dict_set String.eqb
                   (title (questions_by_id (_load_questions raws)) q) q m)
              (keys (questions_by_id (_load_questions raws))) [].
Proof. reflexivity. Qed.

End TitleIndex.

(** X20. After loading, [questions_by_title] is an index of the loaded
    questions by display title: whatever it holds under a title is a loaded
    question with that title, every loaded question's title is a key, and
    when the display titles are pairwise distinct a question is found under
    its own title. *)
Theorem questions_by_title_index (raws : list Question.RawQuestion) :
  let s := Survey._load_questions raws in
  let st := Survey.questions_by_id s in
  (forall t q, dict_get String.eqb t (Survey.questions_by_title s) = Some q ->
               In q (keys st) /\ Question.title st q = t)
  /\ (forall q, In q (keys st) ->
                dict_mem String.eqb (Question.title st q)
                  (Survey.questions_by_title s) = true)
  /\ (Linking.distinct_display_titles st ->
      forall q, In q (keys st) ->
                dict_get String.eqb (Question.title st q)
                  (Survey.questions_by_title s) = Some q).
Proof.
  intros s st. subst s st. rewrite titles_of_loaded.
  set (st := Survey.questions_by_id (Survey._load_questions raws)).
  assert (A : forall t q,
             find (fun q => String.eqb (Question.title st q) t) (rev (keys st))
             = Some q -> In q (keys st) /\ Question.title st q = t).
  { intros t q H. apply find_some in H as [H1 H2].
    split; [now apply in_rev | now apply String.eqb_eq]. }
  assert (B : forall q, In q (keys st) ->
             exists q', find (fun x => String.eqb (Question.title st x)
                                         (Question.title st q)) (rev (keys st))
                        = Some q').
  { intros q Hq.
    destruct (find _ (rev (keys st))) as [q'|] eqn:E; [eauto|].
    apply in_rev in Hq. pose proof (find_none _ _ E _ Hq) as F.
    cbv beta in F. now rewrite String.eqb_refl in F. }
  repeat split.
  - rewrite index_by_title_get in H.
    destruct (find _ (rev (keys st))) eqn:E; [|discriminate].
    injection H as ->. now apply (A t q).
  - rewrite index_by_title_get in H.
    destruct (find _ (rev (keys st))) eqn:E; [|discriminate].
    injection H as ->. now apply (A t q).
  - intros q Hq. unfold dict_mem. rewrite index_by_title_get.
    destruct (B q Hq) as [q' ->]. reflexivity.
  - intros D q Hq. rewrite index_by_title_get.
    destruct (B q Hq) as [q' E]. rewrite E. f_equal.
    destruct (A _ _ E) as [Hq' Ht].
    apply D; [now apply (dict_mem_In _ Zeqb_eq)
             | now apply (dict_mem_In _ Zeqb_eq) | exact Ht].
Qed.

Lemma questions_by_title_index_witness :
  dict_get String.eqb "Q1[B]" (Survey.questions_by_title Examples.three) = Some 3.
Proof.
  refine (proj2 (proj2 (questions_by_title_index Examples.three_questions)) _ 3 _).
  - intros q q' Hq Hq'.
    apply (dict_mem_In _ Zeqb_eq) in Hq, Hq'. vm_compute in Hq, Hq'.
    destruct Hq as [<-|[<-|[<-|[]]]], Hq' as [<-|[<-|[<-|[]]]];
      vm_compute; intros H; (reflexivity || discriminate H).
  - vm_compute. tauto.
Defined.

Section GroupKeys.
Import Question Survey Notions.

Lemma process_groups_NoDup (s : Survey) (q : ref) :
  NoDup (keys (question_groups_by_key s)) ->
  NoDup (keys (question_groups_by_key (process_question s q))).
Proof.
  intros H. unfold process_question, _create_question_group.
  destruct (dict_mem Z.eqb _ (questions_by_id s)); [|exact H].
  destruct (negb _); [|exact H].
  cbn [question_groups_by_key set_groups _create_question_link set_questions].
  now apply (NoDup_keys_dict_set _ String.eqb_eq).
Qed.

Lemma loaded_groups_NoDup raws :
  NoDup (keys (question_groups_by_key (_load_questions raws))).
Proof.
  change (question_groups_by_key (_load_questions raws))
    with (question_groups_by_key
            (fold_left process_question (keys (index_questions raws))
               {| questions_by_id := index_questions raws;
                  questions_by_title := [];
                  question_groups_by_key := [] |})).
  generalize (keys (index_questions raws)).
  assert (H : NoDup (keys (question_groups_by_key
                {| questions_by_id := index_questions raws;
                   questions_by_title := [];
                   question_groups_by_key := [] |}))) by constructor.
  revert H. generalize {| questions_by_id := index_questions raws;
                          questions_by_title := [];
                          question_groups_by_key := [] |}.
  intros s H l. revert s H.
  induction l as [|q l IH]; intros s H; [exact H|].
  cbn [fold_left]. apply IH. now apply process_groups_NoDup.
Qed.

Lemma NoDup_keys_get (V : Type) (d : dict string V) t v :
  NoDup (keys d) -> In (t, v) d -> dict_get String.eqb t d = Some v.
Proof.
  induction d as [|[k x] d IH]; intros Hnd Hin; [destruct Hin|].
  cbn [keys map fst] in Hnd. inversion Hnd as [|? ? Hk Hd]; subst.
  cbn [dict_get]. destruct Hin as [[= -> ->]|Hin].
  - now rewrite String.eqb_refl.
  - destruct (String.eqb t k) eqn:E; [|now apply IH].
    apply String.eqb_eq in E. subst k. exfalso. apply Hk.
    change (In (fst (t, v)) (map fst d)). now apply in_map.
Qed.

End GroupKeys.

(** X21. A group whose parent is a root question (its [parent_qid] names
    no loaded question) is stored under the display title of its parent,
    and looking that title up in the group mapping returns that group. *)
Theorem root_group_by_title (raws : list Question.RawQuestion)
    (t : string) (g : Question.QuestionGroup) :
  let s := Survey._load_questions raws in
  let st := Survey.questions_by_id s in
  In (t, g) (Survey.question_groups_by_key s) ->
  dict_mem Z.eqb
    (Question.parent_qid (Question.deref st (Question.group_parent g))) st = false ->
  t = Question.key st g
  /\ dict_get String.eqb (Question.key st g) (Survey.question_groups_by_key s)
     = Some g.
Proof.
  intros s st Hin Hroot. subst s st.
  destruct (load_questions_ok raws) as [Hok _]. cbv zeta in Hok.
  destruct (ok_groups Hok _ _ Hin) as (_ & _ & Ht & _).
  assert (E : t = Question.key (Survey.questions_by_id (Survey._load_questions raws)) g).
  { unfold Spec.possible_titles in Ht. rewrite Hroot in Ht.
    destruct Ht as [<-|[]]. unfold Question.key, Question.title.
    destruct (ok_parents Hok (Question.group_parent g)) as [->|[_ H]];
      [reflexivity | congruence]. }
  split; [exact E|]. rewrite <- E.
  apply NoDup_keys_get; [apply loaded_groups_NoDup | exact Hin].
Qed.

Lemma root_group_by_title_witness :
  "Q1" = Question.key (Survey.questions_by_id Examples.three) Examples.group_Q1
  /\ dict_get String.eqb
       (Question.key (Survey.questions_by_id Examples.three) Examples.group_Q1)
       (Survey.question_groups_by_key Examples.three)
     = Some Examples.group_Q1.
Proof.
  apply (@root_group_by_title Examples.three_questions "Q1" Examples.group_Q1).
  - vm_compute. now left.
  - reflexivity.
Defined.

(** ** More on the aggregated value *)

Lemma foldM_app (A B : Type) (f : B -> A -> result B) (l1 l2 : list A) (acc : B) :
  foldM f (l1 ++ l2) acc = bind (foldM f l1 acc) (foldM f l2).
Proof.
  revert acc; induction l1 as [|x l1 IH]; intros acc; [reflexivity|].
  cbn [app foldM]. destruct (f acc x); cbn [bind]; [apply IH | reflexivity].
Qed.

(** X22. A child whose lookup raises stops [get_value]: the exception of
    the first such child, a [KeyError] included, leaves [get_value]; only
    the lookup of the "other" answer has its [KeyError] caught. *)
Theorem get_value_child_raises
    (st : Question.store) (g : Question.QuestionGroup)
    (response : Question.Response)
    (answers : Question.answer_key -> result pyval)
    (before after : list Z) (sq : Z) (e : exn) :
  Question.get_answer_method response = Some answers ->
  values (Question.child_items st g) = (before ++ sq :: after)%list ->
  (forall x, In x before -> exists v, answers (Question.ForQuestion x) = Ok v) ->
  answers (Question.ForQuestion sq) = Raise e ->
  Question.get_value st g response = Raise e.
Proof.
  intros Hm Hk Hb He. unfold Question.get_value. rewrite Hk, foldM_app.
  rewrite (collect_children st response Hm _ [] Hb). cbn [bind foldM].
  rewrite (get_answer_eq response Hm), He. reflexivity.
Qed.

Lemma get_value_child_raises_witness :
  Question.get_value (Survey.questions_by_id Examples.three) Examples.group_Q1
    (Examples.lookup_response (Survey.questions_by_id Examples.three)
       [("Q1[A]", PyStr "Yes"); ("Q1[other]", PyStr "x")])
  = Raise (KeyError "Q1[B]").
Proof.
  apply (@get_value_child_raises (Survey.questions_by_id Examples.three)
           Examples.group_Q1 _
           (Examples.answers_of
              (Examples.lookup_response (Survey.questions_by_id Examples.three)
                 [("Q1[A]", PyStr "Yes"); ("Q1[other]", PyStr "x")]))
           [2] [] 3).
  - reflexivity.
  - reflexivity.
  - intros x [<-|[]]. vm_compute. eauto.
  - reflexivity.
Defined.

(** Whenever [get_value] returns, its result has at most one entry per
    child of the group, plus one for the "other" answer. *)
Theorem get_value_length
    (st : Question.store) (g : Question.QuestionGroup)
    (response : Question.Response)
    (answers : Question.answer_key -> result pyval) (l : list pyval) :
  Question.get_answer_method response = Some answers ->
  Question.get_value st g response = Ok l ->
  (length l <= length (Question.child_items st g) + 1)%nat.
Proof.
  intros Hm. unfold Question.get_value.
  destruct (foldM _ _ _) as [vals|e] eqn:Hvals; cbn [bind]; [|discriminate].
  apply (collect_children_inv st response Hm) in Hvals. cbn [app] in Hvals.
  assert (Hlen : (length (map PyStr (Question.sorted vals))
                  <= length (Question.child_items st g))%nat).
  { rewrite length_map, (Permutation_length (sorted_perm vals)). subst vals.
    rewrite length_map. unfold values.
    etransitivity; [apply filter_length_le | now rewrite length_map]. }
  destruct (Question.get_other_value st g response) as [o|e]; cbn [bind];
    [|discriminate].
  destruct (negb (is_none o)); intros [= <-]; [rewrite length_app; cbn|]; lia.
Qed.

Lemma get_value_length_witness :
  (length [PyStr "Option B"; PyStr "Another"]
   <= length (Question.child_items (Survey.questions_by_id Examples.three)
                Examples.group_Q1) + 1)%nat.
Proof.
  apply (@get_value_length (Survey.questions_by_id Examples.three)
           Examples.group_Q1 Examples.response_text_other
           (Examples.answers_of Examples.response_text_other)).
  - reflexivity.
  - vm_compute. reflexivity.
Defined.

(** ** More on text cleaning *)

Section CleanFacts.
Import Re Spec Notions Cleaning.

(** The three passes, as in the proof of the cleaning theorem. *)
Lemma clean_passes (text : string) :
  Question.clean_question_text text
  = squeeze_spaces (collapse_tag_span (blanks_to_spaces text)).
Proof.
  unfold Question.clean_question_text, Re.sub.
  rewrite sub_blanks by lia.
  fold tag. rewrite sub_tag by (lia || apply blanks_no_newline).
  apply sub_spaces. lia.
Qed.

Lemma occurs_app c a b : occurs c (a ++ b) = occurs c a || occurs c b.
Proof.
  induction a as [|x a IH]; [reflexivity|].
  cbn [append occurs]. now rewrite IH, orb_assoc.
Qed.

Lemma split_first_eq c s before inside :
  split_first c s = Some (before, inside) ->
  s = before ++ String c inside /\ occurs c before = false.
Proof.
  revert before; induction s as [|a s IH]; intros before; [discriminate|].
  cbn [split_first]. destruct (Ascii.eqb a c) eqn:E.
  - apply Ascii.eqb_eq in E. subst a. intros [= <- <-]. now split.
  - destruct (split_first c s) as [[b i]|]; [|discriminate].
    intros [= <- <-]. destruct (IH b eq_refl) as [-> Hb].
    split; [reflexivity|]. cbn [occurs]. now rewrite E, Hb.
Qed.

Lemma after_last_eq c s r :
  after_last c s = Some r ->
  exists mid, s = mid ++ String c r /\ occurs c r = false.
Proof.
  revert r; induction s as [|a s IH]; intros r; [discriminate|].
  cbn [after_last]. destruct (after_last c s) as [r'|] eqn:E.
  - intros [= <-]. destruct (IH _ eq_refl) as (mid & -> & Hr).
    exists (String a mid). now split.
  - destruct (Ascii.eqb a c) eqn:Ea; [|discriminate].
    apply Ascii.eqb_eq in Ea. subst a. intros [= <-].
    exists EmptyString. split; [reflexivity|].
    clear IH. induction s as [|b s IHs]; [reflexivity|].
    cbn [after_last] in E. destruct (after_last c s); [discriminate|].
    destruct (Ascii.eqb b c) eqn:Eb; [discriminate|].
    cbn [occurs]. rewrite Eb. now apply IHs.
Qed.

(** What [collapse_tag_span] keeps comes from the text, but for one
    space. *)
Lemma occurs_collapse c s :
  c <> " "%char -> occurs c s = false -> occurs c (collapse_tag_span s) = false.
Proof.
  intros Hc H. unfold collapse_tag_span.
  destruct (split_first "<" s) as [[before inside]|] eqn:E1; [|exact H].
  destruct (after_last ">" inside) as [after|] eqn:E2; [|exact H].
  apply split_first_eq in E1 as [-> _].
  apply after_last_eq in E2 as (mid & -> & _).
  rewrite occurs_app in H. cbn [occurs] in H. rewrite occurs_app in H.
  cbn [occurs] in H. rewrite !orb_false_iff in H.
  destruct H as (Hb & _ & _ & _ & Ha).
  rewrite occurs_app. cbn [append occurs]. rewrite Hb, Ha, !orb_false_r.
  apply Ascii.eqb_neq. congruence.
Qed.

Lemma occurs_squeeze c s : occurs c (squeeze_spaces s) = occurs c s.
Proof.
  induction s as [|a s IH]; [reflexivity|].
  cbn [squeeze_spaces]. destruct (Ascii.eqb a " ") eqn:E.
  - apply Ascii.eqb_eq in E. subst a.
    destruct s as [|b s]; [reflexivity|].
    destruct (Ascii.eqb b " ") eqn:Eb.
    + apply Ascii.eqb_eq in Eb. subst b.
      rewrite IH. cbn [occurs]. destruct (Ascii.eqb " " c); reflexivity.
    + assert (Hm : match b with
                   | " "%char => squeeze_spaces (String b s)
                   | _ => String " " (squeeze_spaces (String b s))
                   end = String " " (squeeze_spaces (String b s))).
      { destruct b as [[] [] [] [] [] [] [] []]; try reflexivity; discriminate. }
      rewrite Hm. cbn [occurs]. now rewrite IH.
  - cbn [occurs]. now rewrite IH.
Qed.

Lemma occurs_blanks c s :
  is_blank c = true -> occurs c (blanks_to_spaces s) = false.
Proof.
  intros Hc. induction s as [|a s IH]; [reflexivity|].
  cbn [blanks_to_spaces occurs]. rewrite IH, orb_false_r.
  destruct (is_blank a) eqn:Ea.
  - apply Ascii.eqb_neq. intros <-. discriminate Hc.
  - apply Ascii.eqb_neq. intros ->. congruence.
Qed.

Lemma blanks_fixed s : has_blank s = false -> blanks_to_spaces s = s.
Proof.
  unfold has_blank. induction s as [|a s IH]; [reflexivity|].
  cbn [occurs blanks_to_spaces]. intros H.
  rewrite !orb_false_iff in H. destruct H as [[[H1 H1'] [H2 H2']] [H3 H3']].
  unfold is_blank. rewrite H1, H2, H3. cbn [orb]. f_equal.
  apply IH. now rewrite H1', H2', H3'.
Qed.

(** The first character survives the squeeze. *)
Lemma squeeze_head s :
  match squeeze_spaces s, s with
  | String a _, String b _ => a = b
  | EmptyString, EmptyString => True
  | _, _ => False
  end.
Proof.
  induction s as [|a s IH]; [exact I|].
  cbn [squeeze_spaces]. destruct (Ascii.eqb a " ") eqn:E; [|reflexivity].
  apply Ascii.eqb_eq in E. subst a.
  destruct s as [|b s]; [reflexivity|].
  destruct (Ascii.eqb b " ") eqn:Eb.
  - apply Ascii.eqb_eq in Eb. subst b.
    destruct (squeeze_spaces (String " " s)); [destruct IH | exact IH].
  - destruct b as [[] [] [] [] [] [] [] []]; try reflexivity; discriminate.
Qed.

Lemma double_space_cons a b r :
  double_space (String a (String b r))
  = (Ascii.eqb a " " && Ascii.eqb b " ") || double_space (String b r).
Proof. reflexivity. Qed.

Lemma squeeze_no_double s : double_space (squeeze_spaces s) = false.
Proof.
  induction s as [|a s IH]; [reflexivity|].
  pose proof (squeeze_head s) as Hh.
  cbn [squeeze_spaces]. destruct (Ascii.eqb a " ") eqn:E.
  - apply Ascii.eqb_eq in E. subst a.
    destruct s as [|b s]; [reflexivity|].
    destruct (Ascii.eqb b " ") eqn:Eb.
    + apply Ascii.eqb_eq in Eb. subst b. exact IH.
    + assert (Hm : match b with
                   | " "%char => squeeze_spaces (String b s)
                   | _ => String " " (squeeze_spaces (String b s))
                   end = String " " (squeeze_spaces (String b s))).
      { destruct b as [[] [] [] [] [] [] [] []]; try reflexivity; discriminate. }
      rewrite Hm. destruct (squeeze_spaces (String b s)) as [|x r] eqn:Es;
        [reflexivity|].
      rewrite double_space_cons. subst x. rewrite Eb, andb_false_r. exact IH.
  - destruct (squeeze_spaces s) as [|x r] eqn:Es; [reflexivity|].
    rewrite double_space_cons, E. exact IH.
Qed.

Lemma squeeze_fixed s : double_space s = false -> squeeze_spaces s = s.
Proof.
  induction s as [|a s IH]; [reflexivity|].
  intros H. cbn [squeeze_spaces].
  assert (Hs : double_space s = false /\
               (Ascii.eqb a " " = true ->
                match s with String b _ => Ascii.eqb b " " = false | _ => True end)).
  { destruct s as [|b s]; [now split|].
    rewrite double_space_cons in H. apply orb_false_iff in H as [H1 H2].
    split; [exact H2|]. intros Ea. rewrite Ea in H1. exact H1. }
  destruct Hs as [Hs Hb]. rewrite (IH Hs).
  destruct (Ascii.eqb a " ") eqn:E; [|reflexivity].
  apply Ascii.eqb_eq in E. subst a. specialize (Hb eq_refl).
  destruct s as [|b s]; [reflexivity|].
  destruct b as [[] [] [] [] [] [] [] []]; try reflexivity; discriminate.
Qed.

Lemma tagfree_no_close s : occurs ">" s = false -> tagfree s = true.
Proof.
  induction s as [|a s IH]; [reflexivity|].
  cbn [occurs tagfree]. intros H. apply orb_false_iff in H as [_ H].
  destruct (Ascii.eqb a "<"); [now rewrite H | now apply IH].
Qed.

Lemma tagfree_app before s :
  occurs "<" before = false -> tagfree (before ++ s) = tagfree s.
Proof.
  induction before as [|a b IH]; [reflexivity|].
  cbn [occurs append tagfree]. intros H. apply orb_false_iff in H as [Ha Hb].
  rewrite Ha. now apply IH.
Qed.

Lemma tagfree_collapse s : tagfree (collapse_tag_span s) = true.
Proof.
  unfold collapse_tag_span.
  destruct (split_first "<" s) as [[before inside]|] eqn:E1.
  - destruct (after_last ">" inside) as [after|] eqn:E2.
    + apply split_first_eq in E1 as [_ Hb].
      apply after_last_eq in E2 as (mid & _ & Ha).
      rewrite tagfree_app by exact Hb. cbn [append tagfree Ascii.eqb Bool.eqb].
      now apply tagfree_no_close.
    + apply split_first_eq in E1 as [-> Hb]. apply after_last_none in E2.
      rewrite tagfree_app by exact Hb. cbn [tagfree].
      rewrite Ascii.eqb_refl. now rewrite E2.
  - clear -E1. induction s as [|a s IH]; [reflexivity|].
    cbn [split_first] in E1. cbn [tagfree].
    destruct (Ascii.eqb a "<"); [discriminate|].
    destruct (split_first "<" s) as [[b i]|]; [discriminate|]. now apply IH.
Qed.

Lemma collapse_fixed s : tagfree s = true -> collapse_tag_span s = s.
Proof.
  intros H. unfold collapse_tag_span.
  destruct (split_first "<" s) as [[before inside]|] eqn:E1; [|reflexivity].
  apply split_first_eq in E1 as [-> Hb].
  rewrite tagfree_app in H by exact Hb. cbn [tagfree] in H.
  rewrite Ascii.eqb_refl in H. apply negb_true_iff in H.
  apply after_last_none in H. now rewrite H.
Qed.

Lemma tagfree_squeeze s : tagfree (squeeze_spaces s) = tagfree s.
Proof.
  induction s as [|a s IH]; [reflexivity|].
  cbn [squeeze_spaces]. destruct (Ascii.eqb a " ") eqn:E.
  - apply Ascii.eqb_eq in E. subst a.
    destruct s as [|b s]; [reflexivity|].
    destruct (Ascii.eqb b " ") eqn:Eb.
    + apply Ascii.eqb_eq in Eb. subst b. rewrite IH. reflexivity.
    + assert (Hm : match b with
                   | " "%char => squeeze_spaces (String b s)
                   | _ => String " " (squeeze_spaces (String b s))
                   end = String " " (squeeze_spaces (String b s))).
      { destruct b as [[] [] [] [] [] [] [] []]; try reflexivity; discriminate. }
      rewrite Hm. cbn [tagfree Ascii.eqb Bool.eqb]. cbn [tagfree] in IH.
      exact IH.
  - cbn [tagfree]. destruct (Ascii.eqb a "<"); [|exact IH].
    now rewrite occurs_squeeze.
Qed.

Lemma has_blank_clean s : has_blank (clean s) = false.
Proof.
  unfold has_blank, clean. rewrite !occurs_squeeze.
  rewrite !occurs_collapse; try reflexivity; try discriminate;
    now apply occurs_blanks.
Qed.

End CleanFacts.

(** X23. Cleaned text holds no newline, no tab, no carriage return, and no
    two spaces in a row. *)
Theorem clean_question_text_tidy (text : string) :
  Cleaning.has_blank (Question.clean_question_text text) = false
  /\ Cleaning.double_space (Question.clean_question_text text) = false.
Proof.
  rewrite clean_passes. split.
  - apply has_blank_clean.
  - apply squeeze_no_double.
Qed.

(** X24. Cleaning is idempotent: cleaning a cleaned text changes nothing. *)
Theorem clean_question_text_idempotent (text : string) :
  Question.clean_question_text (Question.clean_question_text text)
  = Question.clean_question_text text.
Proof.
  rewrite (clean_passes text).
  set (t := Spec.squeeze_spaces
              (Spec.collapse_tag_span (Spec.blanks_to_spaces text))).
  rewrite clean_passes.
  rewrite blanks_fixed by apply has_blank_clean.
  rewrite collapse_fixed by (unfold t; rewrite tagfree_squeeze; apply tagfree_collapse).
  apply squeeze_fixed. apply squeeze_no_double.
Qed.

(** ** Title, file name and responses of a survey *)

Section InfoFacts.
Import SurveyInfo Notions.

Lemma occurs_space_uint d :
  occurs " " (DecimalString.NilEmpty.string_of_uint d) = false.
Proof. induction d; cbn; assumption || reflexivity. Qed.

Lemma occurs_space_int_str n : occurs " " (int_str n) = false.
Proof.
  unfold int_str, DecimalString.NilZero.string_of_int,
    DecimalString.NilZero.string_of_uint.
  destruct (Z.to_int n) as [d|d]; cbn [occurs]; destruct d;
    try reflexivity;
    try (rewrite occurs_space_uint; reflexivity);
    cbn; apply occurs_space_uint.
Qed.

Lemma occurs_space_replace s : occurs " " (replace_spaces s) = false.
Proof.
  induction s as [|c s IH]; [reflexivity|].
  cbn [replace_spaces occurs]. rewrite IH, orb_false_r.
  destruct (Ascii.eqb c " ") eqn:E; [reflexivity | exact E].
Qed.

End InfoFacts.

(** X25. The file name of a survey never holds a space, whatever the title
    and the id. *)
Theorem basename_no_space (s : SurveyInfo.Info) :
  Notions.occurs " " (SurveyInfo.basename s) = false.
Proof.
  unfold SurveyInfo.basename. rewrite !occurs_app.
  rewrite occurs_space_int_str, occurs_space_replace. reflexivity.
Qed.

(** X26. When no title was given to the constructor, the title stored in the
    survey properties is never returned: with properties that hold a
    "surveyls_title", whatever its value, the title is the bare word
    "Survey"; with properties that hold none, or that are not loaded, it is
    "Survey" followed by the id. *)
Theorem title_without_given_title
    (i : Z) (props : dict string pyval) (v : pyval) :
  SurveyInfo.title
    {| SurveyInfo._title := None; SurveyInfo.survey_id := i;
       SurveyInfo.survey_props :=
         PyDict (dict_set String.eqb "surveyls_title" v props) |}
  = "Survey"
  /\ (dict_mem String.eqb "surveyls_title" props = false ->
      SurveyInfo.title
        {| SurveyInfo._title := None; SurveyInfo.survey_id := i;
           SurveyInfo.survey_props := PyDict props |}
      = "Survey " ++ SurveyInfo.int_str i)
  /\ SurveyInfo.title
       {| SurveyInfo._title := None; SurveyInfo.survey_id := i;
          SurveyInfo.survey_props := PyNone |}
     = "Survey " ++ SurveyInfo.int_str i.
Proof.
  unfold SurveyInfo.title. cbn [SurveyInfo._title SurveyInfo.survey_props
                                SurveyInfo.survey_id Lime.getitem].
  rewrite (dict_get_set_same _ String.eqb_eq). repeat split.
  unfold dict_mem. intros H.
  destruct (dict_get String.eqb "surveyls_title" props); [discriminate | reflexivity].
Qed.

Lemma title_without_given_title_witness :
  SurveyInfo.title
    {| SurveyInfo._title := None; SurveyInfo.survey_id := 42;
       SurveyInfo.survey_props := PyDict [("sid", PyStr "42")] |}
  = "Survey 42".
Proof.
  apply (proj1 (proj2 (@title_without_given_title 42 [("sid", PyStr "42")] PyNone))).
  reflexivity.
Defined.

Section ResponseFacts.
Import Question SurveyInfo.

Lemma scalar_eqb_eq a b : scalar_eqb a b = true -> a = b.
Proof.
  destruct a, b; cbn; try discriminate; intros H; [reflexivity|..].
  - apply Bool.eqb_prop in H. now subst.
  - apply Z.eqb_eq in H. now subst.
  - apply String.eqb_eq in H. now subst.
Qed.

Lemma key_eqb_refl i : hashable i = true -> key_eqb i i = true.
Proof.
  unfold key_eqb. destruct i as [|[]| | | |]; cbn; try discriminate;
    intros _; try reflexivity.
  - apply Z.eqb_refl.
  - apply String.eqb_refl.
Qed.

Lemma key_eqb_trans_false j i k :
  key_eqb j i = false -> key_eqb i k = true -> key_eqb j k = false.
Proof.
  unfold key_eqb. intros H1 H2. apply scalar_eqb_eq in H2. now rewrite <- H2.
Qed.

Lemma key_eqb_trans_true j i k :
  key_eqb j i = true -> key_eqb i k = true -> key_eqb j k = true.
Proof.
  unfold key_eqb. intros H1 H2. apply scalar_eqb_eq in H2. now rewrite <- H2.
Qed.

Lemma scalar_eqb_sym a b : scalar_eqb a b = scalar_eqb b a.
Proof.
  destruct a as [|x|x|x|x|x], b as [|y|y|y|y|y]; cbn; try reflexivity.
  - destruct x, y; reflexivity.
  - apply Z.eqb_sym.
  - apply String.eqb_sym.
Qed.

Lemma key_eqb_sym a b : key_eqb a b = key_eqb b a.
Proof. unfold key_eqb. apply scalar_eqb_sym. Qed.

Lemma key_get_set_same (V : Type) i (v : V) (d : dict pyval V) :
  hashable i = true -> dict_get key_eqb i (dict_set key_eqb i v d) = Some v.
Proof.
  intros Hi. induction d as [|[k x] d IH]; cbn [dict_set dict_get].
  - now rewrite key_eqb_refl.
  - destruct (key_eqb i k) eqn:E; cbn [dict_get]; rewrite E; [reflexivity | exact IH].
Qed.

Lemma key_get_set_other (V : Type) i j (v : V) (d : dict pyval V) :
  key_eqb j i = false ->
  dict_get key_eqb j (dict_set key_eqb i v d) = dict_get key_eqb j d.
Proof.
  intros Hne. induction d as [|[k x] d IH]; cbn [dict_set dict_get].
  - now rewrite Hne.
  - destruct (key_eqb i k) eqn:E; cbn [dict_get].
    + now rewrite (key_eqb_trans_false _ _ _ Hne E).
    + destruct (key_eqb j k); [reflexivity | exact IH].
Qed.

Lemma row_id_dict r i : row_id r = Ok i -> exists d, r = PyDict d.
Proof. destruct r; try discriminate. eauto. Qed.

Lemma load_rows_step r rows acc :
  load_rows (r :: rows) acc
  = match row_id r with
    | Ok i => if hashable i
              then load_rows rows (dict_set key_eqb i (response_of r) acc)
              else (Raise TypeError, acc)
    | Raise e => (Raise e, acc)
    end.
Proof. destruct r; reflexivity. Qed.

Lemma load_rows_app l1 l2 acc :
  load_rows (l1 ++ l2) acc
  = match load_rows l1 acc with
    | (Ok _, m) => load_rows l2 m
    | (Raise e, m) => (Raise e, m)
    end.
Proof.
  revert acc; induction l1 as [|r l1 IH]; intros acc; [reflexivity|].
  cbn [app]. rewrite !load_rows_step.
  destruct (row_id r) as [i|e]; [|reflexivity].
  destruct (hashable i); [apply IH | reflexivity].
Qed.

Lemma load_rows_get rows acc :
  forallb storable rows = true ->
  exists m,
    load_rows rows acc = (Ok tt, m)
    /\ forall i, hashable i = true ->
         dict_get key_eqb i m
         = match last_row i rows with
           | Some r => Some (response_of r)
           | None => dict_get key_eqb i acc
           end.
Proof.
  revert acc; induction rows as [|r rows IH]; intros acc Hall.
  - exists acc. now split.
  - cbn [forallb] in Hall. apply andb_prop in Hall as [Hr Hall].
    rewrite load_rows_step. unfold storable in Hr.
    destruct (row_id r) as [j|e] eqn:Ej; [|discriminate]. rewrite Hr.
    destruct (IH (dict_set key_eqb j (response_of r) acc) Hall) as (m & Hm & Hget).
    exists m. split; [exact Hm|]. intros i Hi. rewrite (Hget i Hi).
    unfold last_row. cbn [rev]. rewrite find_app_last.
    destruct (find _ (rev rows)); [reflexivity|]. rewrite Ej.
    destruct (key_eqb j i) eqn:E.
    + rewrite key_eqb_sym in E.
      assert (Hs : dict_get key_eqb i (dict_set key_eqb j (response_of r) acc)
                   = dict_get key_eqb j (dict_set key_eqb j (response_of r) acc)).
      { generalize (dict_set key_eqb j (response_of r) acc). intros d.
        induction d as [|[k x] d IHd]; [reflexivity|]. cbn [dict_get].
        destruct (key_eqb j k) eqn:Ek.
        - now rewrite (key_eqb_trans_true _ _ _ E Ek).
        - rewrite key_eqb_sym in E.
          destruct (key_eqb i k) eqn:Eik; [|exact IHd].
          now rewrite (key_eqb_trans_true _ _ _ E Eik) in Ek. }
      rewrite Hs. now apply key_get_set_same.
    + apply key_get_set_other. now rewrite key_eqb_sym.
Qed.

End ResponseFacts.

(** X27. When every row is a mapping with an id that can be a key, loading
    the responses succeeds, and under each id the response built from the
    last row with that id is found: a later row with the same id replaces
    an earlier one, and an id no row has is not a key. *)
Theorem load_responses_last_wins (rows : list pyval) :
  forallb SurveyInfo.storable rows = true ->
  exists responses_by_id,
    SurveyInfo._load_responses rows = (Ok tt, responses_by_id)
    /\ forall i, SurveyInfo.hashable i = true ->
         dict_get SurveyInfo.key_eqb i responses_by_id
         = option_map SurveyInfo.response_of (SurveyInfo.last_row i rows).
Proof.
  intros H. destruct (load_rows_get rows [] H) as (m & Hm & Hget).
  exists m. split; [exact Hm|]. intros i Hi. rewrite (Hget i Hi).
  destruct (SurveyInfo.last_row i rows); reflexivity.
Qed.

Lemma load_responses_last_wins_witness :
  exists responses_by_id,
    SurveyInfo._load_responses
      [PyDict [("id", PyInt 1); ("q1", PyStr "x")];
       PyDict [("id", PyInt 2); ("q1", PyStr "y")];
       PyDict [("id", PyInt 1); ("q1", PyStr "z")]]
    = (Ok tt, responses_by_id)
    /\ forall i, SurveyInfo.hashable i = true ->
         dict_get SurveyInfo.key_eqb i responses_by_id
         = option_map SurveyInfo.response_of
             (SurveyInfo.last_row i
                [PyDict [("id", PyInt 1); ("q1", PyStr "x")];
                 PyDict [("id", PyInt 2); ("q1", PyStr "y")];
                 PyDict [("id", PyInt 1); ("q1", PyStr "z")]]).
Proof.
  apply load_responses_last_wins. reflexivity.
Defined.

(** X28. The first row that is not a mapping, has no "id", or has an id
    that cannot be a key stops the loading with [TypeError] or [KeyError];
    the rows before it stay loaded. *)
Theorem load_responses_bad_row (before after : list pyval) (r : pyval) :
  forallb SurveyInfo.storable before = true ->
  SurveyInfo.storable r = false ->
  exists responses_by_id,
    SurveyInfo._load_responses before = (Ok tt, responses_by_id)
    /\ SurveyInfo._load_responses (before ++ r :: after)
       = (Raise (match SurveyInfo.row_id r with
                 | Raise e => e
                 | Ok _ => TypeError
                 end), responses_by_id).
Proof.
  intros Hb Hr. destruct (load_rows_get before [] Hb) as (m & Hm & _).
  exists m. split; [exact Hm|].
  unfold SurveyInfo._load_responses in *. rewrite load_rows_app, Hm, load_rows_step.
  unfold SurveyInfo.storable in Hr.
  destruct (SurveyInfo.row_id r) as [i|e]; [now rewrite Hr | reflexivity].
Qed.

Lemma load_responses_bad_row_witness :
  exists responses_by_id,
    SurveyInfo._load_responses [PyDict [("id", PyInt 1)]]
    = (Ok tt, responses_by_id)
    /\ SurveyInfo._load_responses
         ([PyDict [("id", PyInt 1)]] ++ PyDict [("q1", PyStr "y")] :: [])
       = (Raise (KeyError "id"), responses_by_id).
Proof.
  apply (@load_responses_bad_row [PyDict [("id", PyInt 1)]] []
           (PyDict [("q1", PyStr "y")])); reflexivity.
Defined.

(** ** The rows of the question group table *)

Section RowFacts.
Import Question Rows Notions.

Lemma count_app c a b : count c (a ++ b) = (count c a + count c b)%nat.
Proof.
  induction a as [|x a IH]; [reflexivity|].
  cbn [append count]. rewrite IH. lia.
Qed.

Lemma count_absent c s : occurs c s = false -> count c s = O.
Proof.
  induction s as [|a s IH]; [reflexivity|].
  cbn [occurs count]. intros H. apply orb_false_iff in H as [Ha Hs].
  now rewrite Ha, IH.
Qed.

Lemma count_join_lines (lines : list string) :
  (forall x, In x lines -> count Re.newline x = O) ->
  count Re.newline (join (String Re.newline EmptyString) lines)
  = pred (length lines).
Proof.
  induction lines as [|x lines IH]; intros H; [reflexivity|].
  destruct lines as [|y lines]; [cbn; apply H; now left|].
  change (join (String Re.newline EmptyString) (x :: y :: lines))
    with (x ++ String Re.newline EmptyString
            ++ join (String Re.newline EmptyString) (y :: lines)).
  rewrite !count_app, (H x (or_introl eq_refl)), IH
    by (intros z Hz; apply H; now right).
  cbn. reflexivity.
Qed.

Lemma insert_by_perm (A : Type) (f : A -> string) x (l : list A) :
  Permutation (insert_by f x l) (x :: l).
Proof.
  induction l as [|y l IH]; cbn [insert_by]; [reflexivity|].
  destruct (String.leb (f x) (f y)); [reflexivity|].
  rewrite IH. apply perm_swap.
Qed.

Lemma sorted_by_perm (A : Type) (f : A -> string) (l : list A) :
  Permutation (sorted_by f l) l.
Proof.
  induction l as [|x l IH]; cbn; [constructor|].
  rewrite insert_by_perm. now constructor.
Qed.

Lemma text_one_line (x : Question) : count Re.newline (text x) = O.
Proof.
  apply count_absent. unfold text.
  pose proof (has_blank_clean (raw_question (data x))) as H.
  rewrite clean_passes. unfold Cleaning.has_blank, Spec.clean in H.
  apply orb_false_iff in H as [H _]. now apply orb_false_iff in H as [H _].
Qed.

End RowFacts.

(** The newlines of the flattened options, counted. *)
Lemma flat_options_newlines
    (st : Question.store) (g : Question.QuestionGroup) :
  (forall q, In q (values (Question.child_items st g)) ->
             Notions.occurs Re.newline (Question.title st q) = false) ->
  Rows.count Re.newline (Rows.flat_options (Rows.group_dict st g true))
  = pred (length (Question.child_items st g)).
Proof.
  intros Ht. unfold Rows.flat_options, Rows.group_dict.
  cbn [Rows.group_options].
  rewrite count_join_lines.
  - rewrite length_map, (Permutation_length (sorted_by_perm _ _)).
    unfold values. now rewrite length_map.
  - intros x Hx. apply in_map_iff in Hx as (q & <- & Hq).
    apply (Permutation_in _ (sorted_by_perm _ _)) in Hq.
    unfold Rows.option_line. rewrite !count_app, text_one_line.
    rewrite (count_absent _ _ (Ht q Hq)). reflexivity.
Qed.

(** X29. The flattened options of a group hold one line per child. For a
    group without children they are the empty string. For a group with at
    least one child, when no display title of a child holds a newline, the
    newlines in them are one less than the children, however long the
    question texts are: the lines are as many as the children. *)
Theorem flattened_options_lines
    (st : Question.store) (g : Question.QuestionGroup) :
  (Question.child_items st g = [] ->
   Rows.flat_options (Rows.group_dict st g true) = EmptyString)
  /\ (Question.child_items st g <> [] ->
      (forall q, In q (values (Question.child_items st g)) ->
                 Notions.occurs Re.newline (Question.title st q) = false) ->
      S (Rows.count Re.newline (Rows.flat_options (Rows.group_dict st g true)))
      = length (Question.child_items st g)).
Proof.
  split.
  - intros H. unfold Rows.flat_options, Rows.group_dict.
    cbn [Rows.group_options]. rewrite H. reflexivity.
  - intros Hne Ht. rewrite (flat_options_newlines st g Ht).
    destruct (Question.child_items st g); [congruence | reflexivity].
Qed.

(** The example group has two children: one newline, two lines. A group
    made of the childless question A has no options. *)
Lemma flattened_options_lines_witness :
  S (Rows.count Re.newline
       (Rows.flat_options
          (Rows.group_dict (Survey.questions_by_id Examples.three)
             Examples.group_Q1 true)))
  = 2%nat
  /\ Rows.flat_options
       (Rows.group_dict (Survey.questions_by_id Examples.three)
          {| Question.group_parent := 2 |} true)
     = EmptyString.
Proof.
  split.
  - apply (proj2 (flattened_options_lines
                    (Survey.questions_by_id Examples.three) Examples.group_Q1)).
    + vm_compute. discriminate.
    + intros q Hq. vm_compute in Hq. destruct Hq as [<-|[<-|[]]]; reflexivity.
  - apply (proj1 (flattened_options_lines
                    (Survey.questions_by_id Examples.three)
                    {| Question.group_parent := 2 |})).
    reflexivity.
Defined.

Section TableFacts.
Import Question Survey Rows Notions.

Lemma insert_by_hd (A : Type) (f : A -> string) x y (l : list A) :
  le_str (f y) (f x) -> HdRel (fun a b => le_str (f a) (f b)) y l ->
  HdRel (fun a b => le_str (f a) (f b)) y (insert_by f x l).
Proof.
  intros Hyx Hl. destruct l as [|z l]; cbn [insert_by]; [now constructor|].
  destruct (String.leb (f x) (f z)); constructor; [assumption|].
  now inversion Hl.
Qed.

Lemma sorted_by_Sorted (A : Type) (f : A -> string) (l : list A) :
  Sorted (fun a b => le_str (f a) (f b)) (sorted_by f l).
Proof.
  induction l as [|x l IH]; cbn [sorted_by fold_right]; [constructor|].
  fold (sorted_by f l). induction IH as [|y s Hs IHs Hhd]; cbn [insert_by].
  - repeat constructor.
  - destruct (String.leb (f x) (f y)) eqn:E.
    + constructor; [now constructor|]. now constructor.
    + constructor; [assumption|]. apply insert_by_hd; [|assumption].
      destruct (String.leb_total (f x) (f y)) as [H|H]; [congruence | exact H].
Qed.

Lemma Sorted_map (A : Type) (f : A -> string) (l : list A) :
  Sorted (fun a b => le_str (f a) (f b)) l -> Sorted le_str (map f l).
Proof.
  induction 1 as [|x l Hs IH Hhd]; cbn [map]; constructor; [assumption|].
  destruct Hhd; cbn [map]; now constructor.
Qed.

Lemma title_index_NoDup (f : ref -> string) (l : list ref) (m : dict string ref) :
  NoDup (keys m) ->
  NoDup (keys (fold_left (fun m q => dict_set String.eqb (f q) q m) l m)).
Proof.
  revert m; induction l as [|x l IH]; intros m H; [exact H|].
  cbn [fold_left]. apply IH. now apply (NoDup_keys_dict_set _ String.eqb_eq).
Qed.

Lemma titles_consistent raws t q :
  In (t, q) (questions_by_title (_load_questions raws)) ->
  title (questions_by_id (_load_questions raws)) q = t.
Proof.
  intros Hin.
  assert (Hg : dict_get String.eqb t (questions_by_title (_load_questions raws))
               = Some q).
  { apply NoDup_keys_get; [|exact Hin]. rewrite titles_of_loaded.
    apply title_index_NoDup. constructor. }
  rewrite titles_of_loaded, index_by_title_get in Hg.
  destruct (find _ (rev _)) eqn:E; [|discriminate]. injection Hg as ->.
  apply find_some in E as [_ E]. now apply String.eqb_eq.
Qed.

End TableFacts.

(** X30. The rows of the "Questions" table come sorted by display title, and
    there is exactly one row per key of [questions_by_title], carrying that
    key as its title. *)
Theorem question_rows_sorted (raws : list Question.RawQuestion) :
  let s := Survey._load_questions raws in
  Sorted Notions.le_str (map Rows.row_title (Rows.question_rows s))
  /\ NoDup (map Rows.row_title (Rows.question_rows s))
  /\ Permutation (map Rows.row_title (Rows.question_rows s))
                 (keys (Survey.questions_by_title s)).
Proof.
  intros s. subst s. unfold Rows.question_rows.
  set (s := Survey._load_questions raws).
  set (st := Survey.questions_by_id s).
  rewrite map_map. cbn [Rows.row_title Rows.question_dict].
  assert (Hk : map (Question.title st) (values (Survey.questions_by_title s))
               = keys (Survey.questions_by_title s)).
  { unfold values, keys. rewrite map_map. apply map_ext_in.
    intros [t q] Hin. cbn [fst snd]. now apply titles_consistent. }
  assert (Hp : Permutation
                 (map (Question.title st)
                    (Rows.sorted_by (Question.title st)
                       (values (Survey.questions_by_title s))))
                 (keys (Survey.questions_by_title s))).
  { rewrite <- Hk. apply Permutation_map. apply sorted_by_perm. }
  split; [|split; [|exact Hp]].
  - apply Sorted_map. apply sorted_by_Sorted.
  - apply (Permutation_NoDup (Permutation_sym Hp)).
    unfold s. rewrite titles_of_loaded. apply title_index_NoDup. constructor.
Qed.
